(** * Shallow embedding of the candid renderer core (mesh engine, backend
    registry, renderer facade).

    Modelling conventions:
    - [float] values are modelled as real numbers [R] (idealised arithmetic:
      no rounding); [sinf], [cosf], [tanf], [sqrtf] are [sin], [cos], [tan],
      [sqrt]; [(float)M_PI] is [PI].
    - [uint32_t]/[size_t] counters are [Z]; a [uint32_t] result is wrapped
      with [u32], a [(uint16_t)] cast with [u16].
    - a pointer to a buffer is [option (list _)] ([None] is [NULL]); a read
      or write outside the list is undefined behaviour, modelled by the
      [Undefined] outcome.
    - the C heap is a list of live block identifiers together with an
      allocation oracle: the n-th entry of [oracle] says whether the n-th
      call to [malloc]/[calloc] returns a non-null block. *)

From Stdlib Require Import ZArith Reals Lra Lia List Bool Sorted.
Import ListNotations.

Open Scope R_scope.

(** ** Types (types.h, mesh.h) *)

Inductive Candid_Result :=
| CANDID_SUCCESS
| CANDID_ERROR_INVALID_ARGUMENT
| CANDID_ERROR_OUT_OF_MEMORY
| CANDID_ERROR_BACKEND_NOT_SUPPORTED
| CANDID_ERROR_DEVICE_LOST
| CANDID_ERROR_SHADER_COMPILATION
| CANDID_ERROR_RESOURCE_CREATION
| CANDID_ERROR_UNKNOWN.

Record Candid_Vec2 := mkVec2 { x2 : R; y2 : R }.
Record Candid_Vec3 := mkVec3 { x : R; y : R; z : R }.
Record Candid_Vec4 := mkVec4 { x4 : R; y4 : R; z4 : R; w4 : R }.
Record Candid_Color := mkColor { cr : R; cg : R; cb : R; ca : R }.

Inductive Candid_IndexFormat :=
| CANDID_INDEX_FORMAT_UINT16
| CANDID_INDEX_FORMAT_UINT32.

Inductive Candid_PrimitiveTopology :=
| CANDID_PRIMITIVE_POINT_LIST
| CANDID_PRIMITIVE_LINE_LIST
| CANDID_PRIMITIVE_LINE_STRIP
| CANDID_PRIMITIVE_TRIANGLE_LIST
| CANDID_PRIMITIVE_TRIANGLE_STRIP.

Inductive Candid_VertexFormat :=
| CANDID_VERTEX_FORMAT_FLOAT | CANDID_VERTEX_FORMAT_FLOAT2
| CANDID_VERTEX_FORMAT_FLOAT3 | CANDID_VERTEX_FORMAT_FLOAT4
| CANDID_VERTEX_FORMAT_OTHER (code : nat).

Inductive Candid_VertexSemantic :=
| CANDID_SEMANTIC_POSITION | CANDID_SEMANTIC_NORMAL | CANDID_SEMANTIC_TANGENT
| CANDID_SEMANTIC_BITANGENT | CANDID_SEMANTIC_TEXCOORD0
| CANDID_SEMANTIC_TEXCOORD1 | CANDID_SEMANTIC_COLOR0 | CANDID_SEMANTIC_COLOR1
| CANDID_SEMANTIC_JOINTS | CANDID_SEMANTIC_WEIGHTS | CANDID_SEMANTIC_CUSTOM.

Record Candid_VertexAttribute := mkAttr {
  semantic : Candid_VertexSemantic;
  format : Candid_VertexFormat;
  offset : Z;
  buffer_index : Z }.

(** The first [attribute_count] entries of [attributes]; the remaining
    array slots are zero. *)
Record Candid_VertexLayout := mkLayout {
  attributes : list Candid_VertexAttribute;
  attribute_count : Z;
  strides : list Z;
  buffer_count : Z }.

Record Candid_Vertex := mkVertex {
  position : Candid_Vec3;
  normal : Candid_Vec3;
  tangent : Candid_Vec4;
  texcoord0 : Candid_Vec2;
  texcoord1 : Candid_Vec2;
  color : Candid_Color }.

Record Candid_MeshData := mkMeshData {
  vertices : option (list Candid_Vertex);
  vertex_count : Z;
  vertex_stride : Z;
  indices : option (list Z);
  index_count : Z;
  index_format : Candid_IndexFormat;
  layout : Candid_VertexLayout;
  topology : Candid_PrimitiveTopology }.

Record Candid_AABB := mkAABB { aabb_min : Candid_Vec3; aabb_max : Candid_Vec3 }.

Definition vec2_zero := mkVec2 0 0.
Definition vec3_zero := mkVec3 0 0 0.
Definition vec4_zero := mkVec4 0 0 0 0.
Definition color_white := mkColor 1 1 1 1.

(** A zero-filled vertex, as [calloc] leaves it. *)
Definition vertex_zero :=
  mkVertex vec3_zero vec3_zero vec4_zero vec2_zero vec2_zero (mkColor 0 0 0 0).

(** ** Machine integers *)

Definition u32 (n : Z) : Z := (n mod 2 ^ 32)%Z.
Definition u16 (n : Z) : Z := (n mod 2 ^ 16)%Z.

(** [for (i = 0; i < n; ++i)] *)
Definition range (n : Z) : list Z := map Z.of_nat (seq 0 (Z.to_nat n)).

(** ** Outcomes and the heap *)

Inductive Outcome (A : Type) :=
| Returned (r : Candid_Result) (a : A)
| Undefined.
Arguments Returned {A} r a.
Arguments Undefined {A}.

Record Heap := mkHeap { live : list nat; fresh : nat; oracle : list bool }.

(** [malloc]/[calloc]: the oracle decides whether the block is returned. *)
Definition malloc_ (h : Heap) : option nat * Heap :=
  match oracle h with
  | false :: o => (None, mkHeap (live h) (fresh h) o)
  | o => (Some (fresh h), mkHeap (fresh h :: live h) (S (fresh h)) (tl o))
  end.

(** [free]; [free(NULL)] does nothing. *)
Definition free_ (p : option nat) (h : Heap) : Heap :=
  match p with
  | None => h
  | Some q => mkHeap (remove Nat.eq_dec q (live h)) (fresh h) (oracle h)
  end.

(** Every live block was handed out before [fresh]. *)
Definition heap_wf (h : Heap) : Prop := forall p, In p (live h) -> (p < fresh h)%nat.

(** The next [n] allocations succeed. *)
Definition allocs_succeed (n : nat) (h : Heap) : bool :=
  forallb (fun b => b) (firstn n (oracle h)).

(** ** create_standard_layout *)

(** [sizeof(Candid_Vertex)] and the [offsetof] of each field: 18 floats. *)
Definition sizeof_Candid_Vertex : Z := 72.

Definition create_standard_layout : Candid_VertexLayout :=
  mkLayout
    [ mkAttr CANDID_SEMANTIC_POSITION CANDID_VERTEX_FORMAT_FLOAT3 0 0;
      mkAttr CANDID_SEMANTIC_NORMAL CANDID_VERTEX_FORMAT_FLOAT3 12 0;
      mkAttr CANDID_SEMANTIC_TANGENT CANDID_VERTEX_FORMAT_FLOAT4 24 0;
      mkAttr CANDID_SEMANTIC_TEXCOORD0 CANDID_VERTEX_FORMAT_FLOAT2 40 0;
      mkAttr CANDID_SEMANTIC_TEXCOORD1 CANDID_VERTEX_FORMAT_FLOAT2 48 0;
      mkAttr CANDID_SEMANTIC_COLOR0 CANDID_VERTEX_FORMAT_FLOAT4 56 0 ]
    6 [sizeof_Candid_Vertex] 1.

(** ** Cube mesh (candid_mesh_create_cube) *)

(** The [faces] table: normal and the four corner positions. *)
Definition cube_faces (h : R) : list (Candid_Vec3 * list Candid_Vec3) :=
  [ (mkVec3 0 0 1,
      [mkVec3 (-h) (-h) h; mkVec3 h (-h) h; mkVec3 h h h; mkVec3 (-h) h h]);
    (mkVec3 0 0 (-1),
      [mkVec3 h (-h) (-h); mkVec3 (-h) (-h) (-h); mkVec3 (-h) h (-h); mkVec3 h h (-h)]);
    (mkVec3 1 0 0,
      [mkVec3 h (-h) h; mkVec3 h (-h) (-h); mkVec3 h h (-h); mkVec3 h h h]);
    (mkVec3 (-1) 0 0,
      [mkVec3 (-h) (-h) (-h); mkVec3 (-h) (-h) h; mkVec3 (-h) h h; mkVec3 (-h) h (-h)]);
    (mkVec3 0 1 0,
      [mkVec3 (-h) h h; mkVec3 h h h; mkVec3 h h (-h); mkVec3 (-h) h (-h)]);
    (mkVec3 0 (-1) 0,
      [mkVec3 (-h) (-h) (-h); mkVec3 h (-h) (-h); mkVec3 h (-h) h; mkVec3 (-h) (-h) h]) ].

Definition cube_uvs : list Candid_Vec2 :=
  [mkVec2 0 1; mkVec2 1 1; mkVec2 1 0; mkVec2 0 0].

(** One vertex of the loop body: position, normal, uv and white colour
    written over a zero-filled vertex. *)
Definition cube_vertex (n p : Candid_Vec3) (uv : Candid_Vec2) : Candid_Vertex :=
  mkVertex p n vec4_zero uv vec2_zero color_white.

(** The vertex loop fills [vertices[face*4 + v]] for every face and corner,
    in order, so the buffer is the concatenation of the faces. *)
Definition cube_vertices (h : R) : list Candid_Vertex :=
  flat_map (fun f => map (fun '(p, uv) => cube_vertex (fst f) p uv)
                         (combine (snd f) cube_uvs))
           (cube_faces h).

Definition cube_indices : list Z :=
  flat_map (fun face => let base := (face * 4)%Z in
              [u16 (base + 0); u16 (base + 1); u16 (base + 2);
               u16 (base + 0); u16 (base + 2); u16 (base + 3)]%Z)
           (range 6).

(** ** Bounding box (candid_mesh_calculate_aabb) *)

(** One iteration of the scan loop. *)
Definition aabb_step (box : Candid_AABB) (p : Candid_Vec3) : Candid_AABB :=
  let mn := aabb_min box in
  let mx := aabb_max box in
  mkAABB
    (mkVec3 (if Rlt_dec (x p) (x mn) then x p else x mn)
            (if Rlt_dec (y p) (y mn) then y p else y mn)
            (if Rlt_dec (z p) (z mn) then z p else z mn))
    (mkVec3 (if Rlt_dec (x mx) (x p) then x p else x mx)
            (if Rlt_dec (y mx) (y p) then y p else y mx)
            (if Rlt_dec (z mx) (z p) then z p else z mx)).

(** Read [verts[i]]; outside the buffer the behaviour is undefined. *)
Definition read_vertex (vs : list Candid_Vertex) (i : Z) : option Candid_Vertex :=
  if (0 <=? i)%Z then nth_error vs (Z.to_nat i) else None.

Fixpoint aabb_loop (vs : list Candid_Vertex) (box : Candid_AABB) (is : list Z)
    : option Candid_AABB :=
  match is with
  | [] => Some box
  | i :: rest =>
      match read_vertex vs i with
      | None => None
      | Some v => aabb_loop vs (aabb_step box (position v)) rest
      end
  end.

(** [for (i = 1; i < vertex_count; ++i)] *)
Definition range_from1 (n : Z) : list Z := map Z.succ (range (n - 1)).

Definition candid_mesh_calculate_aabb (data : option Candid_MeshData)
    (out : option Candid_AABB) : Outcome (option Candid_AABB) :=
  match data, out with
  | Some d, Some _ =>
      match vertices d with
      | None => Returned CANDID_ERROR_INVALID_ARGUMENT out
      | Some vs =>
          match read_vertex vs 0 with
          | None => Undefined
          | Some v0 =>
              match aabb_loop vs (mkAABB (position v0) (position v0))
                              (range_from1 (vertex_count d)) with
              | None => Undefined
              | Some box => Returned CANDID_SUCCESS (Some box)
              end
          end
      end
  | _, _ => Returned CANDID_ERROR_INVALID_ARGUMENT out
  end.

(** The six axis-aligned unit vectors, in the order of the [faces] table. *)
Definition axis_units : list Candid_Vec3 :=
  [mkVec3 0 0 1; mkVec3 0 0 (-1); mkVec3 1 0 0; mkVec3 (-1) 0 0;
   mkVec3 0 1 0; mkVec3 0 (-1) 0].

(** ** Generated buffers *)

(** The loops write [vs] into a buffer of [vertex_count] slots and [is]
    into one of [index_count] slots; writing past the end of either buffer
    is undefined (it only happens when a [uint32_t] count wrapped). *)
Definition fill_buffers (vs : list Candid_Vertex) (is : list Z)
    (vertex_count index_count : Z) (hp : Heap) : Outcome (Heap * option Candid_MeshData) :=
  if (Z.of_nat (length vs) <=? vertex_count)%Z && (Z.of_nat (length is) <=? index_count)%Z
  then Returned CANDID_SUCCESS
         (hp, Some (mkMeshData (Some vs) vertex_count sizeof_Candid_Vertex
                      (Some is) index_count CANDID_INDEX_FORMAT_UINT16
                      create_standard_layout CANDID_PRIMITIVE_TRIANGLE_LIST))
  else Undefined.

(** The common prologue of the generators: [calloc] the vertices, [malloc]
    the indices, and on failure free both and return [OutOfMemory]. *)
Definition alloc_and_fill (out : option Candid_MeshData) (hp : Heap)
    (k : Heap -> Outcome (Heap * option Candid_MeshData))
    : Outcome (Heap * option Candid_MeshData) :=
  let (pv, hp1) := malloc_ hp in
  let (pi, hp2) := malloc_ hp1 in
  match pv, pi with
  | Some _, Some _ => k hp2
  | _, _ => Returned CANDID_ERROR_OUT_OF_MEMORY (free_ pi (free_ pv hp2), out)
  end.

(** ** Sphere mesh (candid_mesh_create_sphere) *)

Definition sphere_vertex (radius : R) (segments rings ring seg : Z) : Candid_Vertex :=
  let phi := PI * IZR ring / IZR rings in
  let sin_phi := sin phi in
  let cos_phi := cos phi in
  let theta := 2 * PI * IZR seg / IZR segments in
  let sin_theta := sin theta in
  let cos_theta := cos theta in
  let vx := cos_theta * sin_phi in
  let vy := cos_phi in
  let vz := sin_theta * sin_phi in
  mkVertex (mkVec3 (radius * vx) (radius * vy) (radius * vz)) (mkVec3 vx vy vz)
    vec4_zero (mkVec2 (IZR seg / IZR segments) (IZR ring / IZR rings))
    vec2_zero color_white.

(** [for (ring = 0; ring <= rings; ++ring) for (seg = 0; seg <= segments; ++seg)] *)
Definition sphere_vertices (radius : R) (segments rings : Z) : list Candid_Vertex :=
  flat_map (fun ring =>
              map (fun seg => sphere_vertex radius segments rings ring seg)
                  (range (segments + 1)))
           (range (rings + 1)).

Definition sphere_quad (segments ring seg : Z) : list Z :=
  let a := u16 (u32 (ring * (segments + 1) + seg)) in
  let b := u16 (u32 (a + segments + 1)) in
  let c := u16 (a + 1) in
  let d := u16 (b + 1) in
  [a; b; c; c; b; d].

Definition sphere_indices (segments rings : Z) : list Z :=
  flat_map (fun ring => flat_map (fun seg => sphere_quad segments ring seg)
                                 (range segments))
           (range rings).

Definition candid_mesh_create_sphere (radius : R) (segments rings : Z)
    (out : option Candid_MeshData) (hp : Heap) : Outcome (Heap * option Candid_MeshData) :=
  match out with
  | None => Returned CANDID_ERROR_INVALID_ARGUMENT (hp, out)
  | Some _ =>
      if (segments <? 3)%Z || (rings <? 2)%Z
      then Returned CANDID_ERROR_INVALID_ARGUMENT (hp, out)
      else
        let vertex_count := u32 (u32 (segments + 1) * u32 (rings + 1)) in
        let index_count := u32 (segments * rings * 6) in
        alloc_and_fill out hp (fun hp2 =>
          fill_buffers (sphere_vertices radius segments rings)
                       (sphere_indices segments rings) vertex_count index_count hp2)
  end.

(** Euclidean length of a vector. *)
Definition norm3 (v : Candid_Vec3) : R := sqrt (x v * x v + y v * y v + z v * z v).

(** ** Plane mesh (candid_mesh_create_plane) *)

Definition plane_vertex (width height : R) (subdivisions_x subdivisions_y yy xx : Z)
    : Candid_Vertex :=
  let half_w := width * 0.5 in
  let half_h := height * 0.5 in
  let ty := IZR yy / IZR subdivisions_y in
  let tx := IZR xx / IZR subdivisions_x in
  mkVertex (mkVec3 (- half_w + tx * width) 0 (- half_h + ty * height))
    (mkVec3 0 1 0) vec4_zero (mkVec2 tx ty) vec2_zero color_white.

Definition plane_quad (verts_x yy xx : Z) : list Z :=
  let a := u16 (u32 (yy * verts_x + xx)) in
  let b := u16 (u32 (a + verts_x)) in
  let c := u16 (a + 1) in
  let d := u16 (b + 1) in
  [a; b; c; c; b; d].

Definition candid_mesh_create_plane (width height : R) (subdivisions_x subdivisions_y : Z)
    (out : option Candid_MeshData) (hp : Heap) : Outcome (Heap * option Candid_MeshData) :=
  match out with
  | None => Returned CANDID_ERROR_INVALID_ARGUMENT (hp, out)
  | Some _ =>
      if (subdivisions_x <? 1)%Z || (subdivisions_y <? 1)%Z
      then Returned CANDID_ERROR_INVALID_ARGUMENT (hp, out)
      else
        let verts_x := u32 (subdivisions_x + 1) in
        let verts_y := u32 (subdivisions_y + 1) in
        let vertex_count := u32 (verts_x * verts_y) in
        let index_count := u32 (subdivisions_x * subdivisions_y * 6) in
        let vs := flat_map (fun yy => map (fun xx =>
                      plane_vertex width height subdivisions_x subdivisions_y yy xx)
                      (range verts_x)) (range verts_y) in
        let is := flat_map (fun yy => flat_map (fun xx => plane_quad verts_x yy xx)
                      (range subdivisions_x)) (range subdivisions_y) in
        alloc_and_fill out hp (fun hp2 => fill_buffers vs is vertex_count index_count hp2)
  end.

(** ** Cube mesh, continued *)

(** [out] is the caller's [Candid_MeshData] ([None] for a null pointer). *)
Definition candid_mesh_create_cube (size : R) (out : option Candid_MeshData)
    (hp : Heap) : Outcome (Heap * option Candid_MeshData) :=
  match out with
  | None => Returned CANDID_ERROR_INVALID_ARGUMENT (hp, out)
  | Some _ =>
      let h := size * 0.5 in
      let vertex_count := 24%Z in
      let index_count := 36%Z in
      alloc_and_fill out hp (fun hp2 =>
        fill_buffers (cube_vertices h) cube_indices vertex_count index_count hp2)
  end.

(** ** Cylinder mesh (candid_mesh_create_cylinder) *)

Definition cyl_theta (segments s : Z) : R := 2 * PI * IZR s / IZR segments.

Definition cyl_side_vertex (radius half_h v_coord : R) (segments s : Z) : Candid_Vertex :=
  let cos_t := cos (cyl_theta segments s) in
  let sin_t := sin (cyl_theta segments s) in
  mkVertex (mkVec3 (radius * cos_t) half_h (radius * sin_t)) (mkVec3 cos_t 0 sin_t)
    vec4_zero (mkVec2 (IZR s / IZR segments) v_coord) vec2_zero color_white.

Definition cyl_center_vertex (half_h ny : R) : Candid_Vertex :=
  mkVertex (mkVec3 0 half_h 0) (mkVec3 0 ny 0) vec4_zero (mkVec2 0.5 0.5)
    vec2_zero color_white.

(** [top] selects the top cap ([0.5 + 0.5 sin]) or the bottom cap
    ([0.5 - 0.5 sin]) texture coordinate. *)
Definition cyl_cap_vertex (radius half_h ny : R) (top : bool) (segments s : Z)
    : Candid_Vertex :=
  let cos_t := cos (cyl_theta segments s) in
  let sin_t := sin (cyl_theta segments s) in
  mkVertex (mkVec3 (radius * cos_t) half_h (radius * sin_t)) (mkVec3 0 ny 0)
    vec4_zero
    (mkVec2 (0.5 + 0.5 * cos_t) (if top then 0.5 + 0.5 * sin_t else 0.5 - 0.5 * sin_t))
    vec2_zero color_white.

Definition cylinder_vertices (radius height : R) (segments : Z) : list Candid_Vertex :=
  let half_h := height * 0.5 in
  let ring := range (segments + 1) in
  map (cyl_side_vertex radius half_h 0 segments) ring ++
  map (cyl_side_vertex radius (- half_h) 1 segments) ring ++
  [cyl_center_vertex half_h 1] ++
  map (cyl_cap_vertex radius half_h 1 true segments) ring ++
  [cyl_center_vertex (- half_h) (-1)] ++
  map (cyl_cap_vertex radius (- half_h) (-1) false segments) ring.

(** [top_center], [top_ring_start], [bottom_center], [bottom_ring_start] are
    the values of the [uint32_t] counter [v] after the loops before them. *)
Definition cylinder_indices (segments : Z) : list Z :=
  let ring_verts := u32 (segments + 1) in
  let top_center := u32 (2 * (segments + 1)) in
  let top_ring_start := u32 (top_center + 1) in
  let bottom_center := u32 (top_ring_start + (segments + 1)) in
  let bottom_ring_start := u32 (bottom_center + 1) in
  flat_map (fun s =>
              let a := u16 s in
              let b := u16 (u32 (s + ring_verts)) in
              let c := u16 (u32 (s + 1)) in
              let d := u16 (u32 (s + ring_verts + 1)) in
              [a; b; c; c; b; d]) (range segments) ++
  flat_map (fun s => [u16 top_center; u16 (u32 (top_ring_start + s + 1));
                      u16 (u32 (top_ring_start + s))]) (range segments) ++
  flat_map (fun s => [u16 bottom_center; u16 (u32 (bottom_ring_start + s));
                      u16 (u32 (bottom_ring_start + s + 1))]) (range segments).

Definition candid_mesh_create_cylinder (radius height : R) (segments : Z)
    (out : option Candid_MeshData) (hp : Heap) : Outcome (Heap * option Candid_MeshData) :=
  match out with
  | None => Returned CANDID_ERROR_INVALID_ARGUMENT (hp, out)
  | Some _ =>
      if (segments <? 3)%Z
      then Returned CANDID_ERROR_INVALID_ARGUMENT (hp, out)
      else
        let ring_verts := u32 (segments + 1) in
        let vertex_count := u32 (ring_verts * 4 + 2) in
        let side_indices := u32 (segments * 6) in
        let cap_indices := u32 (segments * 3 * 2) in
        let index_count := u32 (side_indices + cap_indices) in
        alloc_and_fill out hp (fun hp2 =>
          fill_buffers (cylinder_vertices radius height segments)
                       (cylinder_indices segments) vertex_count index_count hp2)
  end.

(** ** Option sequencing, buffer writes and vector helpers *)

Notation "'let*' a := m 'in' k" :=
  (match m with Some a => k | None => None end)
  (at level 200, a name, m at level 100, k at level 200).

Fixpoint list_set {A : Type} (l : list A) (n : nat) (a : A) : list A :=
  match l, n with
  | [], _ => []
  | _ :: r, O => a :: r
  | b :: r, S k => b :: list_set r k a
  end.

(** [verts[i] = v]; outside the buffer the behaviour is undefined. *)
Definition write_vertex (vs : list Candid_Vertex) (i : Z) (v : Candid_Vertex)
    : option (list Candid_Vertex) :=
  if (0 <=? i)%Z && (i <? Z.of_nat (length vs))%Z
  then Some (list_set vs (Z.to_nat i) v) else None.

(** [idx[k]], for either index width; outside the buffer it is undefined. *)
Definition read_index (is : list Z) (k : Z) : option Z :=
  if (0 <=? k)%Z then nth_error is (Z.to_nat k) else None.

(** A loop over the values [l] whose body may hit undefined behaviour. *)
Fixpoint loop_opt {A : Type} (body : A -> Z -> option A) (l : list Z) (a : A) : option A :=
  match l with
  | [] => Some a
  | i :: r => let* a' := body a i in loop_opt body r a'
  end.

(** [for (i = 0; i < n; i += 3)] *)
Definition tri_starts (n : Z) : list Z := map (fun k => (3 * k)%Z) (range ((n + 2) / 3)).

Definition with_normal (v : Candid_Vertex) (n : Candid_Vec3) : Candid_Vertex :=
  mkVertex (position v) n (tangent v) (texcoord0 v) (texcoord1 v) (color v).

Definition with_tangent (v : Candid_Vertex) (t : Candid_Vec4) : Candid_Vertex :=
  mkVertex (position v) (normal v) t (texcoord0 v) (texcoord1 v) (color v).

Definition vadd (a b : Candid_Vec3) : Candid_Vec3 := mkVec3 (x a + x b) (y a + y b) (z a + z b).
Definition vsub (a b : Candid_Vec3) : Candid_Vec3 := mkVec3 (x a - x b) (y a - y b) (z a - z b).
Definition vscale (a : Candid_Vec3) (k : R) : Candid_Vec3 := mkVec3 (x a * k) (y a * k) (z a * k).
Definition vdiv (a : Candid_Vec3) (k : R) : Candid_Vec3 := mkVec3 (x a / k) (y a / k) (z a / k).
Definition dot3 (a b : Candid_Vec3) : R := x a * x b + y a * y b + z a * z b.
Definition cross3 (a b : Candid_Vec3) : Candid_Vec3 :=
  mkVec3 (y a * z b - z a * y b) (z a * x b - x a * z b) (x a * y b - y a * x b).

(** The float literal [1e-6f]. *)
Definition eps6 : R := 1 / 1000000.

(** ** Normals (candid_mesh_calculate_normals) *)

(** [verts[i].normal = f(verts[i].normal)] *)
Definition update_normal (f : Candid_Vec3 -> Candid_Vec3) (vs : list Candid_Vertex) (i : Z)
    : option (list Candid_Vertex) :=
  let* v := read_vertex vs i in write_vertex vs i (with_normal v (f (normal v))).

Definition reset_normal (vs : list Candid_Vertex) (i : Z) : option (list Candid_Vertex) :=
  update_normal (fun _ => vec3_zero) vs i.

(** One triangle of the accumulation loop, starting at index slot [i]. *)
Definition accumulate_face_normal (is : list Z) (vs : list Candid_Vertex) (i : Z)
    : option (list Candid_Vertex) :=
  let* i0 := read_index is i in
  let* i1 := read_index is (i + 1) in
  let* i2 := read_index is (i + 2) in
  let* v0 := read_vertex vs i0 in
  let* v1 := read_vertex vs i1 in
  let* v2 := read_vertex vs i2 in
  let p0 := position v0 in
  let p1 := position v1 in
  let p2 := position v2 in
  let e1 := vsub p1 p0 in
  let e2 := vsub p2 p0 in
  let n := cross3 e1 e2 in
  let* vs := update_normal (fun m => vadd m n) vs i0 in
  let* vs := update_normal (fun m => vadd m n) vs i1 in
  update_normal (fun m => vadd m n) vs i2.

Definition normalize_normal (vs : list Candid_Vertex) (i : Z) : option (list Candid_Vertex) :=
  let* v := read_vertex vs i in
  let n := normal v in
  let len := sqrt (x n * x n + y n * y n + z n * z n) in
  if Rlt_dec eps6 len then write_vertex vs i (with_normal v (vdiv n len)) else Some vs.

Definition normals_pass (d : Candid_MeshData) (vs : list Candid_Vertex) (is : list Z)
    : option (list Candid_Vertex) :=
  let* vs := loop_opt reset_normal (range (vertex_count d)) vs in
  let* vs := loop_opt (accumulate_face_normal is) (tri_starts (index_count d)) vs in
  loop_opt normalize_normal (range (vertex_count d)) vs.

Definition with_vertices (d : Candid_MeshData) (vs : list Candid_Vertex) : Candid_MeshData :=
  mkMeshData (Some vs) (vertex_count d) (vertex_stride d) (indices d) (index_count d)
    (index_format d) (layout d) (topology d).

(** The function writes through [data->vertices]; the result is the
    caller's struct with the updated vertex buffer. *)
Definition candid_mesh_calculate_normals (data : option Candid_MeshData)
    : Outcome (option Candid_MeshData) :=
  match data with
  | Some d =>
      match vertices d, indices d with
      | Some vs, Some is =>
          match normals_pass d vs is with
          | Some vs' => Returned CANDID_SUCCESS (Some (with_vertices d vs'))
          | None => Undefined
          end
      | _, _ => Returned CANDID_ERROR_INVALID_ARGUMENT data
      end
  | None => Returned CANDID_ERROR_INVALID_ARGUMENT data
  end.

(** A vertex with its normal cleared: every field the normal pass reads. *)
Definition strip (v : Candid_Vertex) : Candid_Vertex := with_normal v vec3_zero.

(** [w] differs from [vs] at most in the normals of the vertices below [V]. *)
Definition frame (V : Z) (vs w : list Candid_Vertex) : Prop :=
  (forall k, option_map strip (nth_error w k) = option_map strip (nth_error vs k)) /\
  (forall k, (V <= Z.of_nat k)%Z -> nth_error w k = nth_error vs k).

(** ** Tangents (candid_mesh_calculate_tangents) *)

(** [tan[i]] of an accumulator array; outside the array it is undefined. *)
Definition read_vec (ts : list Candid_Vec3) (i : Z) : option Candid_Vec3 :=
  if (0 <=? i)%Z then nth_error ts (Z.to_nat i) else None.

(** [tan[i].x += v.x; tan[i].y += v.y; tan[i].z += v.z;] *)
Definition add_at (ts : list Candid_Vec3) (i : Z) (v : Candid_Vec3)
    : option (list Candid_Vec3) :=
  let* t := read_vec ts i in Some (list_set ts (Z.to_nat i) (vadd t v)).

(** One triangle of the accumulation loop, starting at index slot [i].
    The texture-space differences [s1 t1 s2 t2] are bound before the
    position differences so that the local [x2] does not hide the field
    [x2] of [Candid_Vec2]; all of them are pure. *)
Definition accumulate_face_tangent (vs : list Candid_Vertex) (is : list Z)
    (acc : list Candid_Vec3 * list Candid_Vec3) (i : Z)
    : option (list Candid_Vec3 * list Candid_Vec3) :=
  let (tan1, tan2) := acc in
  let* i0 := read_index is i in
  let* i1 := read_index is (i + 1) in
  let* i2 := read_index is (i + 2) in
  let* v0 := read_vertex vs i0 in
  let* v1 := read_vertex vs i1 in
  let* v2 := read_vertex vs i2 in
  let p0 := position v0 in
  let p1 := position v1 in
  let p2 := position v2 in
  let uv0 := texcoord0 v0 in
  let uv1 := texcoord0 v1 in
  let uv2 := texcoord0 v2 in
  let s1 := x2 uv1 - x2 uv0 in
  let t1 := y2 uv1 - y2 uv0 in
  let s2 := x2 uv2 - x2 uv0 in
  let t2 := y2 uv2 - y2 uv0 in
  let x1 := x p1 - x p0 in
  let y1 := y p1 - y p0 in
  let z1 := z p1 - z p0 in
  let x2 := x p2 - x p0 in
  let y2 := y p2 - y p0 in
  let z2 := z p2 - z p0 in
  let r := s1 * t2 - s2 * t1 in
  let r := if Rlt_dec (Rabs r) eps6 then 1 else r in
  let r := 1 / r in
  let sdir := mkVec3 ((t2 * x1 - t1 * x2) * r) ((t2 * y1 - t1 * y2) * r)
                     ((t2 * z1 - t1 * z2) * r) in
  let tdir := mkVec3 ((s1 * x2 - s2 * x1) * r) ((s1 * y2 - s2 * y1) * r)
                     ((s1 * z2 - s2 * z1) * r) in
  let* tan1 := add_at tan1 i0 sdir in
  let* tan1 := add_at tan1 i1 sdir in
  let* tan1 := add_at tan1 i2 sdir in
  let* tan2 := add_at tan2 i0 tdir in
  let* tan2 := add_at tan2 i1 tdir in
  let* tan2 := add_at tan2 i2 tdir in
  Some (tan1, tan2).

(** The two [calloc]ed accumulators after the triangle loop. *)
Definition tangent_accumulators (d : Candid_MeshData) (vs : list Candid_Vertex)
    (is : list Z) : option (list Candid_Vec3 * list Candid_Vec3) :=
  let zeros := repeat vec3_zero (Z.to_nat (vertex_count d)) in
  loop_opt (accumulate_face_tangent vs is) (tri_starts (index_count d)) (zeros, zeros).

(** Gram-Schmidt and handedness for one vertex: normal [n], accumulated
    tangent [t], accumulated bitangent [b]. *)
Definition finalize_tangent (n t b : Candid_Vec3) : Candid_Vec4 :=
  let dot := x n * x t + y n * y t + z n * z t in
  let tangent := mkVec3 (x t - x n * dot) (y t - y n * dot) (z t - z n * dot) in
  let len := sqrt (x tangent * x tangent + y tangent * y tangent +
                   z tangent * z tangent) in
  let tangent := if Rlt_dec eps6 len
                 then mkVec3 (x tangent / len) (y tangent / len) (z tangent / len)
                 else tangent in
  let cross := mkVec3 (y n * z t - z n * y t) (z n * x t - x n * z t)
                      (x n * y t - y n * x t) in
  let w := if Rlt_dec (x cross * x b + y cross * y b + z cross * z b) 0
           then -1 else 1 in
  mkVec4 (x tangent) (y tangent) (z tangent) w.

Definition tangent_step (tan1 tan2 : list Candid_Vec3) (vs : list Candid_Vertex) (i : Z)
    : option (list Candid_Vertex) :=
  let* v := read_vertex vs i in
  let* t := read_vec tan1 i in
  let* b := read_vec tan2 i in
  write_vertex vs i (with_tangent v (finalize_tangent (normal v) t b)).

Definition candid_mesh_calculate_tangents (data : option Candid_MeshData) (hp : Heap)
    : Outcome (Heap * option Candid_MeshData) :=
  match data with
  | Some d =>
      match vertices d, indices d with
      | Some vs, Some is =>
          let (p1, hp1) := malloc_ hp in
          let (p2, hp2) := malloc_ hp1 in
          match p1, p2 with
          | Some _, Some _ =>
              match (let* acc := tangent_accumulators d vs is in
                     loop_opt (tangent_step (fst acc) (snd acc))
                              (range (vertex_count d)) vs) with
              | Some vs' =>
                  Returned CANDID_SUCCESS (free_ p2 (free_ p1 hp2), Some (with_vertices d vs'))
              | None => Undefined
              end
          | _, _ => Returned CANDID_ERROR_OUT_OF_MEMORY (free_ p2 (free_ p1 hp2), data)
          end
      | _, _ => Returned CANDID_ERROR_INVALID_ARGUMENT (hp, data)
      end
  | None => Returned CANDID_ERROR_INVALID_ARGUMENT (hp, data)
  end.

(** ** Backend registry (backend.c) *)

(** [Candid_Backend] values. *)
Definition CANDID_BACKEND_AUTO : N := 0.
Definition CANDID_BACKEND_METAL : N := 1.
Definition CANDID_BACKEND_VULKAN : N := 2.
Definition CANDID_BACKEND_D3D12 : N := 3.
Definition CANDID_BACKEND_WEBGPU : N := 4.
Definition CANDID_BACKEND_COUNT : N := 5.

(** The interface objects the registry can point to. *)
Inductive Candid_BackendInterface :=
| candid_metal_backend
| candid_vulkan_backend
| candid_d3d12_backend.

(** The preprocessor configuration: [__APPLE__], [CANDID_VULKAN_SUPPORT],
    [_WIN32]. *)
Record Platform := mkPlatform { apple : bool; vulkan_support : bool; win32 : bool }.

(** The file-scope statics [s_backends] and [s_initialized]. *)
Record Registry := mkRegistry {
  s_backends : list (option Candid_BackendInterface);
  s_initialized : bool }.

Definition registry0 : Registry := mkRegistry (repeat None 5) false.

(** [s_backends[i]] for [i < CANDID_BACKEND_COUNT]. *)
Definition slot (st : Registry) (i : N) : option Candid_BackendInterface :=
  nth (N.to_nat i) (s_backends st) None.

Definition is_set (p : option Candid_BackendInterface) : bool :=
  match p with Some _ => true | None => false end.

(** The D3D12 registration is commented out in the source. *)
Definition init_backends (pf : Platform) (st : Registry) : Registry :=
  if s_initialized st then st
  else
    let bs := s_backends st in
    let bs := if apple pf
              then list_set bs (N.to_nat CANDID_BACKEND_METAL) (Some candid_metal_backend)
              else bs in
    let bs := if vulkan_support pf
              then list_set bs (N.to_nat CANDID_BACKEND_VULKAN) (Some candid_vulkan_backend)
              else bs in
    mkRegistry bs true.

Definition candid_backend_get_preferred (pf : Platform) (st : Registry) : N * Registry :=
  let st := init_backends pf st in
  (if apple pf && is_set (slot st CANDID_BACKEND_METAL) then CANDID_BACKEND_METAL
   else if vulkan_support pf && is_set (slot st CANDID_BACKEND_VULKAN)
   then CANDID_BACKEND_VULKAN
   else if win32 pf && is_set (slot st CANDID_BACKEND_D3D12) then CANDID_BACKEND_D3D12
   else CANDID_BACKEND_AUTO, st).

Definition candid_backend_get (pf : Platform) (backend : N) (st : Registry)
    : option Candid_BackendInterface * Registry :=
  let st := init_backends pf st in
  let (backend, st) :=
    if (backend =? CANDID_BACKEND_AUTO)%N then candid_backend_get_preferred pf st
    else (backend, st) in
  if (CANDID_BACKEND_COUNT <=? backend)%N then (None, st) else (slot st backend, st).

Definition candid_backend_is_available (pf : Platform) (backend : N) (st : Registry)
    : bool * Registry :=
  let st := init_backends pf st in
  if (backend =? CANDID_BACKEND_AUTO)%N then
    let (p, st) := candid_backend_get_preferred pf st in
    (negb (p =? CANDID_BACKEND_AUTO)%N, st)
  else if (CANDID_BACKEND_COUNT <=? backend)%N then (false, st)
  else (is_set (slot st backend), st).

(** [for (i = 1; i < CANDID_BACKEND_COUNT && count < max_count; ++i)]
    over the remaining values [is] of [i]; [out] holds [out[0..count)]. *)
Fixpoint get_available_loop (st : Registry) (is : list N) (max_count count : N)
    (out : list N) : N * list N :=
  match is with
  | [] => (count, out)
  | i :: rest =>
      if (count <? max_count)%N then
        if is_set (slot st i)
        then get_available_loop st rest max_count (count + 1) (out ++ [i])
        else get_available_loop st rest max_count count out
      else (count, out)
  end.

(** With a null [out] nothing is written. *)
Definition candid_backend_get_available (pf : Platform) (out : bool) (max_count : N)
    (st : Registry) : N * list N * Registry :=
  let st := init_backends pf st in
  let (count, written) := get_available_loop st [1; 2; 3; 4]%N max_count 0 [] in
  (count, if out then written else [], st).

(** The registry states the program can be in: every entry point first
    runs [init_backends]. *)
Inductive reachable (pf : Platform) : Registry -> Prop :=
| reachable_start : reachable pf registry0
| reachable_init st : reachable pf st -> reachable pf (init_backends pf st).

(** ** Renderer (renderer.c) *)

(** [Candid_Mat4]: [float m[16]], column-major. *)
Record Candid_Mat4 := mkMat4 { m : list R }.

(** [Candid_Camera]. Its [position] field is [cam_position] here, the
    vertex field being already called [position]. *)
Record Candid_Camera := mkCamera {
  cam_position : Candid_Vec3;
  target : Candid_Vec3;
  up : Candid_Vec3;
  fov_y : R;
  near_plane : R;
  far_plane : R;
  aspect_ratio : R }.

(** [struct Candid_Renderer]; the device pointer is a handle. *)
Record Candid_Renderer := mkRenderer {
  backend_type : N;
  backend : option Candid_BackendInterface;
  device : option nat;
  clear_color : Candid_Color;
  view_matrix : Candid_Mat4;
  projection_matrix : Candid_Mat4;
  time : R;
  delta_time : R;
  frame_count : Z;
  width : Z;
  height : Z }.

(** The entries of [Candid_BackendInterface] the renderer calls. *)
Inductive BackendEntry :=
| device_destroy
| device_get_limits
| swapchain_resize (w h : Z)
| swapchain_present
| buffer_create | buffer_destroy
| texture_create | texture_destroy
| sampler_create | sampler_destroy
| shader_module_create | shader_module_destroy
| shader_program_create | shader_program_destroy
| mesh_create | mesh_destroy
| material_create | material_destroy.

(** A backend call and the device it was made on. *)
Definition BackendCall := (BackendEntry * option nat)%type.

(** The renderer a function is handed ([None] for a null pointer) and the
    backend calls made so far. *)
Record World := mkWorld { rend : option Candid_Renderer; calls : list BackendCall }.

(** What each backend entry returns. *)
Definition BackendResults := Candid_BackendInterface -> BackendEntry -> Candid_Result.

Definition set_size (r : Candid_Renderer) (w h : Z) : Candid_Renderer :=
  mkRenderer (backend_type r) (backend r) (device r) (clear_color r) (view_matrix r)
    (projection_matrix r) (time r) (delta_time r) (frame_count r) w h.

Definition set_frame_count (r : Candid_Renderer) (n : Z) : Candid_Renderer :=
  mkRenderer (backend_type r) (backend r) (device r) (clear_color r) (view_matrix r)
    (projection_matrix r) (time r) (delta_time r) n (width r) (height r).

Definition set_clear_color_field (r : Candid_Renderer) (c : Candid_Color) : Candid_Renderer :=
  mkRenderer (backend_type r) (backend r) (device r) c (view_matrix r)
    (projection_matrix r) (time r) (delta_time r) (frame_count r) (width r) (height r).

Definition set_matrices (r : Candid_Renderer) (v p : Candid_Mat4) : Candid_Renderer :=
  mkRenderer (backend_type r) (backend r) (device r) (clear_color r) v p
    (time r) (delta_time r) (frame_count r) (width r) (height r).

(** [renderer->backend->e(renderer->device, ...)]: the call is recorded and
    the backend's result returned; through a null backend pointer it is
    undefined. *)
Definition call_backend (br : BackendResults) (e : BackendEntry) (r : Candid_Renderer)
    (cs : list BackendCall) : Outcome World :=
  match backend r with
  | Some b => Returned (br b e) (mkWorld (Some r) (cs ++ [(e, device r)]))
  | None => Undefined
  end.

(** The same for an entry returning [void]. *)
Definition call_backend_void (e : BackendEntry) (r : Candid_Renderer)
    (cs : list BackendCall) : option World :=
  match backend r with
  | Some _ => Some (mkWorld (Some r) (cs ++ [(e, device r)]))
  | None => None
  end.

(** [free(renderer)] leaves no renderer behind. *)
Definition candid_renderer_destroy (w : World) : World :=
  match rend w with
  | None => w
  | Some r =>
      if is_set (backend r) && match device r with Some _ => true | None => false end
      then mkWorld None (calls w ++ [(device_destroy, device r)])
      else mkWorld None (calls w)
  end.

Definition candid_renderer_resize (br : BackendResults) (w : World) (width height : Z)
    : Outcome World :=
  match rend w with
  | None => Returned CANDID_ERROR_INVALID_ARGUMENT w
  | Some r => call_backend br (swapchain_resize width height) (set_size r width height) (calls w)
  end.

Definition candid_renderer_get_backend (w : World) : N :=
  match rend w with
  | None => CANDID_BACKEND_AUTO
  | Some r => backend_type r
  end.

(** [out] tells whether the output pointer is non-null. *)
Definition candid_renderer_get_limits (br : BackendResults) (w : World) (out : bool)
    : Outcome World :=
  match rend w with
  | Some r => if out then call_backend br device_get_limits r (calls w)
              else Returned CANDID_ERROR_INVALID_ARGUMENT w
  | None => Returned CANDID_ERROR_INVALID_ARGUMENT w
  end.

(** The [create_*] functions hand [desc] and [out] to the backend. *)
Definition create_through (br : BackendResults) (e : BackendEntry) (w : World) : Outcome World :=
  match rend w with
  | None => Returned CANDID_ERROR_INVALID_ARGUMENT w
  | Some r => call_backend br e r (calls w)
  end.

(** The [destroy_*] functions hand the object to the backend. *)
Definition destroy_through (e : BackendEntry) (w : World) : option World :=
  match rend w with
  | None => Some w
  | Some r => call_backend_void e r (calls w)
  end.

Definition candid_renderer_create_buffer (br : BackendResults) (w : World) :=
  create_through br buffer_create w.
Definition candid_renderer_destroy_buffer (w : World) := destroy_through buffer_destroy w.
Definition candid_renderer_create_texture (br : BackendResults) (w : World) :=
  create_through br texture_create w.
Definition candid_renderer_destroy_texture (w : World) := destroy_through texture_destroy w.
Definition candid_renderer_create_sampler (br : BackendResults) (w : World) :=
  create_through br sampler_create w.
Definition candid_renderer_destroy_sampler (w : World) := destroy_through sampler_destroy w.
Definition candid_renderer_create_shader_module (br : BackendResults) (w : World) :=
  create_through br shader_module_create w.
Definition candid_renderer_destroy_shader_module (w : World) :=
  destroy_through shader_module_destroy w.
Definition candid_renderer_create_shader_program (br : BackendResults) (w : World) :=
  create_through br shader_program_create w.
Definition candid_renderer_destroy_shader_program (w : World) :=
  destroy_through shader_program_destroy w.
Definition candid_renderer_create_mesh (br : BackendResults) (w : World) :=
  create_through br mesh_create w.
Definition candid_renderer_destroy_mesh (w : World) := destroy_through mesh_destroy w.
Definition candid_renderer_create_material (br : BackendResults) (w : World) :=
  create_through br material_create w.
Definition candid_renderer_destroy_material (w : World) := destroy_through material_destroy w.

(** The built-in shader library is not implemented: every argument is
    ignored. *)
Definition candid_renderer_get_builtin_shader (w : World) (shader : N) : Outcome World :=
  Returned CANDID_ERROR_RESOURCE_CREATION w.

Definition candid_renderer_begin_frame (w : World) : Outcome World :=
  match rend w with
  | None => Returned CANDID_ERROR_INVALID_ARGUMENT w
  | Some _ => Returned CANDID_SUCCESS w
  end.

(** [renderer->frame_count++] on a [uint64_t]. *)
Definition candid_renderer_end_frame (br : BackendResults) (w : World) : Outcome World :=
  match rend w with
  | None => Returned CANDID_ERROR_INVALID_ARGUMENT w
  | Some r =>
      call_backend br swapchain_present
        (set_frame_count r ((frame_count r + 1) mod 2 ^ 64)%Z) (calls w)
  end.

Definition candid_renderer_set_clear_color (w : World) (color : Candid_Color) : World :=
  match rend w with
  | None => w
  | Some r => mkWorld (Some (set_clear_color_field r color)) (calls w)
  end.

(** The viewport, scissor and draw functions ignore their arguments. *)
Definition candid_renderer_set_viewport (w : World) (x y width height : R) : World := w.

Definition candid_renderer_set_scissor (w : World) (x y width height : Z) : World := w.

Definition candid_renderer_draw_mesh (w : World) (mesh material : option nat)
    (transform : option Candid_Mat4) : World := w.

Definition candid_renderer_draw_submesh (w : World) (mesh : option nat) (submesh_index : Z)
    (material : option nat) (transform : option Candid_Mat4) : World := w.

Definition candid_renderer_draw_mesh_instanced (w : World) (mesh material : option nat)
    (transforms : option (list Candid_Mat4)) (instance_count : Z) : World := w.

(** [M.m[i] = v] for each assignment in turn. *)
Definition mat4_assign (M : list R) (es : list (nat * R)) : list R :=
  fold_left (fun M e => list_set M (fst e) (snd e)) es M.

(** [if (len > 0) { v.x /= len; ... }] with [len] the length of [v]. *)
Definition normalize_if_positive (v : Candid_Vec3) : Candid_Vec3 :=
  let len := sqrt (x v * x v + y v * y v + z v * z v) in
  if Rlt_dec 0 len then vdiv v len else v.

(** The [aspect] of [candid_renderer_set_camera]. *)
Definition camera_aspect (r : Candid_Renderer) (c : Candid_Camera) : R :=
  if Rle_dec (aspect_ratio c) 0 then
    if (0 <? width r)%Z && (0 <? height r)%Z then IZR (width r) / IZR (height r)
    else aspect_ratio c
  else aspect_ratio c.

(** The look-at view matrix, written over the old one. *)
Definition camera_view (c : Candid_Camera) (old : Candid_Mat4) : Candid_Mat4 :=
  let pos := cam_position c in
  let f := normalize_if_positive (vsub (target c) pos) in
  let s := normalize_if_positive (cross3 f (up c)) in
  let u := cross3 s f in
  mkMat4 (mat4_assign (m old)
    [(0%nat, x s); (1%nat, x u); (2%nat, - x f); (3%nat, 0);
     (4%nat, y s); (5%nat, y u); (6%nat, - y f); (7%nat, 0);
     (8%nat, z s); (9%nat, z u); (10%nat, - z f); (11%nat, 0);
     (12%nat, - (x s * x pos + y s * y pos + z s * z pos));
     (13%nat, - (x u * x pos + y u * y pos + z u * z pos));
     (14%nat, x f * x pos + y f * y pos + z f * z pos);
     (15%nat, 1)]).

(** The perspective matrix: [memset] to zero, then five entries. *)
Definition camera_projection (c : Candid_Camera) (aspect : R) : Candid_Mat4 :=
  let tan_half_fov := tan (fov_y c * 0.5) in
  let range := far_plane c - near_plane c in
  mkMat4 (mat4_assign (repeat 0 16)
    [(0%nat, 1 / (aspect * tan_half_fov));
     (5%nat, 1 / tan_half_fov);
     (10%nat, - (far_plane c + near_plane c) / range);
     (11%nat, -1);
     (14%nat, - (2 * far_plane c * near_plane c) / range)]).

Definition candid_renderer_set_camera (w : World) (camera : option Candid_Camera) : World :=
  match rend w, camera with
  | Some r, Some c =>
      let aspect := camera_aspect r c in
      mkWorld (Some (set_matrices r (camera_view c (view_matrix r))
                                    (camera_projection c aspect))) (calls w)
  | _, _ => w
  end.

Definition candid_renderer_set_view_projection (w : World)
    (view projection : option Candid_Mat4) : World :=
  match rend w with
  | None => w
  | Some r =>
      let v := match view with Some v => v | None => view_matrix r end in
      let p := match projection with Some p => p | None => projection_matrix r end in
      mkWorld (Some (set_matrices r v p)) (calls w)
  end.

Definition candid_renderer_get_time (w : World) : R :=
  match rend w with None => 0 | Some r => time r end.

Definition candid_renderer_get_delta_time (w : World) : R :=
  match rend w with None => 0 | Some r => delta_time r end.

Definition candid_renderer_get_frame_count (w : World) : Z :=
  match rend w with None => 0%Z | Some r => frame_count r end.

(** ** Test fixtures and predicates *)

(** The generated index buffer only names vertices of the mesh. *)
Definition indices_below_count (m : Candid_MeshData) : Prop :=
  exists is, indices m = Some is /\ Forall (fun i => (0 <= i < vertex_count m)%Z) is.

(** The caller's struct before the call; its contents are irrelevant. *)
Definition empty_mesh : Candid_MeshData :=
  mkMeshData None 0 0 None 0 CANDID_INDEX_FORMAT_UINT16 (mkLayout [] 0 [] 0)
    CANDID_PRIMITIVE_TRIANGLE_LIST.

(** A heap on which every allocation succeeds. *)
Definition heap0 : Heap := mkHeap [] 0 [].

(** A vertex at [p] with zero normal and tangent. *)
Definition tri_vertex (p : Candid_Vec3) : Candid_Vertex :=
  mkVertex p vec3_zero vec4_zero vec2_zero vec2_zero color_white.

(** [data->vertices[i]] as seen by the caller. *)
Definition mesh_vertex (d : Candid_MeshData) (i : nat) : option Candid_Vertex :=
  match vertices d with Some vs => nth_error vs i | None => None end.

(** One triangle over a three-vertex buffer, with [vertex_count = vc]. *)
Definition triangle_mesh (vc : Z) : Candid_MeshData :=
  mkMeshData (Some [tri_vertex (mkVec3 0 0 0); tri_vertex (mkVec3 1 0 0);
                    tri_vertex (mkVec3 0 1 0)])
    vc sizeof_Candid_Vertex (Some [0; 1; 2]%Z) 3 CANDID_INDEX_FORMAT_UINT16
    create_standard_layout CANDID_PRIMITIVE_TRIANGLE_LIST.

(** A vertex at [p] with texture coordinate [uv] and normal [(1,0,0)]. *)
Definition uv_vertex (p : Candid_Vec3) (uv : Candid_Vec2) : Candid_Vertex :=
  mkVertex p (mkVec3 1 0 0) vec4_zero uv vec2_zero color_white.

(** A right triangle in the plane [z = 0] with the matching texture
    coordinates, whose normals all point along [+x]. *)
Definition tangent_fixture_vertices : list Candid_Vertex :=
  [uv_vertex (mkVec3 0 0 0) (mkVec2 0 0); uv_vertex (mkVec3 1 0 0) (mkVec2 1 0);
   uv_vertex (mkVec3 0 1 0) (mkVec2 0 1)].

Definition tangent_fixture : Candid_MeshData :=
  mkMeshData (Some tangent_fixture_vertices) 3 sizeof_Candid_Vertex (Some [0; 1; 2]%Z) 3
    CANDID_INDEX_FORMAT_UINT16 create_standard_layout CANDID_PRIMITIVE_TRIANGLE_LIST.

(** The same triangle with its normals along [+z], perpendicular to it. *)
Definition tangent_fixture_z_vertices : list Candid_Vertex :=
  map (fun v => with_normal v (mkVec3 0 0 1)) tangent_fixture_vertices.

Definition tangent_fixture_z : Candid_MeshData :=
  mkMeshData (Some tangent_fixture_z_vertices) 3 sizeof_Candid_Vertex (Some [0; 1; 2]%Z) 3
    CANDID_INDEX_FORMAT_UINT16 create_standard_layout CANDID_PRIMITIVE_TRIANGLE_LIST.

(** A point cloud over the vertex buffer [vs], with [vertex_count = vc]. *)
Definition point_mesh (vs : list Candid_Vertex) (vc : Z) : Candid_MeshData :=
  mkMeshData (Some vs) vc sizeof_Candid_Vertex (Some []) 0 CANDID_INDEX_FORMAT_UINT16
    create_standard_layout CANDID_PRIMITIVE_POINT_LIST.

(** The caller's [Candid_AABB] before the call. *)
Definition aabb_zero : Candid_AABB := mkAABB vec3_zero vec3_zero.

(** The identity matrix [candid_renderer_create] starts from. *)
Definition mat4_identity : Candid_Mat4 :=
  mkMat4 [1; 0; 0; 0; 0; 1; 0; 0; 0; 0; 1; 0; 0; 0; 0; 1].

(** A renderer on an 800x600 surface, and the camera of the end-to-end
    scenario: at (0,0,5) looking at the origin, 60 degree vertical field of
    view, aspect left to the surface. *)
Definition renderer_800x600 : Candid_Renderer :=
  mkRenderer CANDID_BACKEND_VULKAN (Some candid_vulkan_backend) (Some 0%nat)
    (mkColor (2 / 10) (2 / 10) (2 / 10) 1) mat4_identity mat4_identity 0 0 0 800 600.

Definition scenario_camera : Candid_Camera :=
  mkCamera (mkVec3 0 0 5) vec3_zero (mkVec3 0 1 0) (PI / 3) (1 / 10) 100 0.

(** ** Renderer creation (candid_renderer_create) *)

(** [Candid_RendererConfig]; pointers are handles. Its fields carry a
    [cfg_] prefix where the renderer's own fields have the name. *)
Record Candid_RendererConfig := mkRendererConfig {
  cfg_backend : N;
  native_window : option nat;
  native_surface : option nat;
  cfg_width : Z;
  cfg_height : Z;
  vsync : bool;
  debug_mode : bool;
  max_frames_in_flight : Z;
  app_name : option nat }.

(** [Candid_DeviceDesc] (backend.h). *)
Record Candid_DeviceDesc := mkDeviceDesc {
  preferred_backend : N;
  desc_native_window : option nat;
  desc_native_surface : option nat;
  desc_width : Z;
  desc_height : Z;
  desc_vsync : bool;
  desc_debug_mode : bool;
  desc_app_name : option nat }.

(** [backend->device_create(&desc, &renderer->device)]: the result, and the
    device it stores. *)
Definition DeviceCreate := Candid_BackendInterface -> Candid_DeviceDesc -> Candid_Result * option nat.

(** What [candid_renderer_create] leaves: its result, what it stores in
    [*out] (the renderer's block and contents; [None] when [*out] is not
    written), the registry and the heap. *)
Record CreateOutcome := mkCreateOutcome {
  create_result : Candid_Result;
  created : option (nat * Candid_Renderer);
  registry_after : Registry;
  heap_after : Heap }.

(** [memset] to zero, then ones on the diagonal. *)
Definition mat4_memset_identity : Candid_Mat4 :=
  mkMat4 (mat4_assign (repeat 0 16) [(0%nat, 1); (5%nat, 1); (10%nat, 1); (15%nat, 1)]).

(** [config] and [out] tell whether the pointers are non-null. *)
Definition candid_renderer_create (pf : Platform) (device_create : DeviceCreate)
    (config : option Candid_RendererConfig) (out : bool) (st : Registry) (hp : Heap)
    : CreateOutcome :=
  match config with
  | Some cfg =>
      if out then
        let (p, hp) := malloc_ hp in
        match p with
        | None => mkCreateOutcome CANDID_ERROR_OUT_OF_MEMORY None st hp
        | Some blk =>
            let (backend0, st) :=
              if (cfg_backend cfg =? CANDID_BACKEND_AUTO)%N
              then candid_backend_get_preferred pf st else (cfg_backend cfg, st) in
            let (bi, st) := candid_backend_get pf backend0 st in
            match bi with
            | None =>
                mkCreateOutcome CANDID_ERROR_BACKEND_NOT_SUPPORTED None st (free_ (Some blk) hp)
            | Some b =>
                let desc := mkDeviceDesc backend0 (native_window cfg) (native_surface cfg)
                              (cfg_width cfg) (cfg_height cfg) (vsync cfg) (debug_mode cfg)
                              (app_name cfg) in
                let (result, dev) := device_create b desc in
                match result with
                | CANDID_SUCCESS =>
                    mkCreateOutcome CANDID_SUCCESS
                      (Some (blk, mkRenderer backend0 (Some b) dev
                                    (mkColor (2 / 10) (2 / 10) (2 / 10) 1)
                                    mat4_memset_identity mat4_memset_identity
                                    0 0 0 (cfg_width cfg) (cfg_height cfg)))
                      st hp
                | _ => mkCreateOutcome result None st (free_ (Some blk) hp)
                end
            end
        end
      else mkCreateOutcome CANDID_ERROR_INVALID_ARGUMENT None st hp
  | None => mkCreateOutcome CANDID_ERROR_INVALID_ARGUMENT None st hp
  end.

(** ** The Vulkan backend's entries (backend_vulkan.c) *)

(** What the Vulkan backend's entries return, given the device pointer the
    renderer passes (and a non-null [out]). The [void] entries return
    nothing; they are given [Success] here, which nothing reads. *)
Definition vulkan_result (e : BackendEntry) (device : option nat) : Candid_Result :=
  match e with
  | device_get_limits | swapchain_resize _ _ =>
      match device with Some _ => CANDID_SUCCESS | None => CANDID_ERROR_INVALID_ARGUMENT end
  | swapchain_present => CANDID_SUCCESS
  | buffer_create | texture_create | sampler_create | shader_module_create
  | shader_program_create | mesh_create | material_create => CANDID_ERROR_RESOURCE_CREATION
  | device_destroy | buffer_destroy | texture_destroy | sampler_destroy
  | shader_module_destroy | shader_program_destroy | mesh_destroy | material_destroy =>
      CANDID_SUCCESS
  end.

(** ** The sandbox's render loop (apps/sandbox/src/main.c) *)

(** One iteration of the loop in a frame with no window event:
    [begin_frame], [draw_mesh] with the frame's model transform and a null
    material, [end_frame]; the results are not looked at. *)
Definition sandbox_frame (br : BackendResults) (mesh : option nat) (transform : Candid_Mat4)
    (w : World) : option World :=
  match candid_renderer_begin_frame w with
  | Returned _ w1 =>
      let w2 := candid_renderer_draw_mesh w1 mesh None (Some transform) in
      match candid_renderer_end_frame br w2 with
      | Returned _ w3 => Some w3
      | Undefined => None
      end
  | Undefined => None
  end.

(** The loop over the transforms of successive frames. *)
Fixpoint sandbox_frames (br : BackendResults) (mesh : option nat)
    (transforms : list Candid_Mat4) (w : World) : option World :=
  match transforms with
  | [] => Some w
  | t :: ts => let* w' := sandbox_frame br mesh t w in sandbox_frames br mesh ts w'
  end.

(** ** Points through a column-major matrix *)

(** [M * (p, 1)] with [M] stored column-major, as [Candid_Mat4] is. *)
Definition mat4_transform_point (M : Candid_Mat4) (p : Candid_Vec3) : Candid_Vec4 :=
  let e k := nth k (m M) 0 in
  mkVec4 (e 0%nat * x p + e 4%nat * y p + e 8%nat * z p + e 12%nat)
         (e 1%nat * x p + e 5%nat * y p + e 9%nat * z p + e 13%nat)
         (e 2%nat * x p + e 6%nat * y p + e 10%nat * z p + e 14%nat)
         (e 3%nat * x p + e 7%nat * y p + e 11%nat * z p + e 15%nat).

(** ** Legacy cube (Candid_CreateCubeMesh in renderer.c) *)

(** [Candid_3D_Mesh]: three coordinate arrays and three triangle-corner
    arrays, each a block and its contents, or [None] for [NULL]. *)
Record Candid_3D_Mesh := mk3DMesh {
  mesh_vertices : list (option (nat * list R));
  mesh_vertex_count : Z;
  triangle_vertex : list (option (nat * list Z));
  triangle_count : Z }.

(** The values the assignments store in [vx], [vy], [vz], [t0], [t1], [t2]. *)
Definition legacy_vx (half : R) : list R := [-half; half; half; -half; -half; half; half; -half].
Definition legacy_vy (half : R) : list R := [-half; -half; half; half; -half; -half; half; half].
Definition legacy_vz (half : R) : list R := [-half; -half; -half; -half; half; half; half; half].
Definition legacy_t0 : list Z := [4; 4; 0; 0; 1; 1; 0; 0; 3; 3; 0; 0]%Z.
Definition legacy_t1 : list Z := [5; 6; 3; 2; 2; 6; 4; 7; 7; 6; 1; 5]%Z.
Definition legacy_t2 : list Z := [6; 7; 2; 1; 6; 5; 7; 3; 6; 2; 5; 4]%Z.

(** The mesh is returned by value; [fail] frees all six pointers
    ([free(NULL)] does nothing) and returns the mesh with null arrays. *)
Definition Candid_CreateCubeMesh (size : R) (hp : Heap) : Heap * Candid_3D_Mesh :=
  let vertex_count := 8%Z in
  let triangle_count := 12%Z in
  let half := size / 2 in
  let (vx, hp) := malloc_ hp in
  let (vy, hp) := malloc_ hp in
  let (vz, hp) := malloc_ hp in
  let fail t0 t1 t2 hp :=
    (free_ t2 (free_ t1 (free_ t0 (free_ vz (free_ vy (free_ vx hp))))),
     mk3DMesh [None; None; None] vertex_count [None; None; None] triangle_count) in
  match vx, vy, vz with
  | Some bx, Some by_, Some bz =>
      let (t0, hp) := malloc_ hp in
      let (t1, hp) := malloc_ hp in
      let (t2, hp) := malloc_ hp in
      match t0, t1, t2 with
      | Some a, Some b, Some c =>
          (hp, mk3DMesh [Some (bx, legacy_vx half); Some (by_, legacy_vy half);
                         Some (bz, legacy_vz half)] vertex_count
                        [Some (a, legacy_t0); Some (b, legacy_t1); Some (c, legacy_t2)]
                        triangle_count)
      | _, _, _ => fail t0 t1 t2 hp
      end
  | _, _, _ => fail None None None hp
  end.

(** [vertices[c][t[k]]] for the corner array [t] of triangle [k]. *)
Definition legacy_corner (xs ys zs : list R) (ts : list Z) (k : nat) : Candid_Vec3 :=
  let i := Z.to_nat (nth k ts 0%Z) in mkVec3 (nth i xs 0) (nth i ys 0) (nth i zs 0).

(** A device creation that succeeds with device handle [0]. *)
Definition device_create_ok : DeviceCreate := fun _ _ => (CANDID_SUCCESS, Some 0%nat).

(** A device creation that fails. *)
Definition device_create_fail : DeviceCreate :=
  fun _ _ => (CANDID_ERROR_RESOURCE_CREATION, None).

(** The sandbox's configuration: [AUTO] backend, an 800x600 surface, vsync,
    two frames in flight. *)
Definition sandbox_config : Candid_RendererConfig :=
  mkRendererConfig CANDID_BACKEND_AUTO None (Some 1%nat) 800 600 true false 2 (Some 2%nat).

(** Backend entries that all succeed. *)
Definition backend_all_ok : BackendResults := fun _ _ => CANDID_SUCCESS.

(** ** Lemmas on the bounding-box scan *)

Lemma Rlt_dec_min (a b : R) : (if Rlt_dec b a then b else a) = Rmin a b.
Proof.
  destruct (Rlt_dec b a).
  - rewrite Rmin_right; lra.
  - rewrite Rmin_left; lra.
Qed.

Lemma Rlt_dec_max (a b : R) : (if Rlt_dec a b then b else a) = Rmax a b.
Proof.
  destruct (Rlt_dec a b).
  - rewrite Rmax_right; lra.
  - rewrite Rmax_left; lra.
Qed.

(** The scan computes componentwise [Rmin]/[Rmax] folds. *)
Lemma fold_aabb_step (ps : list Candid_Vec3) (box : Candid_AABB) :
  fold_left aabb_step ps box =
  mkAABB (mkVec3 (fold_left Rmin (map x ps) (x (aabb_min box)))
                 (fold_left Rmin (map y ps) (y (aabb_min box)))
                 (fold_left Rmin (map z ps) (z (aabb_min box))))
         (mkVec3 (fold_left Rmax (map x ps) (x (aabb_max box)))
                 (fold_left Rmax (map y ps) (y (aabb_max box)))
                 (fold_left Rmax (map z ps) (z (aabb_max box)))).
Proof.
  revert box; induction ps as [|p ps IH]; intros box.
  - destruct box as [[] []]; reflexivity.
  - simpl. rewrite IH. unfold aabb_step; simpl.
    rewrite !Rlt_dec_min, !Rlt_dec_max. reflexivity.
Qed.

Lemma fold_Rmin_attained (l : list R) (a m : R) :
  (forall e, In e (a :: l) -> m <= e) -> In m (a :: l) -> fold_left Rmin l a = m.
Proof.
  revert a; induction l as [|b l IH]; intros a Hb Hin; simpl.
  - destruct Hin as [->|[]]; reflexivity.
  - apply IH.
    + intros e [<-|He].
      * apply Rmin_glb; apply Hb; simpl; tauto.
      * apply Hb; simpl; tauto.
    + destruct Hin as [<-|[<-|Hin]].
      * left. apply Rmin_left. apply Hb; simpl; tauto.
      * left. apply Rmin_right. apply Hb; simpl; tauto.
      * right; exact Hin.
Qed.

Lemma fold_Rmax_attained (l : list R) (a m : R) :
  (forall e, In e (a :: l) -> e <= m) -> In m (a :: l) -> fold_left Rmax l a = m.
Proof.
  revert a; induction l as [|b l IH]; intros a Hb Hin; simpl.
  - destruct Hin as [->|[]]; reflexivity.
  - apply IH.
    + intros e [<-|He].
      * apply Rmax_lub; apply Hb; simpl; tauto.
      * apply Hb; simpl; tauto.
    + destruct Hin as [<-|[<-|Hin]].
      * left. apply Rmax_left. apply Hb; simpl; tauto.
      * left. apply Rmax_right. apply Hb; simpl; tauto.
      * right; exact Hin.
Qed.

(** Reading the vertices [start .. start+len-1] of the buffer in order. *)
Lemma aabb_loop_seq (vs : list Candid_Vertex) (start len : nat) (box : Candid_AABB) :
  (start + len <= length vs)%nat ->
  aabb_loop vs box (map Z.of_nat (seq start len)) =
  Some (fold_left aabb_step (map position (firstn len (skipn start vs))) box).
Proof.
  revert start box; induction len as [|len IH]; intros start box Hlen.
  - reflexivity.
  - simpl. unfold read_vertex.
    replace (0 <=? Z.of_nat start)%Z with true by (symmetry; apply Z.leb_le; lia).
    rewrite Nat2Z.id.
    destruct (nth_error vs start) as [v|] eqn:Hv.
    2:{ apply nth_error_None in Hv; lia. }
    rewrite IH by lia.
    assert (Hs : skipn start vs = v :: skipn (S start) vs).
    { clear IH Hlen. revert start Hv; induction vs as [|u vs IHvs]; intros [|k] Hv;
        simpl in *; try discriminate.
      - injection Hv as ->; reflexivity.
      - apply IHvs; exact Hv. }
    rewrite Hs. reflexivity.
Qed.

Lemma range_from1_seq (n : Z) :
  range_from1 n = map Z.of_nat (seq 1 (Z.to_nat (n - 1))).
Proof.
  unfold range_from1, range. rewrite map_map.
  rewrite <- seq_shift, map_map. apply map_ext. intros k. lia.
Qed.

Ltac alloc_cases hp :=
  destruct hp as [?l ?f [|[|] [|[|] ?o]]]; simpl; try discriminate.

(** ** Claim C1: the cube *)

Lemma cube_normals_axis (h : R) :
  Forall (fun v => In (normal v) axis_units) (cube_vertices h).
Proof.
  apply Forall_forall. intros v Hv.
  change axis_units with (map fst (cube_faces h)).
  unfold cube_vertices in Hv. apply in_flat_map in Hv as [f [Hf Hv]].
  apply in_map_iff in Hv as [[p uv] [<- _]].
  cbn [normal cube_vertex]. apply in_map. exact Hf.
Qed.

Lemma cube_aabb (h : R) (a0 : Candid_AABB) (o : Candid_MeshData) :
  0 < h -> vertices o = Some (cube_vertices h) -> vertex_count o = 24%Z ->
  candid_mesh_calculate_aabb (Some o) (Some a0) =
  Returned CANDID_SUCCESS
    (Some (mkAABB (mkVec3 (-h) (-h) (-h)) (mkVec3 h h h))).
Proof.
  intros Hh Hv Hc. unfold candid_mesh_calculate_aabb. rewrite Hv, Hc.
  assert (Hr : read_vertex (cube_vertices h) 0 =
    Some (cube_vertex (mkVec3 0 0 1) (mkVec3 (-h) (-h) h) (mkVec2 0 1)))
    by reflexivity.
  rewrite Hr, range_from1_seq, aabb_loop_seq by (simpl; lia).
  rewrite fold_aabb_step. cbn -[fold_left].
  f_equal; f_equal; f_equal; f_equal;
    first [ apply fold_Rmin_attained | apply fold_Rmax_attained ];
    simpl; try (intros e He; repeat destruct He as [He|He]; subst; lra);
    repeat (first [left; reflexivity | right]).
Qed.

(** Claim C1. For every [size > 0] and non-null output, [create_cube]
    (with both allocations succeeding) returns [Success] with 24 vertices
    and 36 indices in 16-bit format, every normal one of the six
    axis-aligned unit vectors, and [calculate_aabb] of the result is the box
    [[-size/2, size/2]] in each coordinate. *)
Theorem create_cube_spec (size : R) (o : Candid_MeshData) (hp : Heap)
    (a0 : Candid_AABB) :
  0 < size -> allocs_succeed 2 hp = true ->
  exists hp' m vs is,
    candid_mesh_create_cube size (Some o) hp = Returned CANDID_SUCCESS (hp', Some m) /\
    vertices m = Some vs /\ indices m = Some is /\
    vertex_count m = 24%Z /\ length vs = 24%nat /\
    index_count m = 36%Z /\ length is = 36%nat /\
    index_format m = CANDID_INDEX_FORMAT_UINT16 /\
    Forall (fun v => In (normal v) axis_units) vs /\
    candid_mesh_calculate_aabb (Some m) (Some a0) =
    Returned CANDID_SUCCESS
      (Some (mkAABB (mkVec3 (-(size / 2)) (-(size / 2)) (-(size / 2)))
                    (mkVec3 (size / 2) (size / 2) (size / 2)))).
Proof.
  intros Hs Ha. unfold candid_mesh_create_cube.
  alloc_cases hp; eexists _, _, _, _; (split; [reflexivity|]);
    (do 7 (split; [reflexivity|])); (split; [apply cube_normals_axis|]);
    replace (size / 2) with (size * 0.5) by lra;
    apply cube_aabb; (reflexivity || lra).
Qed.


(** ** Machine-integer and list lemmas *)

Lemma u32_bounds (n : Z) : (0 <= n)%Z -> (0 <= u32 n <= n)%Z /\ (u32 n < 2 ^ 32)%Z.
Proof.
  intros Hn. unfold u32.
  pose proof (Z.mod_pos_bound n (2 ^ 32)) as Hb.
  pose proof (Z.mod_le n (2 ^ 32)) as Hl. lia.
Qed.

Lemma u16_bounds (n : Z) : (0 <= n)%Z -> (0 <= u16 n <= n)%Z.
Proof.
  intros Hn. unfold u16.
  pose proof (Z.mod_pos_bound n (2 ^ 16)) as Hb.
  pose proof (Z.mod_le n (2 ^ 16)) as Hl. lia.
Qed.

Lemma u32_lt (n : Z) : (u32 n < 2 ^ 32)%Z.
Proof. unfold u32. apply Z.mod_pos_bound. lia. Qed.

Lemma u32_small (n : Z) : (0 <= n < 2 ^ 32)%Z -> u32 n = n.
Proof. intros Hn. unfold u32. apply Z.mod_small. exact Hn. Qed.

Lemma in_range (n k : Z) : In k (range n) -> (0 <= k < n)%Z.
Proof.
  unfold range. intros Hk. apply in_map_iff in Hk as [j [<- Hj]].
  apply in_seq in Hj. lia.
Qed.

Lemma length_range (n : Z) : length (range n) = Z.to_nat n.
Proof. unfold range. rewrite length_map, length_seq. reflexivity. Qed.

Lemma length_flat_map_const {A B : Type} (f : A -> list B) (l : list A) (k : nat) :
  (forall a, In a l -> length (f a) = k) -> length (flat_map f l) = (length l * k)%nat.
Proof.
  induction l as [|a l IH]; intros Hf; simpl; [reflexivity|].
  rewrite length_app, (Hf a), IH; [reflexivity| |left; reflexivity].
  intros b Hb. apply Hf. right. exact Hb.
Qed.

(** ** Lemmas on the heap *)

Lemma remove_fresh (h : Heap) :
  heap_wf h -> remove Nat.eq_dec (fresh h) (fresh h :: live h) = live h.
Proof.
  intros Hwf. simpl. destruct (Nat.eq_dec (fresh h) (fresh h)) as [_|[]]; [|reflexivity].
  apply notin_remove. intros Hin. apply Hwf in Hin. lia.
Qed.

(** When one of the two allocations fails, everything allocated is freed
    and the caller's [out] is returned untouched. *)
Lemma alloc_and_fill_oom (out : option Candid_MeshData) (hp : Heap) k :
  heap_wf hp -> allocs_succeed 2 hp = false ->
  exists hp', alloc_and_fill out hp k = Returned CANDID_ERROR_OUT_OF_MEMORY (hp', out) /\
              live hp' = live hp.
Proof.
  intros Hwf Ha. unfold alloc_and_fill, malloc_.
  destruct hp as [l f o]; simpl in *.
  destruct o as [|[|] [|[|] o]]; simpl in Ha; try discriminate;
    eexists; (split; [reflexivity|]);
    first [reflexivity | exact (remove_fresh (mkHeap l f o) Hwf)
          | exact (remove_fresh (mkHeap l f (false :: o)) Hwf)
          | exact (remove_fresh (mkHeap l f []) Hwf)].
Qed.

Lemma alloc_and_fill_success (out : option Candid_MeshData) (hp : Heap) k r :
  alloc_and_fill out hp k = Returned CANDID_SUCCESS r ->
  exists hp2, k hp2 = Returned CANDID_SUCCESS r.
Proof.
  unfold alloc_and_fill. destruct (malloc_ hp) as [[]], (malloc_ _) as [[]];
    intros H; try discriminate; eauto.
Qed.

Lemma alloc_and_fill_ok (out : option Candid_MeshData) (hp : Heap) k :
  allocs_succeed 2 hp = true -> exists hp2, alloc_and_fill out hp k = k hp2.
Proof.
  intros Ha. unfold alloc_and_fill, malloc_.
  destruct hp as [l f o]; simpl in *.
  destruct o as [|[|] [|[|] o]]; simpl in Ha; try discriminate; eexists; reflexivity.
Qed.

Lemma fill_buffers_success vs is vc ic hp hp' m :
  fill_buffers vs is vc ic hp = Returned CANDID_SUCCESS (hp', m) ->
  exists d, m = Some d /\ vertices d = Some vs /\ indices d = Some is /\
            vertex_count d = vc /\ index_count d = ic /\
            (Z.of_nat (length vs) <= vc)%Z /\ (Z.of_nat (length is) <= ic)%Z.
Proof.
  unfold fill_buffers.
  destruct (Z.of_nat (length vs) <=? vc)%Z eqn:E1,
           (Z.of_nat (length is) <=? ic)%Z eqn:E2; simpl; intros H; try discriminate.
  injection H as <- <-. apply Z.leb_le in E1, E2. eexists; repeat split; eauto.
Qed.

(** ** Claim C8: allocation-failure atomicity *)

(** Claim C8. For each primitive generator (cube, sphere, plane, cylinder),
    called with a non-null output and valid arguments, when one of its two
    allocations fails it returns [OutOfMemory], the set of live heap blocks
    is the one before the call (everything it allocated was freed), and the
    caller's output struct is unchanged. *)
Theorem generators_oom_atomic (hp : Heap) (o : Candid_MeshData) :
  heap_wf hp -> allocs_succeed 2 hp = false ->
  (forall size, exists hp',
      candid_mesh_create_cube size (Some o) hp =
        Returned CANDID_ERROR_OUT_OF_MEMORY (hp', Some o) /\ live hp' = live hp) /\
  (forall radius segments rings, (3 <= segments)%Z -> (2 <= rings)%Z -> exists hp',
      candid_mesh_create_sphere radius segments rings (Some o) hp =
        Returned CANDID_ERROR_OUT_OF_MEMORY (hp', Some o) /\ live hp' = live hp) /\
  (forall width height sx sy, (1 <= sx)%Z -> (1 <= sy)%Z -> exists hp',
      candid_mesh_create_plane width height sx sy (Some o) hp =
        Returned CANDID_ERROR_OUT_OF_MEMORY (hp', Some o) /\ live hp' = live hp) /\
  (forall radius height segments, (3 <= segments)%Z -> exists hp',
      candid_mesh_create_cylinder radius height segments (Some o) hp =
        Returned CANDID_ERROR_OUT_OF_MEMORY (hp', Some o) /\ live hp' = live hp).
Proof.
  intros Hwf Ha. repeat split; intros.
  - apply alloc_and_fill_oom; assumption.
  - unfold candid_mesh_create_sphere.
    replace ((segments <? 3)%Z || (rings <? 2)%Z) with false
      by (symmetry; apply orb_false_iff; split; apply Z.ltb_ge; lia).
    apply alloc_and_fill_oom; assumption.
  - unfold candid_mesh_create_plane.
    replace ((sx <? 1)%Z || (sy <? 1)%Z) with false
      by (symmetry; apply orb_false_iff; split; apply Z.ltb_ge; lia).
    apply alloc_and_fill_oom; assumption.
  - unfold candid_mesh_create_cylinder.
    replace (segments <? 3)%Z with false by (symmetry; apply Z.ltb_ge; lia).
    apply alloc_and_fill_oom; assumption.
Qed.

(** ** Sizes of the generated buffers *)

Lemma length_grid {A : Type} (f : Z -> Z -> A) (n m : Z) :
  (0 <= n)%Z -> (0 <= m)%Z ->
  Z.of_nat (length (flat_map (fun i => map (f i) (range m)) (range n))) = (n * m)%Z.
Proof.
  intros Hn Hm.
  rewrite (length_flat_map_const _ _ (Z.to_nat m)).
  - rewrite length_range, Nat2Z.inj_mul, !Z2Nat.id by lia. reflexivity.
  - intros a _. rewrite length_map, length_range. reflexivity.
Qed.

Lemma length_grid6 (f : Z -> Z -> list Z) (n m : Z) :
  (forall i j, length (f i j) = 6%nat) -> (0 <= n)%Z -> (0 <= m)%Z ->
  Z.of_nat (length (flat_map (fun i => flat_map (f i) (range m)) (range n))) =
  (n * m * 6)%Z.
Proof.
  intros Hf Hn Hm.
  rewrite (length_flat_map_const _ _ (Z.to_nat m * 6)).
  - rewrite length_range, !Nat2Z.inj_mul, !Z2Nat.id by lia. lia.
  - intros a _. rewrite (length_flat_map_const _ _ 6), length_range.
    + reflexivity.
    + intros b _. apply Hf.
Qed.

Lemma sphere_vertices_length (radius : R) (segments rings : Z) :
  (0 <= segments)%Z -> (0 <= rings)%Z ->
  Z.of_nat (length (sphere_vertices radius segments rings)) =
  ((segments + 1) * (rings + 1))%Z.
Proof.
  intros Hs Hr. unfold sphere_vertices.
  rewrite (length_grid (fun ring seg => sphere_vertex radius segments rings ring seg))
    by lia.
  lia.
Qed.

Lemma sphere_indices_length (segments rings : Z) :
  (0 <= segments)%Z -> (0 <= rings)%Z ->
  Z.of_nat (length (sphere_indices segments rings)) = (segments * rings * 6)%Z.
Proof.
  intros Hs Hr. unfold sphere_indices.
  rewrite (length_grid6 (fun ring seg => sphere_quad segments ring seg)) by
    (reflexivity || lia).
  lia.
Qed.

Lemma cylinder_vertices_length (radius height : R) (segments : Z) :
  (0 <= segments)%Z ->
  Z.of_nat (length (cylinder_vertices radius height segments)) =
  ((segments + 1) * 4 + 2)%Z.
Proof.
  intros Hs. unfold cylinder_vertices.
  rewrite !length_app, !length_map. simpl length. rewrite !length_range. lia.
Qed.

Lemma cylinder_indices_length (segments : Z) :
  (0 <= segments)%Z ->
  Z.of_nat (length (cylinder_indices segments)) = (segments * 6 + segments * 3 * 2)%Z.
Proof.
  intros Hs. unfold cylinder_indices.
  rewrite !length_app.
  rewrite (length_flat_map_const _ _ 6), (length_flat_map_const _ _ 3),
          (length_flat_map_const _ _ 3) by reflexivity.
  rewrite length_range. lia.
Qed.

(** ** Index bounds *)

Lemma wrap_le (n : Z) : (0 <= n)%Z -> (0 <= u16 (u32 n) <= n)%Z.
Proof.
  intros Hn. destruct (u32_bounds n Hn) as [H1 _].
  pose proof (u16_bounds (u32 n) (proj1 H1)). lia.
Qed.

Ltac wrap_bound t :=
  match t with
  | u16 (u32 ?n) => pose proof (wrap_le n ltac:(lia))
  | u16 ?n => pose proof (u16_bounds n ltac:(lia))
  | u32 ?n => pose proof (proj1 (u32_bounds n ltac:(lia)))
  end.

Lemma sphere_quad_bound (segments rings ring seg i : Z) :
  (0 <= ring < rings)%Z -> (0 <= seg < segments)%Z ->
  In i (sphere_quad segments ring seg) ->
  (0 <= i < (segments + 1) * (rings + 1))%Z.
Proof.
  intros Hr Hs Hi. unfold sphere_quad in Hi.
  set (a := u16 (u32 (ring * (segments + 1) + seg))) in *.
  assert (Ha : (0 <= a <= ring * (segments + 1) + seg)%Z) by (subst a; apply wrap_le; nia).
  set (b := u16 (u32 (a + segments + 1))) in *.
  assert (Hb : (0 <= b <= a + segments + 1)%Z) by (subst b; apply wrap_le; lia).
  pose proof (u16_bounds (a + 1) ltac:(lia)).
  pose proof (u16_bounds (b + 1) ltac:(lia)).
  simpl in Hi. intuition (subst; nia).
Qed.

Lemma plane_quad_bound (sx sy yy xx i : Z) :
  (0 <= yy < sy)%Z -> (0 <= xx < sx)%Z ->
  In i (plane_quad (sx + 1) yy xx) -> (0 <= i < (sy + 1) * (sx + 1))%Z.
Proof.
  intros Hy Hx Hi. unfold plane_quad in Hi.
  set (a := u16 (u32 (yy * (sx + 1) + xx))) in *.
  assert (Ha : (0 <= a <= yy * (sx + 1) + xx)%Z) by (subst a; apply wrap_le; nia).
  set (b := u16 (u32 (a + (sx + 1)))) in *.
  assert (Hb : (0 <= b <= a + (sx + 1))%Z) by (subst b; apply wrap_le; lia).
  pose proof (u16_bounds (a + 1) ltac:(lia)).
  pose proof (u16_bounds (b + 1) ltac:(lia)).
  simpl in Hi. intuition (subst; nia).
Qed.

Lemma cylinder_index_bound (segments i : Z) :
  (0 <= segments)%Z -> In i (cylinder_indices segments) ->
  (0 <= i < (segments + 1) * 4 + 2)%Z.
Proof.
  intros Hs Hi. unfold cylinder_indices in Hi.
  set (rv := u32 (segments + 1)) in *.
  assert (0 <= rv <= segments + 1)%Z by (apply u32_bounds; lia).
  set (tc := u32 (2 * (segments + 1))) in *.
  assert (0 <= tc <= 2 * (segments + 1))%Z by (apply u32_bounds; lia).
  set (trs := u32 (tc + 1)) in *.
  assert (0 <= trs <= tc + 1)%Z by (apply u32_bounds; lia).
  set (bc := u32 (trs + (segments + 1))) in *.
  assert (0 <= bc <= trs + (segments + 1))%Z by (apply u32_bounds; lia).
  set (brs := u32 (bc + 1)) in *.
  assert (0 <= brs <= bc + 1)%Z by (apply u32_bounds; lia).
  apply in_app_iff in Hi as [Hi|Hi]; [|apply in_app_iff in Hi as [Hi|Hi]];
    apply in_flat_map in Hi as [k [Hk Hi]]; apply in_range in Hk; simpl in Hi;
    intuition (subst; match goal with |- context [?t] => wrap_bound t end; lia).
Qed.

Lemma alloc_fill_format out hp vs is vc ic hp' m :
  alloc_and_fill out hp (fun hp2 => fill_buffers vs is vc ic hp2) =
    Returned CANDID_SUCCESS (hp', Some m) ->
  index_format m = CANDID_INDEX_FORMAT_UINT16.
Proof.
  intros H. apply alloc_and_fill_success in H as [hp2 H].
  unfold fill_buffers in H. destruct (_ && _); [|discriminate].
  injection H as _ <-. reflexivity.
Qed.

(** ** Claim C9: index validity of the generated meshes *)

Lemma cube_indices_ok (size : R) out hp hp' m :
  candid_mesh_create_cube size out hp = Returned CANDID_SUCCESS (hp', Some m) ->
  indices_below_count m.
Proof.
  unfold candid_mesh_create_cube. destruct out; [|discriminate].
  intros H. apply alloc_and_fill_success in H as [hp2 H].
  apply fill_buffers_success in H as (d & Hd & Hv & Hi & Hc & _).
  injection Hd as <-. exists cube_indices. split; [exact Hi|].
  rewrite Hc. apply Forall_forall. intros i Hin. vm_compute in Hin.
  intuition (subst; lia).
Qed.

Lemma sphere_indices_ok (radius : R) segments rings out hp hp' m :
  candid_mesh_create_sphere radius segments rings out hp =
    Returned CANDID_SUCCESS (hp', Some m) ->
  indices_below_count m.
Proof.
  unfold candid_mesh_create_sphere. destruct out; [|discriminate].
  destruct ((segments <? 3)%Z || (rings <? 2)%Z) eqn:Eg; [discriminate|].
  apply orb_false_iff in Eg as [E1 E2]. apply Z.ltb_ge in E1, E2.
  intros H. apply alloc_and_fill_success in H as [hp2 H].
  apply fill_buffers_success in H as (d & Hd & Hv & Hi & Hc & _ & Hlv & _).
  injection Hd as <-. eexists; split; [exact Hi|].
  rewrite sphere_vertices_length in Hlv by lia.
  rewrite Hc. apply Forall_forall. intros i Hin.
  unfold sphere_indices in Hin.
  apply in_flat_map in Hin as [ring [Hr Hin]].
  apply in_flat_map in Hin as [seg [Hs Hin]].
  apply in_range in Hr, Hs.
  pose proof (sphere_quad_bound segments rings ring seg i Hr Hs Hin). lia.
Qed.

Lemma plane_indices_ok (width height : R) sx sy out hp hp' m :
  candid_mesh_create_plane width height sx sy out hp =
    Returned CANDID_SUCCESS (hp', Some m) ->
  indices_below_count m.
Proof.
  unfold candid_mesh_create_plane. destruct out; [|discriminate].
  destruct ((sx <? 1)%Z || (sy <? 1)%Z) eqn:Eg; [discriminate|].
  apply orb_false_iff in Eg as [E1 E2]. apply Z.ltb_ge in E1, E2.
  intros H. apply alloc_and_fill_success in H as [hp2 H].
  apply fill_buffers_success in H as (d & Hd & Hv & Hi & Hc & _ & Hlv & Hli).
  injection Hd as <-. eexists; split; [exact Hi|].
  rewrite (length_grid6 (fun yy xx => plane_quad (u32 (sx + 1)) yy xx))
    in Hli by (reflexivity || lia).
  pose proof (u32_lt (sx * sy * 6)) as Hic.
  assert (Hx : u32 (sx + 1) = (sx + 1)%Z) by (apply u32_small; nia).
  assert (Hy : u32 (sy + 1) = (sy + 1)%Z) by (apply u32_small; nia).
  rewrite Hx, Hy in *.
  rewrite (length_grid (fun yy xx => plane_vertex width height sx sy yy xx)) in Hlv
    by lia.
  rewrite Hc. apply Forall_forall. intros i Hin.
  apply in_flat_map in Hin as [yy [Hyy Hin]].
  apply in_flat_map in Hin as [xx [Hxx Hin]].
  apply in_range in Hyy, Hxx.
  pose proof (plane_quad_bound sx sy yy xx i Hyy Hxx Hin). lia.
Qed.

Lemma cylinder_indices_ok (radius height : R) segments out hp hp' m :
  candid_mesh_create_cylinder radius height segments out hp =
    Returned CANDID_SUCCESS (hp', Some m) ->
  indices_below_count m.
Proof.
  unfold candid_mesh_create_cylinder. destruct out; [|discriminate].
  destruct (segments <? 3)%Z eqn:Eg; [discriminate|]. apply Z.ltb_ge in Eg.
  intros H. apply alloc_and_fill_success in H as [hp2 H].
  apply fill_buffers_success in H as (d & Hd & Hv & Hi & Hc & _ & Hlv & _).
  injection Hd as <-. eexists; split; [exact Hi|].
  rewrite cylinder_vertices_length in Hlv by lia.
  rewrite Hc. apply Forall_forall. intros i Hin.
  pose proof (cylinder_index_bound segments i ltac:(lia) Hin). lia.
Qed.

(** Claim C9. Every successful call of [create_cube], [create_sphere],
    [create_plane] or [create_cylinder] returns a 16-bit index buffer whose
    every value is below the returned [vertex_count]. *)
Theorem generated_indices_in_range :
  (forall size out hp hp' m,
      candid_mesh_create_cube size out hp = Returned CANDID_SUCCESS (hp', Some m) ->
      index_format m = CANDID_INDEX_FORMAT_UINT16 /\ indices_below_count m) /\
  (forall radius segments rings out hp hp' m,
      candid_mesh_create_sphere radius segments rings out hp =
        Returned CANDID_SUCCESS (hp', Some m) ->
      index_format m = CANDID_INDEX_FORMAT_UINT16 /\ indices_below_count m) /\
  (forall width height sx sy out hp hp' m,
      candid_mesh_create_plane width height sx sy out hp =
        Returned CANDID_SUCCESS (hp', Some m) ->
      index_format m = CANDID_INDEX_FORMAT_UINT16 /\ indices_below_count m) /\
  (forall radius height segments out hp hp' m,
      candid_mesh_create_cylinder radius height segments out hp =
        Returned CANDID_SUCCESS (hp', Some m) ->
      index_format m = CANDID_INDEX_FORMAT_UINT16 /\ indices_below_count m).
Proof.
  refine (conj _ (conj _ (conj _ _))); intros * H; split.
  - revert H. unfold candid_mesh_create_cube. destruct out; [|discriminate].
    apply alloc_fill_format.
  - exact (cube_indices_ok _ _ _ _ _ H).
  - revert H. unfold candid_mesh_create_sphere. destruct out; [|discriminate].
    destruct (_ || _); [discriminate|]. apply alloc_fill_format.
  - exact (sphere_indices_ok _ _ _ _ _ _ _ H).
  - revert H. unfold candid_mesh_create_plane. destruct out; [|discriminate].
    destruct (_ || _); [discriminate|]. apply alloc_fill_format.
  - exact (plane_indices_ok _ _ _ _ _ _ _ _ H).
  - revert H. unfold candid_mesh_create_cylinder. destruct out; [|discriminate].
    destruct (_ <? _)%Z; [discriminate|]. apply alloc_fill_format.
  - exact (cylinder_indices_ok _ _ _ _ _ _ _ H).
Qed.

(** ** Claim C2: the sphere *)

Lemma sphere_vertex_norm (radius : R) (segments rings ring seg : Z) :
  norm3 (position (sphere_vertex radius segments rings ring seg)) = Rabs radius.
Proof.
  unfold norm3, sphere_vertex; cbn [position x y z].
  set (phi := PI * IZR ring / IZR rings).
  set (theta := 2 * PI * IZR seg / IZR segments).
  pose proof (sin2_cos2 phi) as Hp. pose proof (sin2_cos2 theta) as Ht.
  unfold Rsqr in Hp, Ht.
  replace (radius * (cos theta * sin phi) * (radius * (cos theta * sin phi)) +
           radius * cos phi * (radius * cos phi) +
           radius * (sin theta * sin phi) * (radius * (sin theta * sin phi)))
    with (Rsqr radius * (sin phi * sin phi * (sin theta * sin theta + cos theta * cos theta)
                         + cos phi * cos phi))
    by (unfold Rsqr; ring).
  rewrite Ht, Rmult_1_r, Hp, Rmult_1_r. apply sqrt_Rsqr_abs.
Qed.

Lemma sphere_vertices_norm (radius : R) (segments rings : Z) :
  Forall (fun v => norm3 (position v) = Rabs radius)
         (sphere_vertices radius segments rings).
Proof.
  apply Forall_forall. intros v Hv. unfold sphere_vertices in Hv.
  apply in_flat_map in Hv as [ring [_ Hv]].
  apply in_map_iff in Hv as [seg [<- _]].
  apply sphere_vertex_norm.
Qed.

Lemma create_sphere_success (radius : R) (segments rings : Z) (o : Candid_MeshData)
    (hp : Heap) :
  (3 <= segments)%Z -> (2 <= rings)%Z ->
  ((segments + 1) * (rings + 1) < 2 ^ 32)%Z -> (segments * rings * 6 < 2 ^ 32)%Z ->
  allocs_succeed 2 hp = true ->
  exists hp',
    candid_mesh_create_sphere radius segments rings (Some o) hp =
    Returned CANDID_SUCCESS
      (hp', Some (mkMeshData (Some (sphere_vertices radius segments rings))
                   ((segments + 1) * (rings + 1)) sizeof_Candid_Vertex
                   (Some (sphere_indices segments rings)) (segments * rings * 6)
                   CANDID_INDEX_FORMAT_UINT16 create_standard_layout
                   CANDID_PRIMITIVE_TRIANGLE_LIST)).
Proof.
  intros Hs Hr Hv Hi Ha. unfold candid_mesh_create_sphere.
  replace ((segments <? 3)%Z || (rings <? 2)%Z) with false
    by (symmetry; apply orb_false_iff; split; apply Z.ltb_ge; lia).
  destruct (alloc_and_fill_ok (Some o) hp
              (fun hp2 => fill_buffers (sphere_vertices radius segments rings)
                 (sphere_indices segments rings)
                 (u32 (u32 (segments + 1) * u32 (rings + 1)))
                 (u32 (segments * rings * 6)) hp2) Ha) as [hp2 ->].
  exists hp2. unfold fill_buffers.
  rewrite sphere_vertices_length, sphere_indices_length by lia.
  rewrite (u32_small (segments + 1)), (u32_small (rings + 1)) by nia.
  rewrite !u32_small by nia.
  rewrite !Z.leb_refl. reflexivity.
Qed.

(** Counterexample to claim C2. With [radius = -1] every vertex has norm
    [1], not [radius]; and with [segments = rings = 65535] the [uint32_t]
    vertex count wraps to 0, so the vertex loop writes past the buffer and
    the call has no defined result. *)
Lemma create_sphere_claim_counterexample :
  (exists hp' m vs,
      candid_mesh_create_sphere (-1) 3 2 (Some empty_mesh) heap0 =
        Returned CANDID_SUCCESS (hp', Some m) /\
      vertices m = Some vs /\ vs <> [] /\
      Forall (fun v => norm3 (position v) <> -1) vs) /\
  candid_mesh_create_sphere 1 65535 65535 (Some empty_mesh) heap0 = Undefined.
Proof.
  split.
  - eexists _, _, _. split; [reflexivity|]. split; [reflexivity|].
    split; [discriminate|].
    eapply Forall_impl; [|apply sphere_vertices_norm].
    intros v ->. unfold Rabs. destruct (Rcase_abs (-1)); lra.
  - unfold candid_mesh_create_sphere, alloc_and_fill, fill_buffers.
    rewrite sphere_vertices_length by lia. reflexivity.
Qed.

(** Claim C2 (amended). With a non-null output, [create_sphere] returns
    [InvalidArgument] when [segments < 3] or [rings < 2]; otherwise, when
    [(segments+1)*(rings+1)] and [segments*rings*6] fit in [uint32_t] and
    both allocations succeed, it returns [Success] with exactly
    [(segments+1)*(rings+1)] vertices and [segments*rings*6] indices, and
    every vertex position has Euclidean norm [|radius|]. *)
Theorem create_sphere_spec (radius : R) (segments rings : Z) (o : Candid_MeshData)
    (hp : Heap) :
  ((segments < 3)%Z \/ (rings < 2)%Z ->
   candid_mesh_create_sphere radius segments rings (Some o) hp =
     Returned CANDID_ERROR_INVALID_ARGUMENT (hp, Some o)) /\
  ((3 <= segments)%Z -> (2 <= rings)%Z ->
   ((segments + 1) * (rings + 1) < 2 ^ 32)%Z -> (segments * rings * 6 < 2 ^ 32)%Z ->
   allocs_succeed 2 hp = true ->
   exists hp' m vs is,
     candid_mesh_create_sphere radius segments rings (Some o) hp =
       Returned CANDID_SUCCESS (hp', Some m) /\
     vertices m = Some vs /\ indices m = Some is /\
     vertex_count m = ((segments + 1) * (rings + 1))%Z /\
     Z.of_nat (length vs) = ((segments + 1) * (rings + 1))%Z /\
     index_count m = (segments * rings * 6)%Z /\
     Z.of_nat (length is) = (segments * rings * 6)%Z /\
     Forall (fun v => norm3 (position v) = Rabs radius) vs).
Proof.
  split.
  - intros Hbad. unfold candid_mesh_create_sphere.
    replace ((segments <? 3)%Z || (rings <? 2)%Z) with true; [reflexivity|].
    symmetry. apply orb_true_iff.
    destruct Hbad; [left|right]; apply Z.ltb_lt; assumption.
  - intros Hs Hr Hv Hi Ha.
    destruct (create_sphere_success radius segments rings o hp Hs Hr Hv Hi Ha)
      as [hp' ->].
    eexists _, _, _, _. split; [reflexivity|]. cbn [vertices indices vertex_count index_count].
    repeat split; try reflexivity.
    + apply sphere_vertices_length; lia.
    + apply sphere_indices_length; lia.
    + apply sphere_vertices_norm.
Qed.

(** ** Lemmas on buffer writes *)

Lemma length_list_set {A : Type} (l : list A) n a : length (list_set l n a) = length l.
Proof. revert n; induction l as [|b l IH]; intros [|n]; simpl; auto. Qed.

Lemma nth_error_list_set {A : Type} (l : list A) n a k :
  (n < length l)%nat ->
  nth_error (list_set l n a) k = if Nat.eq_dec k n then Some a else nth_error l k.
Proof.
  intros Hn. destruct (Nat.eq_dec k n) as [->|Hne].
  - revert n Hn; induction l as [|b l IH]; intros [|n] Hn; simpl in *;
      [lia|lia|reflexivity|apply IH; lia].
  - revert n k Hn Hne; induction l as [|b l IH]; intros [|n] [|k] Hn Hne;
      simpl in *; try lia; try reflexivity.
    apply IH; lia.
Qed.

Lemma write_vertex_inv vs i v w :
  write_vertex vs i v = Some w ->
  (0 <= i < Z.of_nat (length vs))%Z /\ length w = length vs /\
  forall k, nth_error w k = if Nat.eq_dec k (Z.to_nat i) then Some v else nth_error vs k.
Proof.
  unfold write_vertex. destruct (0 <=? i)%Z eqn:H0; [|discriminate].
  destruct (i <? Z.of_nat (length vs))%Z eqn:H1; [|discriminate].
  simpl. intros [= <-]. apply Z.leb_le in H0. apply Z.ltb_lt in H1.
  split; [lia|]. split; [apply length_list_set|].
  intros k. apply nth_error_list_set. lia.
Qed.

Lemma write_vertex_ok vs i v :
  (0 <= i < Z.of_nat (length vs))%Z -> exists w, write_vertex vs i v = Some w.
Proof.
  intros Hi. unfold write_vertex.
  rewrite (proj2 (Z.leb_le 0 i)), (proj2 (Z.ltb_lt _ _)) by lia. simpl. eauto.
Qed.

Lemma read_vertex_ok vs i :
  (0 <= i < Z.of_nat (length vs))%Z -> exists v, read_vertex vs i = Some v.
Proof.
  intros Hi. unfold read_vertex. rewrite (proj2 (Z.leb_le 0 i)) by lia.
  destruct (nth_error vs (Z.to_nat i)) eqn:E; eauto.
  apply nth_error_None in E. lia.
Qed.

Lemma read_vertex_nth vs i v :
  read_vertex vs i = Some v -> (0 <= i)%Z /\ nth_error vs (Z.to_nat i) = Some v.
Proof.
  unfold read_vertex. destruct (0 <=? i)%Z eqn:H0; [|discriminate].
  apply Z.leb_le in H0. auto.
Qed.

Lemma update_normal_inv f vs i w :
  update_normal f vs i = Some w ->
  (0 <= i < Z.of_nat (length vs))%Z /\ length w = length vs /\
  forall k, nth_error w k =
    if Nat.eq_dec k (Z.to_nat i)
    then option_map (fun v => with_normal v (f (normal v))) (nth_error vs k)
    else nth_error vs k.
Proof.
  unfold update_normal. destruct (read_vertex vs i) as [v|] eqn:Hv; [|discriminate].
  apply read_vertex_nth in Hv as [_ Hv].
  intros Hw. apply write_vertex_inv in Hw as (Hi & Hl & Hk).
  split; [exact Hi|]. split; [exact Hl|].
  intros k. rewrite Hk. destruct (Nat.eq_dec k (Z.to_nat i)); [|reflexivity].
  subst k. rewrite Hv. reflexivity.
Qed.

Lemma update_normal_ok f vs i :
  (0 <= i < Z.of_nat (length vs))%Z -> exists w, update_normal f vs i = Some w.
Proof.
  intros Hi. unfold update_normal.
  destruct (read_vertex_ok vs i Hi) as [v ->]. apply write_vertex_ok. exact Hi.
Qed.

(** ** Lemmas on the normal pass *)

Lemma strip_with_normal v n : strip (with_normal v n) = strip v.
Proof. destruct v; reflexivity. Qed.

Lemma frame_refl V vs : frame V vs vs.
Proof. split; reflexivity. Qed.

Lemma frame_trans V a b c : frame V a b -> frame V b c -> frame V a c.
Proof.
  intros [H1 H2] [H3 H4]. split; intros k.
  - rewrite H3. apply H1.
  - intros Hk. rewrite H4 by exact Hk. apply H2, Hk.
Qed.

Lemma frame_length V a b : frame V a b -> length b = length a.
Proof.
  intros [H _].
  assert (Hle : forall l1 l2 : list Candid_Vertex,
             (forall k, option_map strip (nth_error l2 k) =
                        option_map strip (nth_error l1 k)) ->
             (length l1 <= length l2)%nat).
  { intros l1 l2 Hl. destruct (Nat.le_gt_cases (length l1) (length l2)); [assumption|].
    specialize (Hl (length l2)). rewrite (proj2 (nth_error_None l2 (length l2))) in Hl
      by lia.
    destruct (nth_error l1 (length l2)) eqn:E; [discriminate|].
    apply nth_error_None in E. lia. }
  apply Nat.le_antisymm; apply Hle; [|exact H].
  intros k. symmetry. apply H.
Qed.

(** Writing a vertex whose only change is its normal, below [V]. *)
Lemma frame_write_normal V vs i v n w :
  read_vertex vs i = Some v -> write_vertex vs i (with_normal v n) = Some w ->
  (i < V)%Z -> frame V vs w.
Proof.
  intros Hv Hw HV. apply read_vertex_nth in Hv as [Hi0 Hv].
  apply write_vertex_inv in Hw as (_ & _ & Hk).
  split; intros k; rewrite Hk; destruct (Nat.eq_dec k (Z.to_nat i)) as [->|]; try reflexivity.
  - rewrite Hv. simpl. rewrite strip_with_normal. reflexivity.
  - lia.
Qed.

Lemma update_normal_frame V f vs i w :
  update_normal f vs i = Some w -> (i < V)%Z -> frame V vs w.
Proof.
  unfold update_normal. destruct (read_vertex vs i) as [v|] eqn:Hv; [|discriminate].
  intros Hw. exact (frame_write_normal V vs i v _ w Hv Hw).
Qed.

Lemma loop_opt_frame {V : Z} (body : list Candid_Vertex -> Z -> option (list Candid_Vertex))
    (l : list Z) :
  (forall a i a', In i l -> body a i = Some a' -> frame V a a') ->
  forall vs w, loop_opt body l vs = Some w -> frame V vs w.
Proof.
  induction l as [|i l IH]; intros Hstep vs w; simpl.
  - intros [= <-]. apply frame_refl.
  - destruct (body vs i) as [a'|] eqn:Hb; [|discriminate].
    intros Hl. apply frame_trans with a'.
    + exact (Hstep vs i a' (or_introl eq_refl) Hb).
    + apply (IH (fun a j a'' Hj => Hstep a j a'' (or_intror Hj)) a' w Hl).
Qed.

Lemma read_index_in is k j : read_index is k = Some j -> In j is.
Proof.
  unfold read_index. destruct (0 <=? k)%Z; [|discriminate]. apply nth_error_In.
Qed.

Lemma accumulate_frame V is vs i w :
  Forall (fun j => (0 <= j < V)%Z) is ->
  accumulate_face_normal is vs i = Some w -> frame V vs w.
Proof.
  intros His. rewrite Forall_forall in His. unfold accumulate_face_normal.
  destruct (read_index is i) as [i0|] eqn:H0; [|discriminate].
  destruct (read_index is (i + 1)) as [i1|] eqn:H1; [|discriminate].
  destruct (read_index is (i + 2)) as [i2|] eqn:H2; [|discriminate].
  apply read_index_in, His in H0, H1, H2.
  destruct (read_vertex vs i0); [|discriminate].
  destruct (read_vertex vs i1); [|discriminate].
  destruct (read_vertex vs i2); [|discriminate].
  destruct (update_normal _ vs i0) as [a|] eqn:Ha; [|discriminate].
  destruct (update_normal _ a i1) as [b|] eqn:Hb; [|discriminate].
  intros Hc.
  apply frame_trans with a; [exact (update_normal_frame V _ _ _ _ Ha ltac:(lia))|].
  apply frame_trans with b; [exact (update_normal_frame V _ _ _ _ Hb ltac:(lia))|].
  exact (update_normal_frame V _ _ _ _ Hc ltac:(lia)).
Qed.

Lemma normalize_frame V vs i w :
  In i (range V) -> normalize_normal vs i = Some w -> frame V vs w.
Proof.
  intros Hi. apply in_range in Hi. unfold normalize_normal.
  destruct (read_vertex vs i) as [v|] eqn:Hv; [|discriminate].
  destruct (Rlt_dec _ _).
  - intros Hw. exact (frame_write_normal V vs i v _ w Hv Hw ltac:(lia)).
  - intros [= <-]. apply frame_refl.
Qed.

Lemma reset_loop_nth a n vs w :
  loop_opt reset_normal (map Z.of_nat (seq a n)) vs = Some w ->
  forall k, nth_error w k =
    if (a <=? k)%nat && (k <? a + n)%nat then option_map strip (nth_error vs k)
    else nth_error vs k.
Proof.
  revert a vs. induction n as [|n IH]; intros a vs; simpl.
  - intros [= <-] k.
    destruct (Nat.leb_spec a k), (Nat.ltb_spec k (a + 0)); simpl; try reflexivity; lia.
  - destruct (reset_normal vs (Z.of_nat a)) as [v1|] eqn:H1; [|discriminate].
    intros Hl k. rewrite (IH _ _ Hl k).
    unfold reset_normal in H1. apply update_normal_inv in H1 as (_ & _ & Hk).
    rewrite !Hk, Nat2Z.id.
    destruct (Nat.eq_dec k a) as [->|Hne].
    + destruct (Nat.leb_spec (S a) a); [lia|]. simpl.
      destruct (Nat.leb_spec a a), (Nat.ltb_spec a (a + S n)); try lia. reflexivity.
    + destruct (Nat.leb_spec (S a) k), (Nat.ltb_spec k (S a + n)),
        (Nat.leb_spec a k), (Nat.ltb_spec k (a + S n)); simpl; try reflexivity; lia.
Qed.

Lemma reset_loop_some a n vs :
  (a + n <= length vs)%nat ->
  exists w, loop_opt reset_normal (map Z.of_nat (seq a n)) vs = Some w.
Proof.
  revert a vs. induction n as [|n IH]; intros a vs Hn; simpl; [eauto|].
  destruct (update_normal_ok (fun _ => vec3_zero) vs (Z.of_nat a) ltac:(lia)) as [v1 Hv1].
  unfold reset_normal at 1. rewrite Hv1.
  apply update_normal_inv in Hv1 as (_ & Hl & _). apply IH. lia.
Qed.

Lemma reset_loop_length a n vs w :
  loop_opt reset_normal (map Z.of_nat (seq a n)) vs = Some w ->
  n = 0%nat \/ (a + n <= length vs)%nat.
Proof.
  revert a vs. induction n as [|n IH]; intros a vs; simpl; [auto|].
  destruct (reset_normal vs (Z.of_nat a)) as [v1|] eqn:H1; [|discriminate].
  unfold reset_normal in H1. apply update_normal_inv in H1 as (Hi & Hl & _).
  intros H. destruct (IH _ _ H); right; lia.
Qed.

(** The normal pass moves nothing but the normals of the first
    [vertex_count] vertices, when every index names one of them. *)
Lemma normals_pass_frame d vs is w :
  Forall (fun j => (0 <= j < vertex_count d)%Z) is ->
  normals_pass d vs is = Some w -> frame (vertex_count d) vs w.
Proof.
  intros His. unfold normals_pass.
  destruct (loop_opt reset_normal _ vs) as [w1|] eqn:H1; [|discriminate].
  destruct (loop_opt (accumulate_face_normal is) _ w1) as [w2|] eqn:H2; [|discriminate].
  intros H3.
  apply frame_trans with w1.
  { refine (loop_opt_frame _ _ _ vs w1 H1). intros a i a' Hi Ha.
    apply in_range in Hi.
    exact (update_normal_frame (vertex_count d) _ _ _ _ Ha ltac:(lia)). }
  apply frame_trans with w2.
  { refine (loop_opt_frame _ _ _ w1 w2 H2). intros a i a' _ Ha.
    exact (accumulate_frame _ _ _ _ _ His Ha). }
  refine (loop_opt_frame _ _ _ w2 w H3). intros a i a' Hi Ha.
  exact (normalize_frame _ _ _ _ Hi Ha).
Qed.

(** The reset loop forgets the normals it overwrites. *)
Lemma reset_loop_frame V vs vs' w :
  frame V vs vs' -> loop_opt reset_normal (range V) vs = Some w ->
  loop_opt reset_normal (range V) vs' = Some w.
Proof.
  intros Hf H. pose proof (frame_length _ _ _ Hf) as Hlen. unfold range in *.
  assert (Hs : exists w', loop_opt reset_normal (map Z.of_nat (seq 0 (Z.to_nat V))) vs' = Some w').
  { destruct (reset_loop_length _ _ _ _ H) as [E|E].
    - rewrite E. simpl. eauto.
    - apply reset_loop_some. lia. }
  destruct Hs as [w' Hw']. rewrite Hw'. f_equal.
  apply nth_error_ext. intros k.
  rewrite (reset_loop_nth _ _ _ _ Hw' k), (reset_loop_nth _ _ _ _ H k).
  destruct Hf as [Hs Hge].
  destruct ((0 <=? k)%nat && (k <? 0 + Z.to_nat V)%nat) eqn:Hc.
  - apply Hs.
  - apply Hge. destruct (Nat.ltb_spec k (0 + Z.to_nat V)); [|lia].
    destruct (Nat.leb_spec 0 k); [discriminate|lia].
Qed.

Lemma normals_pass_fixpoint d vs is w :
  Forall (fun j => (0 <= j < vertex_count d)%Z) is ->
  normals_pass d vs is = Some w -> normals_pass d w is = Some w.
Proof.
  intros His Hp. pose proof (normals_pass_frame d vs is w His Hp) as Hf.
  revert Hp. unfold normals_pass.
  destruct (loop_opt reset_normal _ vs) as [w1|] eqn:H1; [|discriminate].
  rewrite (reset_loop_frame _ _ _ _ Hf H1). auto.
Qed.

(** Counterexample to claim C3. The buffer holds three vertices but
    [vertex_count] is 1, so the reset and normalisation loops only visit
    vertex 0 while the triangle [0 1 2] accumulates into vertices 1 and 2:
    a second call adds the face normal again, and the normal of vertex 1
    goes from [(0,0,1)] to [(0,0,2)]. *)
Lemma calculate_normals_claim_counterexample :
  exists d1 d2 v1 v2,
    candid_mesh_calculate_normals (Some (triangle_mesh 1)) =
      Returned CANDID_SUCCESS (Some d1) /\
    candid_mesh_calculate_normals (Some d1) = Returned CANDID_SUCCESS (Some d2) /\
    mesh_vertex d1 1 = Some v1 /\ mesh_vertex d2 1 = Some v2 /\
    z (normal v1) = 1 /\ z (normal v2) = 2.
Proof.
  unfold candid_mesh_calculate_normals at 1, normals_pass. simpl.
  unfold normalize_normal at 1. simpl.
  destruct (Rlt_dec _ _); simpl;
    do 4 eexists; (split; [reflexivity|]);
    unfold candid_mesh_calculate_normals, normals_pass; simpl;
    unfold normalize_normal; simpl;
    match goal with |- context [Rlt_dec ?a ?b] => destruct (Rlt_dec a b) end;
    try contradiction; simpl;
    (split; [reflexivity|]); (split; [reflexivity|]); (split; [reflexivity|]);
    cbn; split; lra.
Qed.

(** Claim C3 (amended). For a mesh with non-null vertices and indices
    whose index values all lie below [vertex_count], a successful
    [calculate_normals] is idempotent: applied to its own result it
    returns that result unchanged, normals included. *)
Theorem calculate_normals_idempotent (d d' : Candid_MeshData) (is : list Z) :
  indices d = Some is -> Forall (fun j => (0 <= j < vertex_count d)%Z) is ->
  candid_mesh_calculate_normals (Some d) = Returned CANDID_SUCCESS (Some d') ->
  candid_mesh_calculate_normals (Some d') = Returned CANDID_SUCCESS (Some d').
Proof.
  intros Hi His. unfold candid_mesh_calculate_normals. rewrite Hi.
  destruct (vertices d) as [vs|] eqn:Hv; [|discriminate].
  destruct (normals_pass d vs is) as [w|] eqn:Hp; [|discriminate].
  intros [= <-]. cbn [vertices indices with_vertices]. rewrite Hi.
  change (normals_pass (with_vertices d w) w is) with (normals_pass d w is).
  rewrite (normals_pass_fixpoint d vs is w His Hp). reflexivity.
Qed.

Lemma calculate_normals_idempotent_witness :
  exists d', candid_mesh_calculate_normals (Some (triangle_mesh 3)) =
               Returned CANDID_SUCCESS (Some d') /\
             candid_mesh_calculate_normals (Some d') = Returned CANDID_SUCCESS (Some d').
Proof.
  assert (H : exists d', candid_mesh_calculate_normals (Some (triangle_mesh 3)) =
                           Returned CANDID_SUCCESS (Some d')).
  { unfold candid_mesh_calculate_normals, normals_pass. simpl.
    unfold normalize_normal. simpl.
    repeat (match goal with |- context [Rlt_dec ?a ?b] => destruct (Rlt_dec a b) end;
            simpl).
    all: eexists; reflexivity. }
  destruct H as [d' H]. exists d'. split; [exact H|].
  apply (calculate_normals_idempotent (triangle_mesh 3) d' [0; 1; 2]%Z);
    [reflexivity| |exact H].
  repeat constructor; lia.
Defined.

(** ** Lemmas on the tangent pass *)

Lemma read_vec_nth ts i t :
  read_vec ts i = Some t -> (0 <= i)%Z /\ nth_error ts (Z.to_nat i) = Some t.
Proof.
  unfold read_vec. destruct (0 <=? i)%Z eqn:H0; [|discriminate].
  apply Z.leb_le in H0. auto.
Qed.

Lemma tangent_loop_nth tan1 tan2 a n vs w :
  loop_opt (tangent_step tan1 tan2) (map Z.of_nat (seq a n)) vs = Some w ->
  forall k,
    ((a <= k < a + n)%nat ->
     exists v t b, nth_error vs k = Some v /\ nth_error tan1 k = Some t /\
       nth_error tan2 k = Some b /\
       nth_error w k = Some (with_tangent v (finalize_tangent (normal v) t b))) /\
    (~ (a <= k < a + n)%nat -> nth_error w k = nth_error vs k).
Proof.
  revert a vs. induction n as [|n IH]; intros a vs; simpl.
  - intros [= <-] k. split; [lia|reflexivity].
  - destruct (tangent_step tan1 tan2 vs (Z.of_nat a)) as [v1|] eqn:H1; [|discriminate].
    intros Hl k. specialize (IH _ _ Hl k) as [IH1 IH2].
    unfold tangent_step in H1.
    destruct (read_vertex vs (Z.of_nat a)) as [v|] eqn:Hv; [|discriminate].
    destruct (read_vec tan1 (Z.of_nat a)) as [t|] eqn:Ht; [|discriminate].
    destruct (read_vec tan2 (Z.of_nat a)) as [b|] eqn:Hb; [|discriminate].
    apply write_vertex_inv in H1 as (_ & _ & Hk).
    apply read_vertex_nth in Hv as [_ Hv]. apply read_vec_nth in Ht as [_ Ht].
    apply read_vec_nth in Hb as [_ Hb]. rewrite Nat2Z.id in Hv, Ht, Hb, Hk.
    split.
    + intros Hin. destruct (Nat.eq_dec k a) as [->|Hne].
      * exists v, t, b. repeat split; try assumption.
        rewrite IH2 by lia. rewrite Hk. destruct (Nat.eq_dec a a); [reflexivity|lia].
      * destruct (IH1 ltac:(lia)) as (v' & t' & b' & E1 & E2 & E3 & E4).
        rewrite Hk in E1. destruct (Nat.eq_dec k a); [lia|].
        exists v', t', b'. auto.
    + intros Hout. rewrite IH2 by lia. rewrite Hk.
      destruct (Nat.eq_dec k a); [lia|reflexivity].
Qed.

Lemma sqrt_eq_1 s : sqrt s = 1 -> s = 1.
Proof.
  intros H. destruct (Rle_lt_dec 0 s) as [Hs|Hs].
  - rewrite <- (sqrt_sqrt s Hs), H. ring.
  - rewrite sqrt_neg_0 in H by lra. lra.
Qed.

(** What the final loop stores for one vertex. *)
Lemma finalize_tangent_props (n t b : Candid_Vec3) :
  let tg := finalize_tangent n t b in
  let o := vsub t (vscale n (dot3 n t)) in
  (norm3 n = 1 -> x4 tg * x n + y4 tg * y n + z4 tg * z n = 0) /\
  (eps6 < norm3 o -> mkVec3 (x4 tg) (y4 tg) (z4 tg) = vdiv o (norm3 o)) /\
  (eps6 < norm3 o -> sqrt (x4 tg * x4 tg + y4 tg * y4 tg + z4 tg * z4 tg) = 1) /\
  (~ eps6 < norm3 o -> mkVec3 (x4 tg) (y4 tg) (z4 tg) = o) /\
  (dot3 (cross3 n t) b < 0 -> w4 tg = -1) /\
  (0 <= dot3 (cross3 n t) b -> w4 tg = 1).
Proof.
  cbv zeta. unfold finalize_tangent, norm3, vsub, vscale, vdiv, dot3, cross3; cbn [x y z].
  set (d := x n * x t + y n * y t + z n * z t).
  set (ox := x t - x n * d). set (oy := y t - y n * d). set (oz := z t - z n * d).
  set (s := ox * ox + oy * oy + oz * oz).
  assert (Hs0 : 0 <= s) by (unfold s; nra).
  refine (conj _ (conj _ (conj _ (conj _ (conj _ _))))).
  - intros Hn. apply sqrt_eq_1 in Hn.
    assert (Ho : ox * x n + oy * y n + oz * z n = 0).
    { transitivity (d - (x n * x n + y n * y n + z n * z n) * d).
      - unfold ox, oy, oz, d. ring.
      - rewrite Hn. ring. }
    destruct (Rlt_dec eps6 (sqrt s)) as [Hl|Hl]; cbn [x4 y4 z4 x y z].
    + assert (Hne : sqrt s <> 0) by (unfold eps6 in Hl; lra).
      transitivity ((ox * x n + oy * y n + oz * z n) / sqrt s); [field; exact Hne|].
      rewrite Ho. unfold Rdiv. ring.
    + exact Ho.
  - intros Hl. destruct (Rlt_dec eps6 (sqrt s)) as [_|]; [reflexivity|contradiction].
  - intros Hl. destruct (Rlt_dec eps6 (sqrt s)) as [_|]; [|contradiction].
    cbn [x4 y4 z4 x y z].
    assert (Hne : sqrt s <> 0) by (unfold eps6 in Hl; lra).
    assert (Hsq : sqrt s * sqrt s = s) by (apply sqrt_sqrt; exact Hs0).
    replace (ox / sqrt s * (ox / sqrt s) + oy / sqrt s * (oy / sqrt s) +
             oz / sqrt s * (oz / sqrt s)) with (s / (sqrt s * sqrt s))
      by (unfold s; field; exact Hne).
    rewrite Hsq. unfold Rdiv. rewrite Rinv_r; [apply sqrt_1|].
    intros E. rewrite E, sqrt_0 in Hne. contradiction.
  - intros Hl. destruct (Rlt_dec eps6 (sqrt s)); [contradiction|]. reflexivity.
  - intros Hw. destruct (Rlt_dec eps6 (sqrt s)); cbn [w4];
      (destruct (Rlt_dec _ 0); [reflexivity|contradiction]).
  - intros Hw. destruct (Rlt_dec eps6 (sqrt s)); cbn [w4];
      (destruct (Rlt_dec _ 0); [lra|reflexivity]).
Qed.

(** Claim C4 (amended). After a successful [calculate_tangents], every
    vertex [i < vertex_count] keeps all its fields except the tangent, and
    with [n] its normal, [t] and [b] the accumulated tangent and bitangent
    of that vertex and [o = t - n (n . t)] the Gram-Schmidt vector:
    the tangent's xyz is orthogonal to [n] whenever [n] is unit length; it
    is [o / |o|], of unit length, when [|o| > 1e-6] and is [o] itself
    otherwise; and its [w] is [-1] if [cross(n, t) . b < 0], else [+1]. *)
Theorem calculate_tangents_spec (d d' : Candid_MeshData) (vs : list Candid_Vertex)
    (is : list Z) (hp hp' : Heap) (i : nat) :
  vertices d = Some vs -> indices d = Some is ->
  candid_mesh_calculate_tangents (Some d) hp = Returned CANDID_SUCCESS (hp', Some d') ->
  (Z.of_nat i < vertex_count d)%Z ->
  exists tan1 tan2 v t b v',
    tangent_accumulators d vs is = Some (tan1, tan2) /\
    nth_error vs i = Some v /\ nth_error tan1 i = Some t /\ nth_error tan2 i = Some b /\
    mesh_vertex d' i = Some v' /\ v' = with_tangent v (tangent v') /\
    let n := normal v in
    let tg := tangent v' in
    let o := vsub t (vscale n (dot3 n t)) in
    (norm3 n = 1 -> x4 tg * x n + y4 tg * y n + z4 tg * z n = 0) /\
    (eps6 < norm3 o -> mkVec3 (x4 tg) (y4 tg) (z4 tg) = vdiv o (norm3 o)) /\
    (eps6 < norm3 o -> sqrt (x4 tg * x4 tg + y4 tg * y4 tg + z4 tg * z4 tg) = 1) /\
    (~ eps6 < norm3 o -> mkVec3 (x4 tg) (y4 tg) (z4 tg) = o) /\
    (dot3 (cross3 n t) b < 0 -> w4 tg = -1) /\
    (0 <= dot3 (cross3 n t) b -> w4 tg = 1).
Proof.
  intros Hv Hi H Hk. unfold candid_mesh_calculate_tangents in H. rewrite Hv, Hi in H.
  destruct (malloc_ hp) as [p1 hp1]. destruct (malloc_ hp1) as [p2 hp2].
  destruct p1 as [p1|]; [|discriminate]. destruct p2 as [p2|]; [|discriminate].
  destruct (tangent_accumulators d vs is) as [[tan1 tan2]|] eqn:Ha; [|discriminate].
  cbn [fst snd] in H. unfold range in H.
  destruct (loop_opt _ _ vs) as [w|] eqn:Hl; [|discriminate].
  injection H as _ <-.
  destruct (proj1 (tangent_loop_nth tan1 tan2 0 (Z.to_nat (vertex_count d)) vs w Hl i)
              ltac:(lia)) as (v & t & b & E1 & E2 & E3 & E4).
  exists tan1, tan2, v, t, b, (with_tangent v (finalize_tangent (normal v) t b)).
  do 6 (split; [assumption || reflexivity|]).
  exact (finalize_tangent_props (normal v) t b).
Qed.

(** ** The tangent fixture *)

Lemma finalize_tangent_fixture :
  finalize_tangent (mkVec3 1 0 0) (mkVec3 1 0 0) (mkVec3 0 1 0) = mkVec4 0 0 0 1.
Proof.
  unfold finalize_tangent. cbn [x y z].
  destruct (Rlt_dec eps6 _) as [H|H].
  - exfalso. match type of H with _ < sqrt ?e => replace e with 0 in H by ring end.
    rewrite sqrt_0 in H. unfold eps6 in H. lra.
  - destruct (Rlt_dec _ 0) as [H'|H']; [lra|]. cbn [x y z]. f_equal; ring.
Qed.
Lemma tangent_fixture_accumulators :
  tangent_accumulators tangent_fixture tangent_fixture_vertices [0; 1; 2]%Z =
    Some ([mkVec3 1 0 0; mkVec3 1 0 0; mkVec3 1 0 0],
          [mkVec3 0 1 0; mkVec3 0 1 0; mkVec3 0 1 0]).
Proof.
  unfold tangent_accumulators. simpl.
  unfold accumulate_face_tangent. simpl.
  destruct (Rlt_dec _ _) as [H|H].
  - exfalso. unfold eps6, Rabs in H. destruct (Rcase_abs _); lra.
  - replace ((1 - 0) * (1 - 0) - (0 - 0) * (0 - 0)) with 1 by ring.
    unfold vadd, vec3_zero. cbn [x y z]. repeat f_equal; field.
Qed.
Lemma tangent_fixture_result :
  candid_mesh_calculate_tangents (Some tangent_fixture) heap0 =
    Returned CANDID_SUCCESS
      (mkHeap [] 2 [],
       Some (with_vertices tangent_fixture
               (map (fun v => with_tangent v (mkVec4 0 0 0 1)) tangent_fixture_vertices))).
Proof.
  unfold candid_mesh_calculate_tangents.
  change (vertices tangent_fixture) with (Some tangent_fixture_vertices).
  change (indices tangent_fixture) with (Some [0; 1; 2]%Z).
  cbn -[tangent_accumulators]. rewrite tangent_fixture_accumulators.
  change (map Z.of_nat (seq 0 (Pos.to_nat 3))) with [0; 1; 2]%Z.
  unfold tangent_step. simpl. cbn [normal uv_vertex].
  rewrite !finalize_tangent_fixture. reflexivity.
Qed.

(** Counterexample to claim C4. The texture coordinates of the fixture
    match its positions, so its UV triangle is non-degenerate ([r = 1]) and
    the accumulated tangent of vertex 0 is [(1,0,0)], of length 1. The
    normal is the same unit vector, so Gram-Schmidt leaves the zero vector,
    which is stored unnormalised: the output tangent is not unit length. *)
Lemma calculate_tangents_claim_counterexample :
  exists hp' d' v tan1 tan2 t,
    candid_mesh_calculate_tangents (Some tangent_fixture) heap0 =
      Returned CANDID_SUCCESS (hp', Some d') /\
    tangent_accumulators tangent_fixture tangent_fixture_vertices [0; 1; 2]%Z =
      Some (tan1, tan2) /\
    nth_error tan1 0 = Some t /\ eps6 < norm3 t /\
    mesh_vertex d' 0 = Some v /\ norm3 (normal v) = 1 /\
    tangent v = mkVec4 0 0 0 1.
Proof.
  rewrite tangent_fixture_result, tangent_fixture_accumulators.
  do 6 eexists. split; [reflexivity|]. split; [reflexivity|].
  split; [reflexivity|].
  assert (Hn : norm3 (mkVec3 1 0 0) = 1).
  { unfold norm3. cbn [x y z]. replace (1 * 1 + 0 * 0 + 0 * 0) with 1 by ring.
    apply sqrt_1. }
  split; [rewrite Hn; unfold eps6; lra|].
  split; [reflexivity|]. split; [exact Hn|reflexivity].
Qed.

Lemma tangent_fixture_z_accumulators :
  tangent_accumulators tangent_fixture_z tangent_fixture_z_vertices [0; 1; 2]%Z =
    Some ([mkVec3 1 0 0; mkVec3 1 0 0; mkVec3 1 0 0],
          [mkVec3 0 1 0; mkVec3 0 1 0; mkVec3 0 1 0]).
Proof.
  unfold tangent_accumulators. simpl.
  unfold accumulate_face_tangent. simpl.
  destruct (Rlt_dec _ _) as [H|H].
  - exfalso. unfold eps6, Rabs in H. destruct (Rcase_abs _); lra.
  - replace ((1 - 0) * (1 - 0) - (0 - 0) * (0 - 0)) with 1 by ring.
    unfold vadd, vec3_zero. cbn [x y z]. repeat f_equal; field.
Qed.

Lemma tangent_fixture_z_success :
  exists hp' d', candid_mesh_calculate_tangents (Some tangent_fixture_z) heap0 =
                   Returned CANDID_SUCCESS (hp', Some d').
Proof.
  unfold candid_mesh_calculate_tangents.
  change (vertices tangent_fixture_z) with (Some tangent_fixture_z_vertices).
  change (indices tangent_fixture_z) with (Some [0; 1; 2]%Z).
  cbn -[tangent_accumulators tangent_fixture_z_vertices tangent_fixture_z].
  rewrite tangent_fixture_z_accumulators.
  change (map Z.of_nat (seq 0 (Pos.to_nat 3))) with [0; 1; 2]%Z.
  unfold tangent_step. simpl.
  eexists _, _. reflexivity.
Qed.

(** The normals are perpendicular to the accumulated tangent [(1,0,0)], so
    [|o| = 1 > 1e-6] and the stored tangent of vertex 0 is [o / |o|]. *)
Lemma calculate_tangents_spec_witness :
  exists hp' d' tan1 tan2 t v',
    candid_mesh_calculate_tangents (Some tangent_fixture_z) heap0 =
      Returned CANDID_SUCCESS (hp', Some d') /\
    tangent_accumulators tangent_fixture_z tangent_fixture_z_vertices [0; 1; 2]%Z =
      Some (tan1, tan2) /\
    nth_error tan1 0 = Some t /\
    eps6 < norm3 (vsub t (vscale (mkVec3 0 0 1) (dot3 (mkVec3 0 0 1) t))) /\
    mesh_vertex d' 0 = Some v' /\
    mkVec3 (x4 (tangent v')) (y4 (tangent v')) (z4 (tangent v')) = mkVec3 1 0 0.
Proof.
  destruct tangent_fixture_z_success as (hp' & d' & H).
  destruct (calculate_tangents_spec tangent_fixture_z d' tangent_fixture_z_vertices
              [0; 1; 2]%Z heap0 hp' 0 eq_refl eq_refl H ltac:(reflexivity))
    as (tan1 & tan2 & v & t & b & v' & H1 & Hv & Ht & _ & H5 & _ & _ & Hdiv & _).
  rewrite tangent_fixture_z_accumulators in H1. injection H1 as <- <-.
  injection Ht as <-. injection Hv as <-. cbn [normal with_normal] in Hdiv.
  assert (Hn : norm3 (vsub (mkVec3 1 0 0) (vscale (mkVec3 0 0 1)
                 (dot3 (mkVec3 0 0 1) (mkVec3 1 0 0)))) = 1).
  { unfold norm3, vsub, vscale, dot3; cbn [x y z].
    replace ((1 - 0 * (0 * 1 + 0 * 0 + 1 * 0)) * (1 - 0 * (0 * 1 + 0 * 0 + 1 * 0)) +
             (0 - 0 * (0 * 1 + 0 * 0 + 1 * 0)) * (0 - 0 * (0 * 1 + 0 * 0 + 1 * 0)) +
             (0 - 1 * (0 * 1 + 0 * 0 + 1 * 0)) * (0 - 1 * (0 * 1 + 0 * 0 + 1 * 0)))
      with 1 by ring.
    apply sqrt_1. }
  assert (He : eps6 < norm3 (vsub (mkVec3 1 0 0) (vscale (mkVec3 0 0 1)
                 (dot3 (mkVec3 0 0 1) (mkVec3 1 0 0)))))
    by (rewrite Hn; unfold eps6; lra).
  exists hp', d', [mkVec3 1 0 0; mkVec3 1 0 0; mkVec3 1 0 0],
    [mkVec3 0 1 0; mkVec3 0 1 0; mkVec3 0 1 0], (mkVec3 1 0 0), v'.
  split; [exact H|]. split; [exact tangent_fixture_z_accumulators|].
  split; [reflexivity|]. split; [exact He|]. split; [exact H5|].
  rewrite (Hdiv He), Hn. unfold vdiv, vsub, vscale, dot3; cbn [x y z].
  f_equal; field.
Defined.

(** ** Claim C5: the bounding box of an empty vertex range *)

(** Claim C5. [calculate_aabb] has no guard for [vertex_count = 0]: on a
    non-null buffer holding one vertex at [(1,2,3)] with [vertex_count = 0]
    it reads vertex 0 and returns [Success] with the box [(1,2,3)]-[(1,2,3)]
    rather than [InvalidArgument]; on a non-null empty buffer with
    [vertex_count = 0] the read of vertex 0 is out of bounds. With
    [vertex_count = 1] the same buffer gives [min = max =] the vertex's
    position, as stated for single-vertex meshes. *)
Theorem calculate_aabb_zero_count :
  candid_mesh_calculate_aabb (Some (point_mesh [tri_vertex (mkVec3 1 2 3)] 0))
    (Some aabb_zero) =
    Returned CANDID_SUCCESS (Some (mkAABB (mkVec3 1 2 3) (mkVec3 1 2 3))) /\
  candid_mesh_calculate_aabb (Some (point_mesh [] 0)) (Some aabb_zero) = Undefined /\
  candid_mesh_calculate_aabb (Some (point_mesh [tri_vertex (mkVec3 1 2 3)] 1))
    (Some aabb_zero) =
    Returned CANDID_SUCCESS (Some (mkAABB (mkVec3 1 2 3) (mkVec3 1 2 3))).
Proof. split; [|split]; reflexivity. Qed.

(** ** Claim C6: the backend registry *)

Lemma init_backends_idem pf st : init_backends pf (init_backends pf st) = init_backends pf st.
Proof.
  unfold init_backends. destruct (s_initialized st) eqn:E; cbn; try rewrite E;
    reflexivity.
Qed.

Lemma init_reachable pf st :
  reachable pf st -> init_backends pf st = init_backends pf registry0.
Proof.
  induction 1 as [|st _ IH]; [reflexivity|]. rewrite init_backends_idem. exact IH.
Qed.

(** Claim C6. In every registry state reachable by lazy initialisation,
    and for every configuration of the build: each backend that
    [get_available] writes is reported available by [is_available]; the
    written backends are strictly ascending, there are at most
    [max_count] of them and the returned count is theirs; and
    [get(AUTO)] returns the same interface as [get(get_preferred())]. *)
Theorem backend_registry_coherent (pf : Platform) (st : Registry) (out : bool)
    (max_count count : N) (written : list N) (st' : Registry) :
  reachable pf st ->
  candid_backend_get_available pf out max_count st = (count, written, st') ->
  Forall (fun b => fst (candid_backend_is_available pf b st') = true) written /\
  StronglySorted N.lt written /\
  (count <= max_count)%N /\
  (out = true -> N.of_nat (length written) = count) /\
  fst (candid_backend_get pf CANDID_BACKEND_AUTO st) =
    (let (p, st1) := candid_backend_get_preferred pf st in
     fst (candid_backend_get pf p st1)).
Proof.
  intros Hr H.
  assert (Hget : fst (candid_backend_get pf CANDID_BACKEND_AUTO st) =
                   (let (p, st1) := candid_backend_get_preferred pf st in
                    fst (candid_backend_get pf p st1))).
  { unfold candid_backend_get, candid_backend_get_preferred.
    rewrite (init_reachable pf st Hr), !init_backends_idem.
    destruct pf as [[|] [|] [|]]; reflexivity. }
  unfold candid_backend_get_available in H. rewrite (init_reachable pf st Hr) in H.
  destruct pf as [[|] [|] [|]]; cbn in H;
    repeat match type of H with context [N.ltb ?a ?b] => destruct (N.ltb_spec a b) end;
    destruct out; injection H as <- <- <-.
  all: split; [repeat constructor|].
  all: split; [repeat constructor; lia|].
  all: split; [lia|].
  all: split; [intros; first [reflexivity | discriminate]|exact Hget].
Qed.

(** ** Claim C7: the projection of the end-to-end scenario *)

(** Claim C7: on a renderer whose stored surface is 800x600, setting a
    camera with [aspect_ratio <= 0] and [fov_y] = 60 degrees (pi/3) takes the
    aspect from the surface, and the projection entry [m[0]] becomes
    [1 / ((800/600) * tan(30 degrees))]. Floats are taken as reals. *)
Theorem set_camera_default_aspect (r : Candid_Renderer) (c : Candid_Camera)
    (cs : list BackendCall) :
  width r = 800%Z -> height r = 600%Z -> aspect_ratio c <= 0 -> fov_y c = PI / 3 ->
  exists r', candid_renderer_set_camera (mkWorld (Some r) cs) (Some c) = mkWorld (Some r') cs /\
    nth_error (m (projection_matrix r')) 0 = Some (1 / ((800 / 600) * tan (PI / 6))).
Proof.
  intros Hw Hh Ha Hf. eexists. split; [reflexivity|].
  cbn [set_matrices projection_matrix camera_projection m mat4_assign fold_left
       repeat list_set fst snd nth_error].
  unfold camera_aspect. rewrite Hw, Hh, Hf.
  destruct (Rle_dec (aspect_ratio c) 0) as [_|Hn]; [|contradiction].
  cbn -[IZR Rdiv tan PI].
  replace (PI / 3 * 0.5) with (PI / 6) by lra.
  reflexivity.
Qed.

(** ** Claim C10: the renderer functions on a null renderer *)

(** Helper: on a null renderer [get_builtin_shader] still reports a
    resource-creation failure. *)
Lemma get_builtin_shader_null (cs : list BackendCall) (shader : N) :
  candid_renderer_get_builtin_shader (mkWorld None cs) shader =
  Returned CANDID_ERROR_RESOURCE_CREATION (mkWorld None cs).
Proof. reflexivity. Qed.

(** Counterexample to claim C10: [candid_renderer_get_builtin_shader] is a
    fallible renderer function, yet with a null renderer it returns
    [CANDID_ERROR_RESOURCE_CREATION], not [CANDID_ERROR_INVALID_ARGUMENT]. *)
Lemma get_builtin_shader_null_counterexample :
  exists res w,
    candid_renderer_get_builtin_shader (mkWorld None []) CANDID_BACKEND_AUTO = Returned res w /\
    res <> CANDID_ERROR_INVALID_ARGUMENT.
Proof.
  exists CANDID_ERROR_RESOURCE_CREATION, (mkWorld None []).
  split; [apply get_builtin_shader_null | discriminate].
Qed.

(** Claim C10 (amended): with a null renderer every [candid_renderer_*]
    function taking one is defined and makes no backend call. The fallible
    ones return [CANDID_ERROR_INVALID_ARGUMENT], except
    [get_builtin_shader], which returns [CANDID_ERROR_RESOURCE_CREATION].
    The [void] ones leave everything unchanged. The getters return 0, 0.0
    and [CANDID_BACKEND_AUTO]. *)
Theorem null_renderer_facade (br : BackendResults) (cs : list BackendCall)
    (wd ht : Z) (out : bool) (shader : N) (color : Candid_Color)
    (camera : option Candid_Camera) (view projection : option Candid_Mat4)
    (fx fy fw fh : R) (ix iy iw ih : Z) (mesh material : option nat) (submesh : Z)
    (transform : option Candid_Mat4) (transforms : option (list Candid_Mat4)) (count : Z) :
  let w := mkWorld None cs in
  candid_renderer_resize br w wd ht = Returned CANDID_ERROR_INVALID_ARGUMENT w /\
  candid_renderer_get_limits br w out = Returned CANDID_ERROR_INVALID_ARGUMENT w /\
  candid_renderer_create_buffer br w = Returned CANDID_ERROR_INVALID_ARGUMENT w /\
  candid_renderer_create_texture br w = Returned CANDID_ERROR_INVALID_ARGUMENT w /\
  candid_renderer_create_sampler br w = Returned CANDID_ERROR_INVALID_ARGUMENT w /\
  candid_renderer_create_shader_module br w = Returned CANDID_ERROR_INVALID_ARGUMENT w /\
  candid_renderer_create_shader_program br w = Returned CANDID_ERROR_INVALID_ARGUMENT w /\
  candid_renderer_create_mesh br w = Returned CANDID_ERROR_INVALID_ARGUMENT w /\
  candid_renderer_create_material br w = Returned CANDID_ERROR_INVALID_ARGUMENT w /\
  candid_renderer_begin_frame w = Returned CANDID_ERROR_INVALID_ARGUMENT w /\
  candid_renderer_end_frame br w = Returned CANDID_ERROR_INVALID_ARGUMENT w /\
  candid_renderer_get_builtin_shader w shader = Returned CANDID_ERROR_RESOURCE_CREATION w /\
  candid_renderer_destroy w = w /\
  candid_renderer_destroy_buffer w = Some w /\
  candid_renderer_destroy_texture w = Some w /\
  candid_renderer_destroy_sampler w = Some w /\
  candid_renderer_destroy_shader_module w = Some w /\
  candid_renderer_destroy_shader_program w = Some w /\
  candid_renderer_destroy_mesh w = Some w /\
  candid_renderer_destroy_material w = Some w /\
  candid_renderer_set_clear_color w color = w /\
  candid_renderer_set_viewport w fx fy fw fh = w /\
  candid_renderer_set_scissor w ix iy iw ih = w /\
  candid_renderer_draw_mesh w mesh material transform = w /\
  candid_renderer_draw_submesh w mesh submesh material transform = w /\
  candid_renderer_draw_mesh_instanced w mesh material transforms count = w /\
  candid_renderer_set_camera w camera = w /\
  candid_renderer_set_view_projection w view projection = w /\
  candid_renderer_get_time w = 0 /\
  candid_renderer_get_delta_time w = 0 /\
  candid_renderer_get_frame_count w = 0%Z /\
  candid_renderer_get_backend w = CANDID_BACKEND_AUTO.
Proof.
  intros w. unfold candid_renderer_get_builtin_shader.
  destruct camera; repeat split.
Qed.

(** ** Witnesses *)

(** A unit cube on a heap where allocation succeeds. *)
Lemma create_cube_spec_witness :
  (0 < 1 /\ allocs_succeed 2 heap0 = true) /\
  exists hp' m vs is,
    candid_mesh_create_cube 1 (Some empty_mesh) heap0 = Returned CANDID_SUCCESS (hp', Some m) /\
    vertices m = Some vs /\ indices m = Some is /\ vertex_count m = 24%Z.
Proof.
  split; [split; [lra | reflexivity]|].
  destruct (create_cube_spec 1 empty_mesh heap0 aabb_zero ltac:(lra) eq_refl)
    as (hp' & m' & vs & is & H1 & H2 & H3 & H4 & _).
  exists hp', m', vs, is. repeat split; assumption.
Defined.

(** The smallest sphere: 3 segments, 2 rings. *)
Lemma create_sphere_spec_witness :
  ((3 <= 3)%Z /\ (2 <= 2)%Z /\ ((3 + 1) * (2 + 1) < 2 ^ 32)%Z /\ (3 * 2 * 6 < 2 ^ 32)%Z /\
   allocs_succeed 2 heap0 = true) /\
  exists hp' m, candid_mesh_create_sphere 1 3 2 (Some empty_mesh) heap0 =
                  Returned CANDID_SUCCESS (hp', Some m) /\ vertex_count m = 12%Z.
Proof.
  split; [repeat split; first [lia | reflexivity]|].
  destruct (proj2 (create_sphere_spec 1 3 2 empty_mesh heap0)
              ltac:(lia) ltac:(lia) ltac:(lia) ltac:(lia) eq_refl)
    as (hp' & m' & vs & is & H1 & _ & _ & H4 & _).
  exists hp', m'. split; assumption.
Defined.

(** A heap whose first allocation fails. *)
Lemma generators_oom_atomic_witness :
  (heap_wf (mkHeap [] 0 [false]) /\ allocs_succeed 2 (mkHeap [] 0 [false]) = false) /\
  exists hp', candid_mesh_create_cube 1 (Some empty_mesh) (mkHeap [] 0 [false]) =
                Returned CANDID_ERROR_OUT_OF_MEMORY (hp', Some empty_mesh).
Proof.
  assert (Hwf : heap_wf (mkHeap [] 0 [false])) by (intros p []).
  split; [split; [exact Hwf | reflexivity]|].
  destruct (proj1 (generators_oom_atomic (mkHeap [] 0 [false]) empty_mesh Hwf eq_refl) 1)
    as (hp' & H & _).
  exists hp'. exact H.
Defined.

(** The unit cube's index buffer. *)
Lemma generated_indices_in_range_witness :
  exists hp' m, candid_mesh_create_cube 1 (Some empty_mesh) heap0 =
                  Returned CANDID_SUCCESS (hp', Some m) /\ indices_below_count m.
Proof.
  eexists _, _. split; [reflexivity|].
  exact (proj2 (proj1 generated_indices_in_range 1 (Some empty_mesh) heap0 _ _ eq_refl)).
Defined.

(** An Apple build with Vulkan support, queried before initialisation. *)
Lemma backend_registry_coherent_witness :
  exists count written st',
    reachable (mkPlatform true true false) registry0 /\
    candid_backend_get_available (mkPlatform true true false) true 5%N registry0 =
      (count, written, st') /\
    written = [1; 2]%N /\
    Forall (fun b => fst (candid_backend_is_available (mkPlatform true true false) b st') = true)
      written.
Proof.
  eexists _, _, _. split; [constructor|]. split; [reflexivity|]. split; [reflexivity|].
  exact (proj1 (backend_registry_coherent (mkPlatform true true false) registry0 true 5%N
                  _ _ _ (reachable_start _) eq_refl)).
Defined.

(** The end-to-end scenario's renderer and camera. *)
Lemma set_camera_default_aspect_witness :
  (width renderer_800x600 = 800%Z /\ height renderer_800x600 = 600%Z /\
   aspect_ratio scenario_camera <= 0 /\ fov_y scenario_camera = PI / 3) /\
  exists r', candid_renderer_set_camera (mkWorld (Some renderer_800x600) []) (Some scenario_camera) =
               mkWorld (Some r') [] /\
             nth_error (m (projection_matrix r')) 0 = Some (1 / ((800 / 600) * tan (PI / 6))).
Proof.
  split; [split; [reflexivity | split; [reflexivity | split; [cbn; right; reflexivity | reflexivity]]]|].
  apply (set_camera_default_aspect renderer_800x600 scenario_camera []);
    [reflexivity | reflexivity | cbn; right; reflexivity | reflexivity].
Defined.

(** * Further properties of the code *)

(** ** The bounding box of a non-empty vertex range *)

Lemma fold_Rmin_spec (l : list R) (a : R) :
  (forall e, In e (a :: l) -> fold_left Rmin l a <= e) /\ In (fold_left Rmin l a) (a :: l).
Proof.
  revert a; induction l as [|b l IH]; intros a; simpl.
  - split; [intros e [<-|[]]; lra | left; reflexivity].
  - destruct (IH (Rmin a b)) as [H1 H2]. split.
    + intros e [<-|[<-|He]].
      * eapply Rle_trans; [apply H1; left; reflexivity | apply Rmin_l].
      * eapply Rle_trans; [apply H1; left; reflexivity | apply Rmin_r].
      * apply H1; right; exact He.
    + destruct H2 as [E|E]; [|tauto]. rewrite <- E. unfold Rmin.
      destruct (Rle_dec a b); tauto.
Qed.

Lemma fold_Rmax_spec (l : list R) (a : R) :
  (forall e, In e (a :: l) -> e <= fold_left Rmax l a) /\ In (fold_left Rmax l a) (a :: l).
Proof.
  revert a; induction l as [|b l IH]; intros a; simpl.
  - split; [intros e [<-|[]]; lra | left; reflexivity].
  - destruct (IH (Rmax a b)) as [H1 H2]. split.
    + intros e [<-|[<-|He]].
      * eapply Rle_trans; [apply Rmax_l | apply H1; left; reflexivity].
      * eapply Rle_trans; [apply Rmax_r | apply H1; left; reflexivity].
      * apply H1; right; exact He.
    + destruct H2 as [E|E]; [|tauto]. rewrite <- E. unfold Rmax.
      destruct (Rle_dec a b); tauto.
Qed.

(** Extra. With a non-null vertex buffer holding at least [vertex_count >= 1]
    vertices, [calculate_aabb] succeeds, and its box is the tight box of the
    positions of the first [vertex_count] vertices: every such position
    lies inside it, and each of its six bounds is a coordinate of one of
    them. *)
Theorem calculate_aabb_tight (d : Candid_MeshData) (vs : list Candid_Vertex)
    (o : Candid_AABB) :
  vertices d = Some vs -> (1 <= vertex_count d)%Z ->
  (Z.to_nat (vertex_count d) <= length vs)%nat ->
  exists box,
    candid_mesh_calculate_aabb (Some d) (Some o) = Returned CANDID_SUCCESS (Some box) /\
    let ps := map position (firstn (Z.to_nat (vertex_count d)) vs) in
    (forall p, In p ps ->
       x (aabb_min box) <= x p <= x (aabb_max box) /\
       y (aabb_min box) <= y p <= y (aabb_max box) /\
       z (aabb_min box) <= z p <= z (aabb_max box)) /\
    In (x (aabb_min box)) (map x ps) /\ In (y (aabb_min box)) (map y ps) /\
    In (z (aabb_min box)) (map z ps) /\ In (x (aabb_max box)) (map x ps) /\
    In (y (aabb_max box)) (map y ps) /\ In (z (aabb_max box)) (map z ps).
Proof.
  intros Hv Hn Hlen. unfold candid_mesh_calculate_aabb. rewrite Hv.
  destruct vs as [|v0 rest]; [simpl in Hlen; lia|].
  change (read_vertex (v0 :: rest) 0) with (Some v0). cbv iota beta.
  set (k := Z.to_nat (vertex_count d - 1)).
  assert (Hk : Z.to_nat (vertex_count d) = S k) by (unfold k; lia).
  rewrite range_from1_seq. fold k.
  rewrite aabb_loop_seq by (simpl in Hlen |- *; lia).
  rewrite fold_aabb_step. eexists. split; [reflexivity|].
  cbv zeta. rewrite Hk. cbn [firstn skipn map aabb_min aabb_max x y z].
  set (qs := map position (firstn k rest)).
  destruct (fold_Rmin_spec (map x qs) (x (position v0))) as [Hx1 Hx2].
  destruct (fold_Rmin_spec (map y qs) (y (position v0))) as [Hy1 Hy2].
  destruct (fold_Rmin_spec (map z qs) (z (position v0))) as [Hz1 Hz2].
  destruct (fold_Rmax_spec (map x qs) (x (position v0))) as [HX1 HX2].
  destruct (fold_Rmax_spec (map y qs) (y (position v0))) as [HY1 HY2].
  destruct (fold_Rmax_spec (map z qs) (z (position v0))) as [HZ1 HZ2].
  split; [|tauto].
  intros p Hp.
  pose proof (in_map x _ _ Hp) as Ex. pose proof (in_map y _ _ Hp) as Ey.
  pose proof (in_map z _ _ Hp) as Ez. cbn [map] in Ex, Ey, Ez.
  cbn [x y z]. auto.
Qed.

(** ** Normals: what the pass changes, and what it stores *)

Lemma normalize_normal_inv vs i w :
  normalize_normal vs i = Some w ->
  (0 <= i)%Z /\
  (forall k, k <> Z.to_nat i -> nth_error w k = nth_error vs k) /\
  exists v, nth_error w (Z.to_nat i) = Some v /\
            (norm3 (normal v) = 1 \/ norm3 (normal v) <= eps6).
Proof.
  unfold normalize_normal.
  destruct (read_vertex vs i) as [v|] eqn:Hv; [|discriminate].
  apply read_vertex_nth in Hv as [Hi Hv].
  destruct (Rlt_dec _ _) as [Hl|Hl].
  - intros Hw. apply write_vertex_inv in Hw as (_ & _ & Hk).
    split; [exact Hi|]. split.
    + intros k Hne. rewrite Hk. destruct (Nat.eq_dec k (Z.to_nat i)); [lia|reflexivity].
    + eexists. rewrite Hk. destruct (Nat.eq_dec _ _) as [_|[]]; [|reflexivity].
      split; [reflexivity|left].
      set (n := normal v) in *. unfold norm3, vdiv, with_normal; cbn [normal x y z].
      set (s := x n * x n + y n * y n + z n * z n) in *.
      assert (Hs0 : 0 <= s) by (unfold s; nra).
      assert (Hne : sqrt s <> 0) by (unfold eps6 in Hl; lra).
      replace (x n / sqrt s * (x n / sqrt s) + y n / sqrt s * (y n / sqrt s) +
               z n / sqrt s * (z n / sqrt s)) with (s / (sqrt s * sqrt s))
        by (unfold s; field; exact Hne).
      rewrite sqrt_sqrt by exact Hs0. unfold Rdiv. rewrite Rinv_r; [apply sqrt_1|].
      intros E. rewrite E, sqrt_0 in Hne. contradiction.
  - intros [= <-]. split; [exact Hi|]. split; [reflexivity|].
    exists v. split; [exact Hv|right]. unfold norm3. lra.
Qed.

Lemma normalize_loop_nth a n vs w :
  loop_opt normalize_normal (map Z.of_nat (seq a n)) vs = Some w ->
  forall k,
    ((a <= k < a + n)%nat ->
     exists v, nth_error w k = Some v /\ (norm3 (normal v) = 1 \/ norm3 (normal v) <= eps6)) /\
    (~ (a <= k < a + n)%nat -> nth_error w k = nth_error vs k).
Proof.
  revert a vs. induction n as [|n IH]; intros a vs; simpl.
  - intros [= <-] k. split; [lia|reflexivity].
  - destruct (normalize_normal vs (Z.of_nat a)) as [v1|] eqn:H1; [|discriminate].
    intros Hl k. specialize (IH _ _ Hl k) as [IH1 IH2].
    apply normalize_normal_inv in H1 as (_ & Hk & v & Hv & Hn).
    rewrite Nat2Z.id in Hk, Hv. split.
    + intros Hin. destruct (Nat.eq_dec k a) as [->|Hne].
      * exists v. rewrite IH2 by lia. auto.
      * apply IH1. lia.
    + intros Hout. rewrite IH2 by lia. apply Hk. lia.
Qed.

(** A successful normal pass ends with its normalisation loop. *)
Lemma normals_pass_last d vs is w :
  normals_pass d vs is = Some w ->
  exists w2, loop_opt normalize_normal (range (vertex_count d)) w2 = Some w.
Proof.
  unfold normals_pass.
  destruct (loop_opt reset_normal _ vs) as [w1|]; [|discriminate].
  destruct (loop_opt (accumulate_face_normal is) _ w1) as [w2|]; [|discriminate].
  eauto.
Qed.

(** Extra. When every index names a vertex below [vertex_count], a
    successful [calculate_normals] changes nothing in the vertex buffer but
    the normals of the first [vertex_count] vertices: the buffer keeps its
    length, every other field of every vertex is unchanged, and the
    vertices from [vertex_count] on are untouched. *)
Theorem calculate_normals_frame (d d' : Candid_MeshData) (vs : list Candid_Vertex)
    (is : list Z) :
  vertices d = Some vs -> indices d = Some is ->
  Forall (fun j => (0 <= j < vertex_count d)%Z) is ->
  candid_mesh_calculate_normals (Some d) = Returned CANDID_SUCCESS (Some d') ->
  exists w, d' = with_vertices d w /\ length w = length vs /\
    (forall k, option_map strip (nth_error w k) = option_map strip (nth_error vs k)) /\
    (forall k, (vertex_count d <= Z.of_nat k)%Z -> nth_error w k = nth_error vs k).
Proof.
  intros Hv Hi His. unfold candid_mesh_calculate_normals. rewrite Hv, Hi.
  destruct (normals_pass d vs is) as [w|] eqn:Hp; [|discriminate].
  intros [= <-]. pose proof (normals_pass_frame d vs is w His Hp) as Hf.
  exists w. split; [reflexivity|]. split; [exact (frame_length _ _ _ Hf)|]. exact Hf.
Qed.

(** Extra. After a successful [calculate_normals], the normal of each of
    the first [vertex_count] vertices has length 1, or length at most
    [1e-6] (the normalisation threshold), whatever the indices. *)
Theorem calculate_normals_unit (d d' : Candid_MeshData) (k : nat) :
  candid_mesh_calculate_normals (Some d) = Returned CANDID_SUCCESS (Some d') ->
  (Z.of_nat k < vertex_count d)%Z ->
  exists v, mesh_vertex d' k = Some v /\ (norm3 (normal v) = 1 \/ norm3 (normal v) <= eps6).
Proof.
  intros H Hk. unfold candid_mesh_calculate_normals in H.
  destruct (vertices d) as [vs|]; [|discriminate].
  destruct (indices d) as [is|]; [|discriminate].
  destruct (normals_pass d vs is) as [w|] eqn:Hp; [|discriminate].
  injection H as <-. destruct (normals_pass_last d vs is w Hp) as [w2 Hl].
  unfold range in Hl. apply (proj1 (normalize_loop_nth _ _ _ _ Hl k)). lia.
Qed.

(** ** Tangents: no leak, and nothing moved past [vertex_count] *)

Lemma remove_cons_eq (a : nat) l : remove Nat.eq_dec a (a :: l) = remove Nat.eq_dec a l.
Proof. simpl. destruct (Nat.eq_dec a a) as [_|[]]; reflexivity. Qed.

Lemma remove_cons_neq (a b : nat) l :
  a <> b -> remove Nat.eq_dec a (b :: l) = b :: remove Nat.eq_dec a l.
Proof. intros H. simpl. destruct (Nat.eq_dec a b); [contradiction|reflexivity]. Qed.

Lemma remove_above (l : list nat) (f a : nat) :
  (forall p, In p l -> (p < f)%nat) -> (f <= a)%nat -> remove Nat.eq_dec a l = l.
Proof. intros Hl Ha. apply notin_remove. intros Hin. apply Hl in Hin. lia. Qed.

(** Frees of blocks handed out after a well-formed heap [l, f]. *)
Ltac clean_frees l f Hwf :=
  repeat first [ rewrite remove_cons_eq | rewrite remove_cons_neq by lia
               | rewrite (remove_above l f _ Hwf) by lia
               | match goal with |- context [Nat.eq_dec ?a ?b] =>
                   destruct (Nat.eq_dec a b); try lia; cbv beta iota end ].

Lemma tangent_loop_length tan1 tan2 l vs w :
  loop_opt (tangent_step tan1 tan2) l vs = Some w -> length w = length vs.
Proof.
  revert vs. induction l as [|i l IH]; intros vs; simpl; [intros [= <-]; reflexivity|].
  destruct (tangent_step tan1 tan2 vs i) as [v1|] eqn:H1; [|discriminate].
  intros Hl. rewrite (IH _ Hl). unfold tangent_step in H1.
  destruct (read_vertex vs i); [|discriminate].
  destruct (read_vec tan1 i); [|discriminate]. destruct (read_vec tan2 i); [|discriminate].
  apply write_vertex_inv in H1 as (_ & E & _). exact E.
Qed.

(** Extra. [calculate_tangents] on a non-null mesh frees both temporary
    arrays on every path that returns: the live blocks afterwards are those
    before the call. When it does not return [Success] (null buffers, or an
    allocation failure) the caller's mesh is returned unchanged. *)
Theorem calculate_tangents_no_leak (d : Candid_MeshData) (hp hp' : Heap)
    (r : Candid_Result) (out : option Candid_MeshData) :
  heap_wf hp ->
  candid_mesh_calculate_tangents (Some d) hp = Returned r (hp', out) ->
  live hp' = live hp /\ (r <> CANDID_SUCCESS -> out = Some d).
Proof.
  intros Hwf H. unfold candid_mesh_calculate_tangents in H.
  destruct (vertices d) as [vs|]; [|injection H as <- <- <-; auto].
  destruct (indices d) as [is|]; [|injection H as <- <- <-; auto].
  destruct hp as [l f o]. unfold heap_wf in Hwf; cbn [live fresh] in Hwf.
  destruct o as [|[|] [|[|] o]]; cbn [malloc_ oracle live fresh tl] in H;
    first [ destruct (let* acc := _ in _) as [vs'|]; [|discriminate] | idtac ];
    injection H as <- <- <-; cbn [free_ live];
    (split; [clean_frees l f Hwf; reflexivity | first [intros []; reflexivity | auto]]).
Qed.

(** Extra. A successful [calculate_tangents] keeps the length of the
    vertex buffer and leaves every vertex from [vertex_count] on unchanged. *)
Theorem calculate_tangents_frame (d d' : Candid_MeshData) (vs : list Candid_Vertex)
    (hp hp' : Heap) :
  vertices d = Some vs ->
  candid_mesh_calculate_tangents (Some d) hp = Returned CANDID_SUCCESS (hp', Some d') ->
  exists w, d' = with_vertices d w /\ length w = length vs /\
    forall k, (vertex_count d <= Z.of_nat k)%Z -> nth_error w k = nth_error vs k.
Proof.
  intros Hv H. unfold candid_mesh_calculate_tangents in H. rewrite Hv in H.
  destruct (indices d) as [is|]; [|discriminate].
  destruct (malloc_ hp) as [p1 hp1]. destruct (malloc_ hp1) as [p2 hp2].
  destruct p1 as [p1|]; [|discriminate]. destruct p2 as [p2|]; [|discriminate].
  destruct (tangent_accumulators d vs is) as [[tan1 tan2]|]; [|discriminate].
  cbn [fst snd] in H. unfold range in H.
  destruct (loop_opt _ _ vs) as [w|] eqn:Hl; [|discriminate].
  injection H as _ <-. exists w. split; [reflexivity|].
  split; [exact (tangent_loop_length _ _ _ _ _ Hl)|].
  intros k Hk. apply (proj2 (tangent_loop_nth _ _ _ _ _ _ Hl k)). lia.
Qed.

(** ** The generators' geometry *)

(** Extra. The cube's triangles are wound consistently with its normals:
    for each of the 12 triangles [(i0, i1, i2)] of a successful
    [create_cube], the three corners carry the same normal [n], and the
    cross product [(p1 - p0) x (p2 - p0)] is [size^2 n], so the triangles
    are counter-clockwise seen from the side [n] points to. *)
Theorem create_cube_winding (size : R) (o m : Candid_MeshData) (hp hp' : Heap) :
  candid_mesh_create_cube size (Some o) hp = Returned CANDID_SUCCESS (hp', Some m) ->
  exists vs is, vertices m = Some vs /\ indices m = Some is /\
    forall t, (t < 12)%nat ->
      exists i0 i1 i2 v0 v1 v2,
        nth_error is (3 * t) = Some i0 /\ nth_error is (3 * t + 1) = Some i1 /\
        nth_error is (3 * t + 2) = Some i2 /\
        nth_error vs (Z.to_nat i0) = Some v0 /\ nth_error vs (Z.to_nat i1) = Some v1 /\
        nth_error vs (Z.to_nat i2) = Some v2 /\
        normal v1 = normal v0 /\ normal v2 = normal v0 /\
        cross3 (vsub (position v1) (position v0)) (vsub (position v2) (position v0)) =
          vscale (normal v0) (size * size).
Proof.
  intros H. unfold candid_mesh_create_cube in H.
  apply alloc_and_fill_success in H as [hp2 H].
  apply fill_buffers_success in H as (d & Hd & Hv & Hi & _).
  injection Hd as <-. exists (cube_vertices (size * 0.5)), cube_indices.
  split; [exact Hv|]. split; [exact Hi|].
  replace (size * 0.5) with (size / 2) by lra.
  intros t Ht.
  do 12 (destruct t as [|t]; [
    cbn -[Rdiv Ropp]; do 6 eexists;
    (split; [reflexivity|]); (split; [reflexivity|]); (split; [reflexivity|]);
    (split; [reflexivity|]); (split; [reflexivity|]); (split; [reflexivity|]);
    (split; [reflexivity|]); (split; [reflexivity|]);
    unfold cross3, vsub, vscale, cube_vertex; cbn [x y z position normal];
    f_equal; field|]).
  lia.
Qed.

Lemma ratio_01 (a b : Z) : (0 <= a <= b)%Z -> (0 < b)%Z -> 0 <= IZR a / IZR b <= 1.
Proof.
  intros Ha Hb. destruct Ha as [Ha0 Hab]. apply IZR_le in Ha0, Hab. apply IZR_lt in Hb.
  split.
  - unfold Rdiv. apply Rmult_le_pos; [exact Ha0|]. left. apply Rinv_0_lt_compat, Hb.
  - apply Rmult_le_reg_r with (IZR b); [exact Hb|]. unfold Rdiv.
    rewrite Rmult_assoc, Rinv_l by lra. lra.
Qed.

(** [-(w/2) + t w] for [t] in [[0, 1]] lies within [|w|/2] of the origin. *)
Lemma half_span (w t : R) : 0 <= t <= 1 -> Rabs (- (w * 0.5) + t * w) <= Rabs w / 2.
Proof.
  intros Ht. replace (- (w * 0.5) + t * w) with (w * (t - 1 / 2)) by lra.
  rewrite Rabs_mult.
  assert (Hr : Rabs (t - 1 / 2) <= 1 / 2) by (apply Rabs_le; lra).
  pose proof (Rabs_pos w). nra.
Qed.

(** Extra. Every vertex of a successful [create_plane] lies in the plane
    [y = 0] inside the [width x height] rectangle centred on the origin
    ([|x| <= |width|/2], [|z| <= |height|/2]), has the normal [(0,1,0)],
    and texture coordinates in [[0, 1]]. *)
Theorem create_plane_shape (width height : R) (sx sy : Z) (o m : Candid_MeshData)
    (hp hp' : Heap) :
  candid_mesh_create_plane width height sx sy (Some o) hp =
    Returned CANDID_SUCCESS (hp', Some m) ->
  exists vs, vertices m = Some vs /\
    Forall (fun v => normal v = mkVec3 0 1 0 /\ y (position v) = 0 /\
                     Rabs (x (position v)) <= Rabs width / 2 /\
                     Rabs (z (position v)) <= Rabs height / 2 /\
                     0 <= x2 (texcoord0 v) <= 1 /\ 0 <= y2 (texcoord0 v) <= 1) vs.
Proof.
  intros H. unfold candid_mesh_create_plane in H.
  destruct ((sx <? 1)%Z || (sy <? 1)%Z) eqn:E; [discriminate|].
  apply orb_false_iff in E as [E1 E2]. apply Z.ltb_ge in E1, E2.
  apply alloc_and_fill_success in H as [hp2 H].
  apply fill_buffers_success in H as (d & Hd & Hv & _).
  injection Hd as <-. eexists. split; [exact Hv|].
  apply Forall_forall. intros v Hin.
  apply in_flat_map in Hin as (yy & Hyy & Hin). apply in_map_iff in Hin as (xx & <- & Hxx).
  apply in_range in Hxx, Hyy.
  pose proof (u32_bounds (sx + 1) ltac:(lia)). pose proof (u32_bounds (sy + 1) ltac:(lia)).
  pose proof (ratio_01 xx sx ltac:(lia) ltac:(lia)) as Hx.
  pose proof (ratio_01 yy sy ltac:(lia) ltac:(lia)) as Hy.
  unfold plane_vertex; cbn [normal position texcoord0 x y z x2 y2].
  split; [reflexivity|]. split; [reflexivity|].
  split; [apply half_span, Hx|]. split; [apply half_span, Hy|]. tauto.
Qed.

Lemma unit_circle_norm (c s : R) : s * s + c * c = 1 -> norm3 (mkVec3 c 0 s) = 1.
Proof.
  intros H. unfold norm3; cbn [x y z].
  replace (c * c + 0 * 0 + s * s) with 1 by lra. apply sqrt_1.
Qed.

Lemma axis_norm (ny : R) : ny = 1 \/ ny = -1 -> norm3 (mkVec3 0 ny 0) = 1.
Proof.
  intros H. unfold norm3; cbn [x y z].
  replace (0 * 0 + ny * ny + 0 * 0) with 1 by (destruct H as [->| ->]; ring). apply sqrt_1.
Qed.

(** Extra. Every vertex of a successful [create_cylinder] lies on the top
    or the bottom rim plane ([y = +-height/2]), either on the axis (the two
    cap centres) or at distance [|radius|] from it ([x^2 + z^2 =
    radius^2]), and carries a unit normal. *)
Theorem create_cylinder_shape (radius height : R) (segments : Z) (o m : Candid_MeshData)
    (hp hp' : Heap) :
  candid_mesh_create_cylinder radius height segments (Some o) hp =
    Returned CANDID_SUCCESS (hp', Some m) ->
  exists vs, vertices m = Some vs /\
    Forall (fun v =>
      (y (position v) = height / 2 \/ y (position v) = - (height / 2)) /\
      (x (position v) * x (position v) + z (position v) * z (position v) = radius * radius \/
       (x (position v) = 0 /\ z (position v) = 0)) /\
      norm3 (normal v) = 1) vs.
Proof.
  intros H. unfold candid_mesh_create_cylinder in H.
  destruct (segments <? 3)%Z; [discriminate|].
  apply alloc_and_fill_success in H as [hp2 H].
  apply fill_buffers_success in H as (d & Hd & Hv & _).
  injection Hd as <-. eexists. split; [exact Hv|].
  assert (Hh : height * 0.5 = height / 2) by lra.
  unfold cylinder_vertices. rewrite Hh.
  assert (Hring : forall r hh ny top,
             (hh = height / 2 \/ hh = - (height / 2)) -> (ny = 1 \/ ny = -1) ->
             Forall (fun v =>
               (y (position v) = height / 2 \/ y (position v) = - (height / 2)) /\
               (x (position v) * x (position v) + z (position v) * z (position v) =
                  radius * radius \/ (x (position v) = 0 /\ z (position v) = 0)) /\
               norm3 (normal v) = 1)
               (map (cyl_side_vertex radius hh r segments) (range (segments + 1)) ++
                [cyl_center_vertex hh ny] ++
                map (cyl_cap_vertex radius hh ny top segments) (range (segments + 1)))).
  { intros r hh ny top Hhh Hny.
    pose proof (fun s => sin2_cos2 (cyl_theta segments s)) as Hsc.
    apply Forall_app; split; [|apply Forall_app; split].
    - apply Forall_forall. intros v Hin. apply in_map_iff in Hin as (s & <- & _).
      unfold cyl_side_vertex; cbn [position normal x y z].
      split; [exact Hhh|]. split; [left|].
      + specialize (Hsc s). unfold Rsqr in Hsc.
        transitivity (radius * radius * (sin (cyl_theta segments s) * sin (cyl_theta segments s) +
                                         cos (cyl_theta segments s) * cos (cyl_theta segments s)));
          [ring|]. rewrite Hsc. ring.
      + apply unit_circle_norm. specialize (Hsc s). unfold Rsqr in Hsc. exact Hsc.
    - constructor; [|constructor]. unfold cyl_center_vertex; cbn [position normal x y z].
      split; [exact Hhh|]. split; [right; split; reflexivity|]. apply axis_norm, Hny.
    - apply Forall_forall. intros v Hin. apply in_map_iff in Hin as (s & <- & _).
      unfold cyl_cap_vertex; cbn [position normal x y z].
      split; [exact Hhh|]. split; [left|apply axis_norm, Hny].
      specialize (Hsc s). unfold Rsqr in Hsc.
      transitivity (radius * radius * (sin (cyl_theta segments s) * sin (cyl_theta segments s) +
                                       cos (cyl_theta segments s) * cos (cyl_theta segments s)));
        [ring|]. rewrite Hsc. ring. }
  pose proof (Hring 0 (height / 2) 1 true (or_introl eq_refl) (or_introl eq_refl)) as Htop.
  pose proof (Hring 1 (- (height / 2)) (-1) false (or_intror eq_refl) (or_intror eq_refl))
    as Hbot.
  rewrite Forall_forall in Htop, Hbot. apply Forall_forall. intros v Hin.
  rewrite !in_app_iff in Hin.
  destruct Hin as [Hin|[Hin|[Hin|[Hin|[Hin|Hin]]]]];
    [apply Htop | apply Hbot | apply Htop | apply Htop | apply Hbot | apply Hbot];
    rewrite !in_app_iff; tauto.
Qed.

(** ** The backend registry per build *)

(** Extra. In every reachable registry state, [get_preferred] returns
    Metal on an Apple build, else Vulkan when Vulkan support is compiled in,
    else [AUTO] (no backend); D3D12 is never chosen, on Windows either,
    since it is never registered. The registry is left fully initialised. *)
Theorem preferred_backend_by_build (pf : Platform) (st : Registry) :
  reachable pf st ->
  candid_backend_get_preferred pf st =
    (if apple pf then CANDID_BACKEND_METAL
     else if vulkan_support pf then CANDID_BACKEND_VULKAN else CANDID_BACKEND_AUTO,
     init_backends pf registry0).
Proof.
  intros Hr. unfold candid_backend_get_preferred. rewrite (init_reachable pf st Hr).
  destruct pf as [[|] [|] [|]]; reflexivity.
Qed.

(** Extra. In every reachable registry state, [is_available(b)] holds
    exactly for [AUTO] when Apple or Vulkan support is compiled in, for
    Metal on an Apple build and for Vulkan with Vulkan support; it is false
    for D3D12, WebGPU and every value from [CANDID_BACKEND_COUNT] on. *)
Theorem is_available_by_build (pf : Platform) (b : N) (st : Registry) :
  reachable pf st ->
  fst (candid_backend_is_available pf b st) =
    ((b =? CANDID_BACKEND_AUTO)%N && (apple pf || vulkan_support pf)) ||
    ((b =? CANDID_BACKEND_METAL)%N && apple pf) ||
    ((b =? CANDID_BACKEND_VULKAN)%N && vulkan_support pf).
Proof.
  intros Hr. unfold candid_backend_is_available. rewrite (init_reachable pf st Hr).
  assert (Hb : (b = 0 \/ b = 1 \/ b = 2 \/ b = 3 \/ b = 4 \/ 5 <= b)%N) by lia.
  destruct Hb as [->|[->|[->|[->|[->|Hb]]]]];
    [destruct pf as [[|] [|] [|]]; reflexivity ..|].
  unfold CANDID_BACKEND_AUTO, CANDID_BACKEND_COUNT, CANDID_BACKEND_METAL,
    CANDID_BACKEND_VULKAN.
  replace (b =? 0)%N with false by (symmetry; apply N.eqb_neq; lia).
  replace (b =? 1)%N with false by (symmetry; apply N.eqb_neq; lia).
  replace (b =? 2)%N with false by (symmetry; apply N.eqb_neq; lia).
  replace (5 <=? b)%N with true by (symmetry; apply N.leb_le; lia).
  reflexivity.
Qed.

(** Extra. In every reachable registry state, [get_available(out,
    max_count)] returns [min(max_count, n)] where [n] is the number of
    backends compiled in (Metal on Apple, Vulkan with Vulkan support), and
    writes (when [out] is non-null) the first [max_count] of them, Metal
    before Vulkan. *)
Theorem get_available_by_build (pf : Platform) (out : bool) (max_count : N) (st : Registry) :
  reachable pf st ->
  let avail := (if apple pf then [CANDID_BACKEND_METAL] else []) ++
               (if vulkan_support pf then [CANDID_BACKEND_VULKAN] else []) in
  candid_backend_get_available pf out max_count st =
    (N.min max_count (N.of_nat (length avail)),
     if out then firstn (N.to_nat max_count) avail else [],
     init_backends pf registry0).
Proof.
  intros Hr avail. unfold candid_backend_get_available. rewrite (init_reachable pf st Hr).
  assert (Hm : (max_count = 0 \/ max_count = 1 \/ 2 <= max_count)%N) by lia.
  destruct Hm as [->|[->|Hm]]; [destruct pf as [[|] [|] [|]], out; reflexivity ..|].
  replace (N.to_nat max_count) with (S (S (N.to_nat max_count - 2))) by lia.
  destruct pf as [[|] [|] [|]]; unfold avail; cbv -[N.min N.ltb firstn];
    cbn [firstn]; rewrite ?firstn_nil;
    repeat match goal with |- context [N.ltb ?a ?b] => destruct (N.ltb_spec a b); try lia end;
    destruct out; f_equal; f_equal; lia.
Qed.

(** ** The renderer, the camera, the sandbox loop and the legacy cube *)

(** The matrix [candid_renderer_create] writes is the identity. *)
Lemma mat4_memset_identity_eq : mat4_memset_identity = mat4_identity.
Proof. reflexivity. Qed.

(** Split a backend value into the enumerators and the values above them. *)
Ltac backend_cases b :=
  let Hb := fresh "Hb" in
  assert (Hb : (b = 0 \/ b = 1 \/ b = 2 \/ b = 3 \/ b = 4 \/ 5 <= b)%N) by lia;
  destruct Hb as [->|[->|[->|[->|[->|Hb]]]]].

(** Evaluate, deciding the backend comparisons with [lia]. *)
Ltac crunch :=
  repeat (cbv -[IZR Rdiv N.eqb N.leb];
          first [ match goal with |- context [N.eqb ?a ?c] =>
                    first [ replace (N.eqb a c) with false by (symmetry; apply N.eqb_neq; lia)
                          | replace (N.eqb a c) with true by (symmetry; apply N.eqb_eq; lia) ]
                  end
                | match goal with |- context [N.leb ?a ?c] =>
                    first [ replace (N.leb a c) with false by (symmetry; apply N.leb_gt; lia)
                          | replace (N.leb a c) with true by (symmetry; apply N.leb_le; lia) ]
                  end ]);
  cbv -[IZR Rdiv].

(** A reachable registry is the initial one or the initialised one. *)
Lemma reachable_cases pf st :
  reachable pf st -> st = registry0 \/ st = init_backends pf registry0.
Proof.
  induction 1 as [|st _ [-> | ->]]; [left; reflexivity|right; reflexivity|].
  right. apply init_backends_idem.
Qed.

(** Extra. On a registry reached by lazy initialisation, when
    [candid_renderer_create] (non-null config and output) returns [Success],
    the output is a freshly allocated renderer (the heap gains exactly that
    block) whose backend is an available, non-[AUTO] backend: the preferred
    one when the config asks for [AUTO], the requested one otherwise; its
    interface pointer is [candid_backend_get] of that backend, its size is
    the config's, its frame counter and time are zero, and its view and
    projection matrices are the identity. *)
Theorem renderer_create_success (pf : Platform) (dc : DeviceCreate)
    (cfg : Candid_RendererConfig) (st : Registry) (hp : Heap) :
  reachable pf st ->
  create_result (candid_renderer_create pf dc (Some cfg) true st hp) = CANDID_SUCCESS ->
  exists r,
    created (candid_renderer_create pf dc (Some cfg) true st hp) = Some (fresh hp, r) /\
    live (heap_after (candid_renderer_create pf dc (Some cfg) true st hp)) =
      fresh hp :: live hp /\
    backend_type r <> CANDID_BACKEND_AUTO /\
    fst (candid_backend_is_available pf (backend_type r) st) = true /\
    (cfg_backend cfg = CANDID_BACKEND_AUTO ->
       backend_type r = fst (candid_backend_get_preferred pf st)) /\
    (cfg_backend cfg <> CANDID_BACKEND_AUTO -> backend_type r = cfg_backend cfg) /\
    backend r = fst (candid_backend_get pf (backend_type r) st) /\
    width r = cfg_width cfg /\ height r = cfg_height cfg /\
    frame_count r = 0%Z /\ time r = 0 /\
    view_matrix r = mat4_identity /\ projection_matrix r = mat4_identity.
Proof.
  intros Hr. unfold candid_renderer_create. rewrite mat4_memset_identity_eq.
  destruct cfg as [b nw ns cw ch vs dm mf an]; cbn [cfg_backend cfg_width cfg_height].
  destruct hp as [l f [|[|] o]]; cbn [malloc_ oracle fresh live tl];
    [| |intros H; discriminate];
    destruct (reachable_cases pf st Hr) as [-> | ->]; clear Hr.
  all: backend_cases b; destruct pf as [[|] [|] [|]]; crunch;
    try (intros H; discriminate).
  all: match goal with D : DeviceCreate |- _ =>
         match goal with |- context [D ?i ?d] => destruct (D i d) as [[] dev] end end;
    cbv -[IZR Rdiv]; intros H; try discriminate.
  all: eexists; split; [reflexivity|]; cbn.
  all: repeat split; try reflexivity; try discriminate; lia.
Qed.

(** Extra. Whenever [candid_renderer_create] does not return [Success]
    (null argument, allocation failure, unsupported backend or failing
    device creation), no renderer is handed out and the live heap blocks are
    those before the call: the renderer block is freed on every error path. *)
Theorem renderer_create_failure (pf : Platform) (dc : DeviceCreate)
    (config : option Candid_RendererConfig) (out : bool) (st : Registry) (hp : Heap) :
  heap_wf hp ->
  create_result (candid_renderer_create pf dc config out st hp) <> CANDID_SUCCESS ->
  created (candid_renderer_create pf dc config out st hp) = None /\
  live (heap_after (candid_renderer_create pf dc config out st hp)) = live hp.
Proof.
  intros Hwf. unfold candid_renderer_create.
  destruct config as [cfg|]; [|intros _; split; reflexivity].
  destruct out; [|intros _; split; reflexivity].
  destruct hp as [l f [|[|] o]]; cbn [malloc_ oracle fresh live tl];
    [| |intros _; split; reflexivity].
  all: destruct (if N.eqb (cfg_backend cfg) CANDID_BACKEND_AUTO then _ else _) as [b0 st1];
    destruct (candid_backend_get pf b0 st1) as [[bi|] st2];
    [destruct (dc bi _) as [[] dev]|]; cbn [create_result created heap_after free_ live];
    intros H; try (exfalso; apply H; reflexivity);
    (split; [reflexivity|exact (remove_fresh (mkHeap l f _) Hwf)]).
Qed.

(** Extra. Asking [candid_renderer_create] for a backend that
    [candid_backend_is_available] reports unavailable (including [AUTO] when
    the build has no backend) never creates a renderer: the result is
    [BackendNotSupported], or [OutOfMemory] when the renderer block cannot
    be allocated first. *)
Theorem renderer_create_unsupported (pf : Platform) (dc : DeviceCreate)
    (cfg : Candid_RendererConfig) (st : Registry) (hp : Heap) :
  reachable pf st ->
  fst (candid_backend_is_available pf (cfg_backend cfg) st) = false ->
  create_result (candid_renderer_create pf dc (Some cfg) true st hp) =
    (if allocs_succeed 1 hp then CANDID_ERROR_BACKEND_NOT_SUPPORTED
     else CANDID_ERROR_OUT_OF_MEMORY) /\
  created (candid_renderer_create pf dc (Some cfg) true st hp) = None.
Proof.
  intros Hr. unfold candid_renderer_create.
  destruct cfg as [b nw ns cw ch vs dm mf an]; cbn [cfg_backend cfg_width cfg_height].
  destruct hp as [l f [|[|] o]]; cbn [malloc_ oracle fresh live tl allocs_succeed];
    [| |intros _; split; reflexivity];
    destruct (reachable_cases pf st Hr) as [-> | ->]; clear Hr.
  all: backend_cases b; destruct pf as [[|] [|] [|]]; crunch; intros H;
    try discriminate; split; reflexivity.
Qed.

(** Writing all sixteen entries of a 16-float matrix. *)
Lemma mat4_assign_16 (l : list R) (v0 v1 v2 v3 v4 v5 v6 v7 v8 v9 v10 v11 v12 v13 v14 v15 : R) :
  length l = 16%nat ->
  mat4_assign l [(0%nat, v0); (1%nat, v1); (2%nat, v2); (3%nat, v3);
                 (4%nat, v4); (5%nat, v5); (6%nat, v6); (7%nat, v7);
                 (8%nat, v8); (9%nat, v9); (10%nat, v10); (11%nat, v11);
                 (12%nat, v12); (13%nat, v13); (14%nat, v14); (15%nat, v15)] =
  [v0; v1; v2; v3; v4; v5; v6; v7; v8; v9; v10; v11; v12; v13; v14; v15].
Proof.
  intros Hl.
  do 16 (destruct l as [|? l]; [discriminate|]).
  destruct l; [reflexivity|discriminate].
Qed.

(** A look-at matrix with rows [s], [u], [-f] sends [q] to its coordinates
    relative to [p]. *)
Lemma look_at_point (s u f p q : Candid_Vec3) :
  mat4_transform_point
    (mkMat4 [x s; x u; - x f; 0; y s; y u; - y f; 0; z s; z u; - z f; 0;
             - (x s * x p + y s * y p + z s * z p);
             - (x u * x p + y u * y p + z u * z p);
             x f * x p + y f * y p + z f * z p; 1]) q =
  mkVec4 (dot3 s (vsub q p)) (dot3 u (vsub q p)) (- dot3 f (vsub q p)) 1.
Proof.
  unfold mat4_transform_point, dot3, vsub; cbn [m nth x y z]. f_equal; ring.
Qed.

(** [normalize_if_positive] scales its argument. *)
Lemma normalize_if_positive_scale (v : Candid_Vec3) :
  exists k, normalize_if_positive v = vscale v k.
Proof.
  unfold normalize_if_positive.
  destruct (Rlt_dec 0 _) as [H|H].
  - exists (/ sqrt (x v * x v + y v * y v + z v * z v)).
    destruct v as [a b c]; unfold vdiv, vscale; cbn [x y z]. f_equal; field; lra.
  - exists 1. destruct v as [a b c]; unfold vscale; cbn [x y z]. f_equal; ring.
Qed.

(** The normalised direction against the direction gives its length. *)
Lemma normalize_if_positive_dot (v : Candid_Vec3) :
  dot3 (normalize_if_positive v) v = norm3 v.
Proof.
  unfold normalize_if_positive, norm3, dot3.
  assert (H0 : 0 <= x v * x v + y v * y v + z v * z v) by nra.
  destruct (Rlt_dec 0 _) as [H|H]; destruct v as [a b c]; unfold vdiv; cbn [x y z] in *.
  - pose proof (sqrt_sqrt _ H0) as Hs.
    apply (Rmult_eq_reg_r (sqrt (a * a + b * b + c * c))); [|lra].
    rewrite Hs. field. lra.
  - assert (Hz : sqrt (a * a + b * b + c * c) = 0)
      by (pose proof (sqrt_pos (a * a + b * b + c * c)); lra).
    rewrite Hz. apply sqrt_eq_0 in Hz; lra.
Qed.

(** Extra. After [candid_renderer_set_camera], the view matrix sends the
    camera position to the origin and the target to [(0, 0, -d, 1)] with [d]
    the distance from the position to the target, for every camera
    (including a degenerate one whose target equals its position or whose
    up vector is parallel to the view direction). *)
Theorem set_camera_view_eye_target (r : Candid_Renderer) (c : Candid_Camera)
    (cs : list BackendCall) :
  length (m (view_matrix r)) = 16%nat ->
  exists r', candid_renderer_set_camera (mkWorld (Some r) cs) (Some c) = mkWorld (Some r') cs /\
    mat4_transform_point (view_matrix r') (cam_position c) = mkVec4 0 0 0 1 /\
    mat4_transform_point (view_matrix r') (target c) =
      mkVec4 0 0 (- norm3 (vsub (target c) (cam_position c))) 1.
Proof.
  intros Hl. eexists. split; [reflexivity|].
  cbn [set_matrices view_matrix]. unfold camera_view. cbn [m].
  rewrite mat4_assign_16 by exact Hl.
  rewrite !look_at_point, normalize_if_positive_dot.
  destruct (normalize_if_positive_scale (vsub (target c) (cam_position c))) as [kf ->].
  match goal with |- context [normalize_if_positive ?v] =>
    destruct (normalize_if_positive_scale v) as [ks ->] end.
  unfold dot3, cross3, vscale, vsub; cbn [x y z].
  split; f_equal; ring.
Qed.


(** Extra. The projection matrix set by [candid_renderer_set_camera] has
    clip [w = -z] for every point, and maps a point on the near plane
    ([z = -near]) to normalised depth [-1] and one on the far plane
    ([z = -far]) to [+1], whenever near, far and [far - near] are nonzero. *)
Theorem set_camera_depth_range (r : Candid_Renderer) (c : Candid_Camera)
    (cs : list BackendCall) :
  near_plane c <> 0 -> far_plane c <> 0 -> far_plane c - near_plane c <> 0 ->
  exists r', candid_renderer_set_camera (mkWorld (Some r) cs) (Some c) = mkWorld (Some r') cs /\
    (forall q, w4 (mat4_transform_point (projection_matrix r') q) = - z q) /\
    (forall q, z q = - near_plane c ->
       z4 (mat4_transform_point (projection_matrix r') q) /
       w4 (mat4_transform_point (projection_matrix r') q) = -1) /\
    (forall q, z q = - far_plane c ->
       z4 (mat4_transform_point (projection_matrix r') q) /
       w4 (mat4_transform_point (projection_matrix r') q) = 1).
Proof.
  intros Hn Hf Hr. eexists. split; [reflexivity|].
  cbn [set_matrices projection_matrix]. unfold camera_projection, mat4_transform_point.
  cbn [m mat4_assign fold_left repeat list_set fst snd nth z4 w4].
  split; [intros q; ring|].
  split; intros q Hq; rewrite Hq; field; split; lra.
Qed.

(** Extra. [candid_renderer_resize] stores the new size whatever the
    backend's [swapchain_resize] returns, so a following
    [candid_renderer_set_camera] with [aspect_ratio <= 0] takes the aspect
    from the new size: projection entry [m[0]] becomes
    [1 / ((width/height) * tan(fov_y/2))]. *)
Theorem resize_then_set_camera (br : BackendResults) (r : Candid_Renderer)
    (cs : list BackendCall) (w h : Z) (c : Candid_Camera) :
  backend r <> None -> (0 < w)%Z -> (0 < h)%Z -> aspect_ratio c <= 0 ->
  exists res r' cs',
    candid_renderer_resize br (mkWorld (Some r) cs) w h = Returned res (mkWorld (Some r') cs') /\
    width r' = w /\ height r' = h /\
    exists r'', candid_renderer_set_camera (mkWorld (Some r') cs') (Some c) =
                  mkWorld (Some r'') cs' /\
      nth_error (m (projection_matrix r'')) 0 =
        Some (1 / (IZR w / IZR h * tan (fov_y c * 0.5))).
Proof.
  intros Hb Hw Hh Ha. unfold candid_renderer_resize, call_backend. cbn [rend calls].
  destruct r as [bt [b|] dev cc vm pm t dt fc wd ht]; cbn [backend set_size] in *;
    [|contradiction].
  do 3 eexists. split; [reflexivity|]. cbn [width height].
  split; [reflexivity|]. split; [reflexivity|].
  eexists. split; [reflexivity|].
  cbn [set_matrices projection_matrix camera_projection m mat4_assign fold_left
       repeat list_set fst snd nth_error].
  unfold camera_aspect; cbn [set_size width height].
  destruct (Rle_dec (aspect_ratio c) 0) as [_|Hn]; [|contradiction].
  replace ((0 <? w)%Z && (0 <? h)%Z)%bool with true
    by (symmetry; apply andb_true_iff; split; apply Z.ltb_lt; assumption).
  reflexivity.
Qed.

(** Only the last frame-count write matters. *)
Lemma set_frame_count_twice (r : Candid_Renderer) (a b : Z) :
  set_frame_count (set_frame_count r a) b = set_frame_count r b.
Proof. reflexivity. Qed.

(** Extra. Each frame of the sandbox's render loop ([begin_frame],
    [draw_mesh], [end_frame]) adds one to the 64-bit frame counter and makes
    exactly one backend call, [swapchain_present] on the renderer's device;
    [draw_mesh] reaches no backend. After [n] frames the counter is
    [(frame_count + n) mod 2^64] and nothing else of the renderer changed. *)
Theorem sandbox_frames_count (br : BackendResults) (mesh : option nat)
    (ts : list Candid_Mat4) (r : Candid_Renderer) (cs : list BackendCall) :
  backend r <> None -> (0 <= frame_count r < 2 ^ 64)%Z ->
  sandbox_frames br mesh ts (mkWorld (Some r) cs) =
  Some (mkWorld (Some (set_frame_count r ((frame_count r + Z.of_nat (length ts)) mod 2 ^ 64)))
                (cs ++ repeat (swapchain_present, device r) (length ts))).
Proof.
  intros Hb Hfc.
  assert (E : forall k r0 cs0, backend r0 <> None -> (0 <= k < 2 ^ 64)%Z ->
    sandbox_frames br mesh ts (mkWorld (Some (set_frame_count r0 k)) cs0) =
    Some (mkWorld (Some (set_frame_count r0 ((k + Z.of_nat (length ts)) mod 2 ^ 64)))
                  (cs0 ++ repeat (swapchain_present, device r0) (length ts)))).
  { induction ts as [|t ts IH]; intros k r0 cs0 Hb0 Hk.
    - cbn [sandbox_frames length repeat]. rewrite Z.add_0_r, Z.mod_small, app_nil_r by exact Hk.
      reflexivity.
    - destruct r0 as [bt [b|] dev cc vm pm t0 dt fc wd ht]; [|contradiction].
      cbn [sandbox_frames].
      change (sandbox_frame br mesh t _) with
        (Some (mkWorld (Some (set_frame_count
                 (mkRenderer bt (Some b) dev cc vm pm t0 dt fc wd ht) ((k + 1) mod 2 ^ 64)))
                 (cs0 ++ [(swapchain_present, dev)]))).
      cbv beta iota.
      rewrite IH by (cbn; discriminate || (apply Z.mod_pos_bound; lia)).
      cbn [device length repeat]. rewrite <- app_assoc. cbn [app].
      rewrite Z.add_mod_idemp_l by lia. rewrite Nat2Z.inj_succ.
      replace (k + 1 + Z.of_nat (length ts))%Z with (k + Z.succ (Z.of_nat (length ts)))%Z by lia.
      reflexivity. }
  replace (mkWorld (Some r) cs) with (mkWorld (Some (set_frame_count r (frame_count r))) cs)
    by (destruct r; reflexivity).
  exact (E _ _ _ Hb Hfc).
Qed.

(** Extra. In a build with Vulkan support and without Metal, a renderer
    that [candid_renderer_create] succeeds in creating uses the Vulkan
    backend; since the Vulkan backend's resource entries are stubs, every
    [candid_renderer_create_*] on it (buffer, texture, sampler, shader
    module, shader program, mesh, material) returns [ResourceCreation]
    after one call into the backend. *)
Theorem vulkan_build_creates_fail (pf : Platform) (dc : DeviceCreate)
    (cfg : Candid_RendererConfig) (st : Registry) (hp : Heap) :
  apple pf = false -> vulkan_support pf = true -> reachable pf st ->
  create_result (candid_renderer_create pf dc (Some cfg) true st hp) = CANDID_SUCCESS ->
  exists p r,
    created (candid_renderer_create pf dc (Some cfg) true st hp) = Some (p, r) /\
    backend_type r = CANDID_BACKEND_VULKAN /\ backend r = Some candid_vulkan_backend /\
    forall (br : BackendResults) (cs : list BackendCall),
      (forall e, br candid_vulkan_backend e = vulkan_result e (device r)) ->
      let w := mkWorld (Some r) cs in
      candid_renderer_create_buffer br w =
        Returned CANDID_ERROR_RESOURCE_CREATION (mkWorld (Some r) (cs ++ [(buffer_create, device r)])) /\
      candid_renderer_create_texture br w =
        Returned CANDID_ERROR_RESOURCE_CREATION (mkWorld (Some r) (cs ++ [(texture_create, device r)])) /\
      candid_renderer_create_sampler br w =
        Returned CANDID_ERROR_RESOURCE_CREATION (mkWorld (Some r) (cs ++ [(sampler_create, device r)])) /\
      candid_renderer_create_shader_module br w =
        Returned CANDID_ERROR_RESOURCE_CREATION
          (mkWorld (Some r) (cs ++ [(shader_module_create, device r)])) /\
      candid_renderer_create_shader_program br w =
        Returned CANDID_ERROR_RESOURCE_CREATION
          (mkWorld (Some r) (cs ++ [(shader_program_create, device r)])) /\
      candid_renderer_create_mesh br w =
        Returned CANDID_ERROR_RESOURCE_CREATION (mkWorld (Some r) (cs ++ [(mesh_create, device r)])) /\
      candid_renderer_create_material br w =
        Returned CANDID_ERROR_RESOURCE_CREATION
          (mkWorld (Some r) (cs ++ [(material_create, device r)])).
Proof.
  intros Ha Hv Hr. unfold candid_renderer_create.
  destruct cfg as [b nw ns cw ch vs dm mf an]; cbn [cfg_backend cfg_width cfg_height].
  destruct hp as [l f [|[|] o]]; cbn [malloc_ oracle fresh live tl];
    [| |intros H; discriminate];
    destruct (reachable_cases pf st Hr) as [-> | ->]; clear Hr.
  all: backend_cases b; destruct pf as [ap vk w32]; cbn in Ha, Hv; subst ap vk;
    destruct w32; crunch; try (intros H; discriminate).
  all: match goal with D : DeviceCreate |- _ =>
         match goal with |- context [D ?i ?d] => destruct (D i d) as [[] dev] end end;
    cbv -[IZR Rdiv]; intros H; try discriminate.
  all: do 2 eexists; split; [reflexivity|]; split; [reflexivity|]; split; [reflexivity|].
  all: intros br cs Hbr; cbn; rewrite !Hbr; repeat split.
Qed.

(** Extra. When its six allocations succeed, [Candid_CreateCubeMesh]
    returns eight vertices and twelve triangles whose corner indices are all
    below 8, and every triangle is wound the same way: with [p0], [p1],
    [p2] its corners, [cross(p1-p0, p2-p0) . (p0+p1+p2) = (3/2) size^3], so
    for [size > 0] every face normal points away from the centre. *)
Theorem legacy_cube_outward (size : R) (hp : Heap) :
  allocs_succeed 6 hp = true ->
  exists bx by_ bz b0 b1 b2 xs ys zs t0 t1 t2,
    snd (Candid_CreateCubeMesh size hp) =
      mk3DMesh [Some (bx, xs); Some (by_, ys); Some (bz, zs)] 8
               [Some (b0, t0); Some (b1, t1); Some (b2, t2)] 12 /\
    length xs = 8%nat /\ length ys = 8%nat /\ length zs = 8%nat /\
    length t0 = 12%nat /\ length t1 = 12%nat /\ length t2 = 12%nat /\
    Forall (fun i => 0 <= i < 8)%Z (t0 ++ t1 ++ t2) /\
    forall k, (k < 12)%nat ->
      let p0 := legacy_corner xs ys zs t0 k in
      let p1 := legacy_corner xs ys zs t1 k in
      let p2 := legacy_corner xs ys zs t2 k in
      dot3 (cross3 (vsub p1 p0) (vsub p2 p0)) (vadd (vadd p0 p1) p2) = 3 / 2 * size ^ 3.
Proof.
  destruct hp as [l f o]. unfold allocs_succeed; cbn [oracle].
  intros H.
  do 6 (try (destruct o as [|[|] o]; cbn in H; try discriminate)).
  all: unfold Candid_CreateCubeMesh; cbn [malloc_ oracle fresh live tl].
  all: do 12 eexists; split; [reflexivity|].
  all: do 6 (split; [reflexivity|]).
  all: split; [repeat constructor; lia|].
  all: intros k Hk; do 12 (destruct k as [|k]; [unfold legacy_corner, dot3, cross3, vsub, vadd;
         cbv -[IZR Rdiv Rminus Rmult Rplus Ropp pow]; field|]); lia.
Qed.

(** Extra. When one of the six allocations of [Candid_CreateCubeMesh]
    fails, the mesh is returned with all six arrays null and its counts 8
    and 12, and every block it did allocate is freed. *)
Theorem legacy_cube_failure (size : R) (hp : Heap) :
  heap_wf hp -> allocs_succeed 6 hp = false ->
  snd (Candid_CreateCubeMesh size hp) = mk3DMesh [None; None; None] 8 [None; None; None] 12 /\
  live (fst (Candid_CreateCubeMesh size hp)) = live hp.
Proof.
  destruct hp as [l f o]. unfold allocs_succeed, heap_wf; cbn [oracle live fresh].
  intros Hwf H.
  do 6 (try (destruct o as [|[|] o]; cbn in H; try discriminate)).
  all: unfold Candid_CreateCubeMesh; cbn [malloc_ oracle fresh live tl free_ fst snd].
  all: split; [reflexivity|]; clean_frees l f Hwf; reflexivity.
Qed.

(** Extra. Every vertex of a successful [create_sphere] carries a unit
    normal, its position is [radius] times that normal, and its texture
    coordinates lie in [[0,1]]. *)
Theorem create_sphere_shape (radius : R) (segments rings : Z) (o m : Candid_MeshData)
    (hp hp' : Heap) :
  candid_mesh_create_sphere radius segments rings (Some o) hp =
    Returned CANDID_SUCCESS (hp', Some m) ->
  exists vs, vertices m = Some vs /\
    Forall (fun v => norm3 (normal v) = 1 /\ position v = vscale (normal v) radius /\
                     0 <= x2 (texcoord0 v) <= 1 /\ 0 <= y2 (texcoord0 v) <= 1) vs.
Proof.
  intros H. unfold candid_mesh_create_sphere in H.
  destruct ((segments <? 3)%Z || (rings <? 2)%Z) eqn:E; [discriminate|].
  apply orb_false_iff in E as [E1 E2]. apply Z.ltb_ge in E1, E2.
  apply alloc_and_fill_success in H as [hp2 H].
  apply fill_buffers_success in H as (d & Hd & Hv & _).
  injection Hd as <-. eexists. split; [exact Hv|].
  apply Forall_forall. intros v Hin.
  apply in_flat_map in Hin as (ring & Hring & Hin).
  apply in_map_iff in Hin as (seg & <- & Hseg).
  apply in_range in Hring, Hseg.
  pose proof (ratio_01 seg segments ltac:(lia) ltac:(lia)) as Hs.
  pose proof (ratio_01 ring rings ltac:(lia) ltac:(lia)) as Hr.
  unfold sphere_vertex; cbn [normal position texcoord0 x y z x2 y2].
  split; [|split; [unfold vscale; cbn [x y z]; f_equal; ring|tauto]].
  set (phi := PI * IZR ring / IZR rings).
  set (theta := 2 * PI * IZR seg / IZR segments).
  pose proof (sin2_cos2 phi) as Hp. pose proof (sin2_cos2 theta) as Ht.
  unfold Rsqr in Hp, Ht. unfold norm3; cbn [x y z].
  replace (cos theta * sin phi * (cos theta * sin phi) + cos phi * cos phi +
           sin theta * sin phi * (sin theta * sin phi))
    with (sin phi * sin phi * (sin theta * sin theta + cos theta * cos theta)
          + cos phi * cos phi) by ring.
  rewrite Ht, Rmult_1_r, Hp. apply sqrt_1.
Qed.

(** ** Runs the further properties are applied to *)

Lemma triangle_mesh_normals_ok :
  exists d', candid_mesh_calculate_normals (Some (triangle_mesh 3)) =
               Returned CANDID_SUCCESS (Some d').
Proof.
  unfold candid_mesh_calculate_normals, normals_pass. simpl.
  unfold normalize_normal. simpl.
  repeat (match goal with |- context [Rlt_dec ?a ?b] => destruct (Rlt_dec a b) end; simpl).
  all: eexists; reflexivity.
Qed.

(** Two points, [(1,2,3)] and [(4,0,6)]. *)
Lemma calculate_aabb_tight_witness :
  exists box,
    candid_mesh_calculate_aabb
      (Some (point_mesh [tri_vertex (mkVec3 1 2 3); tri_vertex (mkVec3 4 0 6)] 2))
      (Some aabb_zero) = Returned CANDID_SUCCESS (Some box) /\
    x (aabb_min box) <= 4 <= x (aabb_max box).
Proof.
  destruct (calculate_aabb_tight
              (point_mesh [tri_vertex (mkVec3 1 2 3); tri_vertex (mkVec3 4 0 6)] 2)
              [tri_vertex (mkVec3 1 2 3); tri_vertex (mkVec3 4 0 6)] aabb_zero
              eq_refl ltac:(cbn; lia) ltac:(cbn; lia)) as [box [H [Hb _]]].
  exists box. split; [exact H|].
  refine (proj1 (Hb (mkVec3 4 0 6) _)). cbn. right; left; reflexivity.
Defined.

Lemma calculate_normals_frame_witness :
  exists d' w, candid_mesh_calculate_normals (Some (triangle_mesh 3)) =
                 Returned CANDID_SUCCESS (Some d') /\
               d' = with_vertices (triangle_mesh 3) w /\ length w = 3%nat.
Proof.
  destruct triangle_mesh_normals_ok as [d' H].
  destruct (calculate_normals_frame (triangle_mesh 3) d' _ [0; 1; 2]%Z eq_refl eq_refl
              ltac:(repeat constructor; lia) H) as (w & Hw & Hl & _).
  exists d', w. auto.
Defined.

Lemma calculate_normals_unit_witness :
  exists d' v, candid_mesh_calculate_normals (Some (triangle_mesh 3)) =
                 Returned CANDID_SUCCESS (Some d') /\
               mesh_vertex d' 2 = Some v /\
               (norm3 (normal v) = 1 \/ norm3 (normal v) <= eps6).
Proof.
  destruct triangle_mesh_normals_ok as [d' H].
  destruct (calculate_normals_unit (triangle_mesh 3) d' 2 H ltac:(cbn; lia)) as [v Hv].
  exists d', v. split; [exact H|exact Hv].
Defined.

(** The second allocation fails. *)
Lemma calculate_tangents_no_leak_witness :
  heap_wf (mkHeap [] 0 [true; false]) /\
  exists hp', candid_mesh_calculate_tangents (Some tangent_fixture) (mkHeap [] 0 [true; false]) =
                Returned CANDID_ERROR_OUT_OF_MEMORY (hp', Some tangent_fixture) /\
              live hp' = [].
Proof.
  assert (Hwf : heap_wf (mkHeap [] 0 [true; false])) by (intros p []).
  split; [exact Hwf|]. eexists. split; [reflexivity|].
  exact (proj1 (calculate_tangents_no_leak tangent_fixture _ _ _ _ Hwf eq_refl)).
Defined.

Lemma calculate_tangents_frame_witness :
  exists w, with_vertices tangent_fixture
              (map (fun v => with_tangent v (mkVec4 0 0 0 1)) tangent_fixture_vertices) =
            with_vertices tangent_fixture w /\ length w = 3%nat.
Proof.
  destruct (calculate_tangents_frame tangent_fixture _ tangent_fixture_vertices heap0 _
              eq_refl tangent_fixture_result) as (w & Hw & Hl & _).
  exists w. split; [exact Hw|exact Hl].
Defined.

Lemma create_cube_winding_witness :
  exists hp' m vs is, candid_mesh_create_cube 1 (Some empty_mesh) heap0 =
                        Returned CANDID_SUCCESS (hp', Some m) /\
                      vertices m = Some vs /\ indices m = Some is.
Proof.
  eexists _, _. assert (H : candid_mesh_create_cube 1 (Some empty_mesh) heap0 =
                              Returned CANDID_SUCCESS (_, Some _)) by reflexivity.
  destruct (create_cube_winding 1 empty_mesh _ heap0 _ H) as (vs & is & Hv & Hi & _).
  exists vs, is. split; [exact H|]. split; [exact Hv|exact Hi].
Defined.

Lemma create_plane_shape_witness :
  exists hp' m vs, candid_mesh_create_plane 2 2 1 1 (Some empty_mesh) heap0 =
                     Returned CANDID_SUCCESS (hp', Some m) /\
                   vertices m = Some vs /\ length vs = 4%nat.
Proof.
  eexists _, _. assert (H : candid_mesh_create_plane 2 2 1 1 (Some empty_mesh) heap0 =
                              Returned CANDID_SUCCESS (_, Some _)) by reflexivity.
  destruct (create_plane_shape 2 2 1 1 empty_mesh _ heap0 _ H) as (vs & Hv & _).
  exists vs. split; [exact H|]. split; [exact Hv|].
  injection Hv as <-. reflexivity.
Defined.

Lemma create_cylinder_shape_witness :
  exists hp' m vs, candid_mesh_create_cylinder 1 2 3 (Some empty_mesh) heap0 =
                     Returned CANDID_SUCCESS (hp', Some m) /\
                   vertices m = Some vs /\ length vs = 18%nat.
Proof.
  eexists _, _. assert (H : candid_mesh_create_cylinder 1 2 3 (Some empty_mesh) heap0 =
                              Returned CANDID_SUCCESS (_, Some _)) by reflexivity.
  destruct (create_cylinder_shape 1 2 3 empty_mesh _ heap0 _ H) as (vs & Hv & _).
  exists vs. split; [exact H|]. split; [exact Hv|].
  injection Hv as <-. reflexivity.
Defined.

(** A Windows build without Vulkan support: no backend is preferred. *)
Lemma preferred_backend_by_build_witness :
  reachable (mkPlatform false false true) registry0 /\
  candid_backend_get_preferred (mkPlatform false false true) registry0 =
    (CANDID_BACKEND_AUTO, init_backends (mkPlatform false false true) registry0).
Proof.
  split; [constructor|].
  exact (preferred_backend_by_build (mkPlatform false false true) registry0
           (reachable_start _)).
Defined.

(** D3D12 on a Windows build with Vulkan support. *)
Lemma is_available_by_build_witness :
  reachable (mkPlatform false true true) registry0 /\
  fst (candid_backend_is_available (mkPlatform false true true) CANDID_BACKEND_D3D12
         registry0) = false.
Proof.
  split; [constructor|].
  exact (is_available_by_build (mkPlatform false true true) CANDID_BACKEND_D3D12 registry0
           (reachable_start _)).
Defined.

(** Room for one backend on an Apple build with Vulkan support. *)
Lemma get_available_by_build_witness :
  reachable (mkPlatform true true false) registry0 /\
  candid_backend_get_available (mkPlatform true true false) true 1%N registry0 =
    (1%N, [CANDID_BACKEND_METAL], init_backends (mkPlatform true true false) registry0).
Proof.
  split; [constructor|].
  exact (get_available_by_build (mkPlatform true true false) true 1%N registry0
           (reachable_start _)).
Defined.

(** A Linux build with Vulkan support, the sandbox's configuration. *)
Lemma renderer_create_success_witness :
  reachable (mkPlatform false true false) registry0 /\
  create_result (candid_renderer_create (mkPlatform false true false) device_create_ok
                   (Some sandbox_config) true registry0 heap0) = CANDID_SUCCESS /\
  exists r, created (candid_renderer_create (mkPlatform false true false) device_create_ok
                       (Some sandbox_config) true registry0 heap0) = Some (0%nat, r) /\
            backend_type r = CANDID_BACKEND_VULKAN.
Proof.
  split; [constructor|]. split; [reflexivity|].
  destruct (renderer_create_success (mkPlatform false true false) device_create_ok
              sandbox_config registry0 heap0 (reachable_start _) eq_refl)
    as (r & Hc & _ & _ & _ & Hauto & _).
  exists r. split; [exact Hc|]. rewrite Hauto by reflexivity. reflexivity.
Defined.

(** The device creation fails. *)
Lemma renderer_create_failure_witness :
  heap_wf heap0 /\
  create_result (candid_renderer_create (mkPlatform false true false) device_create_fail
                   (Some sandbox_config) true registry0 heap0) =
    CANDID_ERROR_RESOURCE_CREATION /\
  created (candid_renderer_create (mkPlatform false true false) device_create_fail
             (Some sandbox_config) true registry0 heap0) = None /\
  live (heap_after (candid_renderer_create (mkPlatform false true false) device_create_fail
                      (Some sandbox_config) true registry0 heap0)) = [].
Proof.
  assert (Hwf : heap_wf heap0) by (intros p []).
  split; [exact Hwf|]. split; [reflexivity|].
  exact (renderer_create_failure (mkPlatform false true false) device_create_fail
           (Some sandbox_config) true registry0 heap0 Hwf
           ltac:(cbv -[IZR Rdiv]; discriminate)).
Defined.

(** A Linux build without Vulkan support has no backend for [AUTO]. *)
Lemma renderer_create_unsupported_witness :
  reachable (mkPlatform false false false) registry0 /\
  fst (candid_backend_is_available (mkPlatform false false false) CANDID_BACKEND_AUTO
         registry0) = false /\
  create_result (candid_renderer_create (mkPlatform false false false) device_create_ok
                   (Some sandbox_config) true registry0 heap0) =
    CANDID_ERROR_BACKEND_NOT_SUPPORTED.
Proof.
  split; [constructor|]. split; [reflexivity|].
  exact (proj1 (renderer_create_unsupported (mkPlatform false false false) device_create_ok
                  sandbox_config registry0 heap0 (reachable_start _) eq_refl)).
Defined.

Lemma set_camera_view_eye_target_witness :
  length (m (view_matrix renderer_800x600)) = 16%nat /\
  exists r', candid_renderer_set_camera (mkWorld (Some renderer_800x600) [])
               (Some scenario_camera) = mkWorld (Some r') [] /\
    mat4_transform_point (view_matrix r') (cam_position scenario_camera) = mkVec4 0 0 0 1.
Proof.
  split; [reflexivity|].
  destruct (set_camera_view_eye_target renderer_800x600 scenario_camera [] eq_refl)
    as (r' & H & Hp & _).
  exists r'. split; [exact H|exact Hp].
Defined.

Lemma set_camera_depth_range_witness :
  near_plane scenario_camera <> 0 /\ far_plane scenario_camera <> 0 /\
  far_plane scenario_camera - near_plane scenario_camera <> 0 /\
  exists r', candid_renderer_set_camera (mkWorld (Some renderer_800x600) [])
               (Some scenario_camera) = mkWorld (Some r') [] /\
    z4 (mat4_transform_point (projection_matrix r') (mkVec3 0 0 (- (1 / 10)))) /
    w4 (mat4_transform_point (projection_matrix r') (mkVec3 0 0 (- (1 / 10)))) = -1.
Proof.
  assert (Hn : near_plane scenario_camera <> 0) by (cbn; lra).
  assert (Hf : far_plane scenario_camera <> 0) by (cbn; lra).
  assert (Hr : far_plane scenario_camera - near_plane scenario_camera <> 0) by (cbn; lra).
  split; [exact Hn|]. split; [exact Hf|]. split; [exact Hr|].
  destruct (set_camera_depth_range renderer_800x600 scenario_camera [] Hn Hf Hr)
    as (r' & H & _ & Hnear & _).
  exists r'. split; [exact H|]. apply Hnear. reflexivity.
Defined.

(** The window is resized to 1024x768. *)
Lemma resize_then_set_camera_witness :
  backend renderer_800x600 <> None /\ aspect_ratio scenario_camera <= 0 /\
  exists res r' cs',
    candid_renderer_resize backend_all_ok (mkWorld (Some renderer_800x600) []) 1024 768 =
      Returned res (mkWorld (Some r') cs') /\ width r' = 1024%Z.
Proof.
  assert (Hb : backend renderer_800x600 <> None) by discriminate.
  assert (Ha : aspect_ratio scenario_camera <= 0) by (cbn; lra).
  split; [exact Hb|]. split; [exact Ha|].
  destruct (resize_then_set_camera backend_all_ok renderer_800x600 [] 1024 768 scenario_camera
              Hb ltac:(lia) ltac:(lia) Ha) as (res & r' & cs' & H & Hw & _).
  exists res, r', cs'. split; [exact H|exact Hw].
Defined.

(** Two frames from a fresh renderer. *)
Lemma sandbox_frames_count_witness :
  backend renderer_800x600 <> None /\ (0 <= frame_count renderer_800x600 < 2 ^ 64)%Z /\
  sandbox_frames backend_all_ok None [mat4_identity; mat4_identity]
    (mkWorld (Some renderer_800x600) []) =
  Some (mkWorld (Some (set_frame_count renderer_800x600 2))
                [(swapchain_present, Some 0%nat); (swapchain_present, Some 0%nat)]).
Proof.
  assert (Hb : backend renderer_800x600 <> None) by discriminate.
  assert (Hfc : (0 <= frame_count renderer_800x600 < 2 ^ 64)%Z) by (cbn; lia).
  split; [exact Hb|]. split; [exact Hfc|].
  rewrite (sandbox_frames_count backend_all_ok None [mat4_identity; mat4_identity]
             renderer_800x600 [] Hb Hfc).
  reflexivity.
Defined.

Lemma vulkan_build_creates_fail_witness :
  reachable (mkPlatform false true false) registry0 /\
  exists p r,
    created (candid_renderer_create (mkPlatform false true false) device_create_ok
               (Some sandbox_config) true registry0 heap0) = Some (p, r) /\
    backend r = Some candid_vulkan_backend.
Proof.
  split; [constructor|].
  destruct (vulkan_build_creates_fail (mkPlatform false true false) device_create_ok
              sandbox_config registry0 heap0 eq_refl eq_refl (reachable_start _) eq_refl)
    as (p & r & Hc & _ & Hb & _).
  exists p, r. split; [exact Hc|exact Hb].
Defined.

Lemma legacy_cube_outward_witness :
  allocs_succeed 6 heap0 = true /\
  exists bx by_ bz b0 b1 b2 xs ys zs t0 t1 t2,
    snd (Candid_CreateCubeMesh 1 heap0) =
      mk3DMesh [Some (bx, xs); Some (by_, ys); Some (bz, zs)] 8
               [Some (b0, t0); Some (b1, t1); Some (b2, t2)] 12.
Proof.
  split; [reflexivity|].
  destruct (legacy_cube_outward 1 heap0 eq_refl)
    as (bx & by_ & bz & b0 & b1 & b2 & xs & ys & zs & t0 & t1 & t2 & H & _).
  exists bx, by_, bz, b0, b1, b2, xs, ys, zs, t0, t1, t2. exact H.
Defined.

(** The fourth allocation fails. *)
Lemma legacy_cube_failure_witness :
  heap_wf (mkHeap [] 0 [true; true; true; false]) /\
  allocs_succeed 6 (mkHeap [] 0 [true; true; true; false]) = false /\
  live (fst (Candid_CreateCubeMesh 1 (mkHeap [] 0 [true; true; true; false]))) = [].
Proof.
  assert (Hwf : heap_wf (mkHeap [] 0 [true; true; true; false])) by (intros p []).
  split; [exact Hwf|]. split; [reflexivity|].
  exact (proj2 (legacy_cube_failure 1 _ Hwf eq_refl)).
Defined.

Lemma create_sphere_shape_witness :
  exists hp' m vs, candid_mesh_create_sphere 1 3 2 (Some empty_mesh) heap0 =
                     Returned CANDID_SUCCESS (hp', Some m) /\
                   vertices m = Some vs /\ length vs = 12%nat.
Proof.
  eexists _, _. assert (H : candid_mesh_create_sphere 1 3 2 (Some empty_mesh) heap0 =
                              Returned CANDID_SUCCESS (_, Some _)) by reflexivity.
  destruct (create_sphere_shape 1 3 2 empty_mesh _ heap0 _ H) as (vs & Hv & _).
  exists vs. split; [exact H|]. split; [exact Hv|].
  injection Hv as <-. reflexivity.
Defined.
